(** * Showtime pipeline of [bms4.py]: parser, dedupe and roll-up aggregator

    A shallow embedding of the pure core of [src/bms4.py]:

    - [calc_occupancy], the helper of the summary;
    - [parse_payload], the normaliser of one venue's decoded JSON payload;
    - [dedupe], the first-seen-wins filter on the composite key;
    - the summary accumulation loop and the [final_summary] construction of
      the [__main__] block;
    - the per-venue loop of the [__main__] block, given the outcome of each
      fetch, and the check [fetch_api_raw] makes on a response.

    Python values are modelled as follows.
    - [int] is [Z] (unbounded).
    - [float] is IEEE 754 binary64, as [spec_float] with the operations of
      the standard library's [SpecFloat] at [prec = 53] and [emax = 1024]
      (round to nearest, ties to even), which is what CPython's float
      arithmetic does.  Int-by-int true division and [round(x, 2)] are
      correctly rounded in CPython and are written here on top of the same
      rounding function.  The floats of a payload are meant to be
      [valid_binary]; no statement below relies on it.
    - [str] is [string]: a sequence of code points below 256.
    - a decoded JSON document is a [pyval].
    - a [dict] whose iteration order is observable is an association list in
      insertion order; a [set] of which only the size is read is a [gset].
    - an exception is a [Raise] result; code is written in the error monad
      where the source can raise.
    - [dedupe] is given a second time on a store of objects, where [rows]
      and its records are references and the list it returns is allocated
      by the call. *)

From Stdlib Require Import ZArith String Ascii Lia Permutation DecimalString DecimalPos.
From Stdlib Require Import Floats.SpecFloat.
From stdpp Require Import base option list gmap strings sets.

Local Open Scope string_scope.
Local Open Scope list_scope.
Local Open Scope Z_scope.

(** ** Outcomes of Python code *)

(** The exception classes the modelled code can raise; the last two are
    those [fetch_api_raw] raises on a timeout and on a body that is not
    JSON. *)
Inductive exn : Type :=
  | AttributeError
  | KeyError
  | TypeError
  | ValueError
  | IndexError
  | OverflowError
  | ZeroDivisionError
  | TimeoutError
  | RuntimeError.

(** [Ok a]: normal return.  [Raise e]: an exception of class [e] leaves the
    function.  [Unmodelled]: the run left the fragment of Python this
    embedding covers (a record field that the typed record below keeps as
    text held a non-text JSON value, or [str()] was applied to a float or a
    container); nothing is claimed about such runs. *)
Inductive result (A : Type) : Type :=
  | Ok (a : A)
  | Raise (e : exn)
  | Unmodelled.
Arguments Ok {A} a.
Arguments Raise {A} e.
Arguments Unmodelled {A}.

#[global] Instance result_ret : MRet result := fun _ a => Ok a.
#[global] Instance result_bind : MBind result := fun _ _ f r =>
  match r with
  | Ok a => f a
  | Raise e => Raise e
  | Unmodelled => Unmodelled
  end.
#[global] Instance result_fmap : FMap result := fun _ _ f r =>
  match r with
  | Ok a => Ok (f a)
  | Raise e => Raise e
  | Unmodelled => Unmodelled
  end.

Definition is_Ok {A} (r : result A) : Prop := exists a, r = Ok a.
#[global] Instance result_is_Ok_dec {A} (r : result A) : Decision (is_Ok r).
Proof.
  destruct r as [a| |]; [left; by exists a | right; by intros [? ?] ..].
Defined.

(** A [for] loop whose body can raise and whose normal effect is to append
    to one output list: the outputs of the iterations, in order, up to the
    first exception. *)
Fixpoint for_each {A B} (f : A -> result (list B)) (xs : list A) : result (list B) :=
  match xs with
  | [] => Ok []
  | x :: xs' => ys ← f x; zs ← for_each f xs'; Ok (ys ++ zs)
  end.

(** ** Binary64 floats *)

Module F64.

Definition prec : Z := 53.
Definition emax : Z := 1024.

Definition add : spec_float -> spec_float -> spec_float := SFadd prec emax.
Definition mul : spec_float -> spec_float -> spec_float := SFmul prec emax.
Definition leb : spec_float -> spec_float -> bool := SFleb.
Definition ltb : spec_float -> spec_float -> bool := SFltb.

Definition zero : spec_float := S754_zero false.

(** [rnd s m e l] is the binary64 nearest to [(-1)^s * x], where
    [m * 2^e <= x < (m + 1) * 2^e] and [l] locates [x] in that interval. *)
Definition rnd (s : bool) (m e : Z) (l : location) : spec_float :=
  binary_round_aux prec emax s m e l.

(** The binary64 nearest to the rational [a / b], for [0 < a] and [0 < b],
    with sign [s]. *)
Definition of_ratio (s : bool) (a b : Z) : spec_float :=
  let '(q, e, l) := SFdiv_core_binary prec emax a 0 b 0 in rnd s q e l.

(** The binary64 nearest to the integer [z]; exact when [|z| <= 2^53]. *)
Definition of_Z (z : Z) : spec_float := binary_normalize prec emax z 0 false.

(** Integer nearest to [a / b], ties to the even one ([0 <= a], [0 < b]). *)
Definition div_half_even (a b : Z) : Z :=
  let q := a / b in
  let r := a mod b in
  match 2 * r ?= b with
  | Lt => q
  | Gt => q + 1
  | Eq => if Z.even q then q else q + 1
  end.

(** The integer nearest to [100 * m * 2^e], ties to even: the digits that
    the correctly rounded two-decimal conversion of [m * 2^e] prints. *)
Definition hundredths (m : positive) (e : Z) : Z :=
  match e with
  | Zneg p => div_half_even (100 * Zpos m) (2 ^ Zpos p)
  | _ => 100 * Zpos m * 2 ^ e
  end.

(** [round(x, 2)] on a float: CPython converts [x] to the nearest decimal
    with two fractional digits (ties to even, on the exact binary value) and
    converts that decimal back to the nearest float; infinities, NaN and
    zeros are returned unchanged, and a result of zero keeps the sign. *)
Definition round2 (x : spec_float) : spec_float :=
  match x with
  | S754_finite s m e =>
      let n := hundredths m e in
      if n =? 0 then S754_zero s else of_ratio s n 100
  | _ => x
  end.

(** [int(x)] on a finite float: truncation towards zero. *)
Definition trunc (s : bool) (m : positive) (e : Z) : Z :=
  let a := match e with
           | Zneg p => Zpos m / 2 ^ Zpos p
           | _ => Zpos m * 2 ^ e
           end in
  if s then - a else a.

Definition is_zero (x : spec_float) : bool :=
  match x with S754_zero _ => true | _ => false end.

End F64.

Abbreviation float := spec_float.

(** [a / b] on two ints: the correctly rounded quotient;
    [ZeroDivisionError] on [b = 0], [OverflowError] when the quotient is too
    large for a float. *)
Definition int_truediv (a b : Z) : result float :=
  if b =? 0 then Raise ZeroDivisionError
  else
    let s := xorb (a <? 0) (b <? 0) in
    if a =? 0 then Ok (S754_zero (b <? 0))
    else match F64.of_ratio s (Z.abs a) (Z.abs b) with
         | S754_infinity _ => Raise OverflowError
         | q => Ok q
         end.

(** [float(z)] on an int: [OverflowError] when [z] rounds beyond the largest
    float. *)
Definition float_of_int (z : Z) : result float :=
  match F64.of_Z z with
  | S754_infinity _ => Raise OverflowError
  | x => Ok x
  end.

(** ** The helper of the summary *)

(** [[
def calc_occupancy(sold, total):
    return round((sold / total) * 100, 2) if total else 0.0
]] *)
Definition calc_occupancy (sold total : Z) : result float :=
  if total =? 0 then Ok F64.zero
  else q ← int_truediv sold total;
       Ok (F64.round2 (F64.mul q (F64.of_Z 100))).

(** ** Decoded JSON and the Python built-ins the parser applies to it *)

(** What [json.loads] returns: [None], [bool], [int], [float], [str],
    [list], and [dict] with [str] keys (looked up by first match). *)
#[warnings="-register-all"]
Inductive pyval : Type :=
  | JNull
  | JBool (b : bool)
  | JInt (z : Z)
  | JFloat (x : float)
  | JStr (s : string)
  | JArr (l : list pyval)
  | JObj (kv : list (string * pyval)).

(** Association lists as insertion-ordered dicts. *)
Section Dict.
Context {K V : Type} `{EqDecision K}.

Fixpoint dict_get (k : K) (d : list (K * V)) : option V :=
  match d with
  | [] => None
  | (k', v) :: d' => if decide (k = k') then Some v else dict_get k d'
  end.

(** [d[k] = v]: in place when [k] is present, appended otherwise. *)
Fixpoint dict_set (k : K) (v : V) (d : list (K * V)) : list (K * V) :=
  match d with
  | [] => [(k, v)]
  | (k', v') :: d' =>
      if decide (k = k') then (k, v) :: d' else (k', v') :: dict_set k v d'
  end.

(** [if k not in d: d[k] = fresh] followed by an update of [d[k]]
    through the alias the source takes of it. *)
Definition dict_upsert (k : K) (fresh : V) (f : V -> V) (d : list (K * V)) :=
  dict_set k (f (default fresh (dict_get k d))) d.

Definition dict_keys (d : list (K * V)) : list K := d.*1.
End Dict.

Module Py.

(** [bool(v)]. *)
Definition truthy (v : pyval) : bool :=
  match v with
  | JNull => false
  | JBool b => b
  | JInt z => negb (z =? 0)
  | JFloat x => negb (F64.is_zero x)
  | JStr s => negb (String.eqb s "")
  | JArr l => match l with [] => false | _ => true end
  | JObj kv => match kv with [] => false | _ => true end
  end.

(** [v.get(k, d)]: only a dict has [get]. *)
Definition get (v : pyval) (k : string) (d : pyval) : result pyval :=
  match v with
  | JObj kv => Ok (default d (dict_get k kv))
  | _ => Raise AttributeError
  end.

(** [v[0]]. *)
Definition first (v : pyval) : result pyval :=
  match v with
  | JArr (x :: _) => Ok x
  | JArr [] => Raise IndexError
  | JStr (String c _) => Ok (JStr (String c ""))
  | JStr "" => Raise IndexError
  | JObj _ => Raise KeyError
  | _ => Raise TypeError
  end.

(** The items a [for] loop over [v] visits. *)
Definition iter (v : pyval) : result (list pyval) :=
  match v with
  | JArr l => Ok l
  | JStr s => Ok ((fun c => JStr (String c "")) <$> list_ascii_of_string s)
  | JObj kv => Ok (JStr <$> dict_keys kv)
  | _ => Raise TypeError
  end.

(** Whitespace among the code points below 256, as [str.isspace]. *)
Definition is_space (c : ascii) : bool :=
  let n := Z.of_N (N_of_ascii c) in
  ((9 <=? n) && (n <=? 13)) || ((28 <=? n) && (n <=? 32))
  || (n =? 133) || (n =? 160).

Fixpoint lstrip (l : list ascii) : list ascii :=
  match l with
  | c :: l' => if is_space c then lstrip l' else l
  | [] => []
  end.

(** [s.strip()]. *)
Definition strip (s : string) : string :=
  string_of_list_ascii (rev (lstrip (rev (lstrip (list_ascii_of_string s))))).

(** The characters [int()] and [float()] skip at the two ends of a
    literal: the whitespace of C, tab to carriage return and the space,
    and the whitespace beyond ASCII, which they first turn into a space.
    The separators U+001C to U+001F, which [str.strip] removes, are not
    among them. *)
Definition is_blank (c : ascii) : bool :=
  let n := Z.of_N (N_of_ascii c) in
  ((9 <=? n) && (n <=? 13)) || (n =? 32) || (n =? 133) || (n =? 160).

Fixpoint lskip (l : list ascii) : list ascii :=
  match l with
  | c :: l' => if is_blank c then lskip l' else l
  | [] => []
  end.

Definition digit (c : ascii) : option Z :=
  let n := Z.of_N (N_of_ascii c) in
  if (48 <=? n) && (n <=? 57) then Some (n - 48) else None.

Definition is_digit (c : ascii) : bool :=
  match digit c with Some _ => true | None => false end.

(** The numeric literals of [int()] and [float()] admit one underscore
    between two digits; [ungroup prev l] removes them, or fails. *)
Fixpoint ungroup (prev : option ascii) (l : list ascii) : option (list ascii) :=
  match l with
  | [] => match prev with Some "_"%char => None | _ => Some [] end
  | c :: l' =>
      if Ascii.eqb c "_" then
        match prev with
        | Some p => if is_digit p then ungroup (Some c) l' else None
        | None => None
        end
      else
        match prev with
        | Some "_"%char =>
            if is_digit c then cons c <$> ungroup (Some c) l' else None
        | _ => cons c <$> ungroup (Some c) l'
        end
  end.

(** Value of a non-empty run of decimal digits. *)
Fixpoint digits_value (acc : Z) (l : list ascii) : option Z :=
  match l with
  | [] => Some acc
  | c :: l' => d ← digit c; digits_value (10 * acc + d) l'
  end.

Definition split_sign (l : list ascii) : bool * list ascii :=
  match l with
  | "-"%char :: l' => (true, l')
  | "+"%char :: l' => (false, l')
  | _ => (false, l)
  end.

(** [int(s)] on a [str], base 10.  A literal of more than 4300 digits is
    refused by recent interpreters and accepted by older ones: left out. *)
Definition int_of_str (s : string) : result Z :=
  let l := rev (lskip (rev (lskip (list_ascii_of_string s)))) in
  let '(neg, body) := split_sign l in
  match ungroup None body with
  | Some (c :: ds) =>
      match digits_value 0 (c :: ds) with
      | Some n =>
          if 4300 <? Z.of_nat (length (c :: ds)) then Unmodelled
          else Ok (if neg then - n else n)
      | None => Raise ValueError
      end
  | _ => Raise ValueError
  end.

(** [int(v)]. *)
Definition int (v : pyval) : result Z :=
  match v with
  | JInt z => Ok z
  | JBool b => Ok (if b then 1 else 0)
  | JFloat (S754_finite s m e) => Ok (F64.trunc s m e)
  | JFloat (S754_zero _) => Ok 0
  | JFloat (S754_infinity _) => Raise OverflowError
  | JFloat S754_nan => Raise ValueError
  | JStr s => int_of_str s
  | _ => Raise TypeError
  end.

Definition lower (c : ascii) : ascii :=
  let n := N_of_ascii c in
  if ((65 <=? n) && (n <=? 90))%N then ascii_of_N (n + 32) else c.

Fixpoint span_digits (l : list ascii) : list ascii * list ascii :=
  match l with
  | c :: l' =>
      if is_digit c then let '(ds, r) := span_digits l' in (c :: ds, r)
      else ([], l)
  | [] => ([], [])
  end.

(** The float nearest to [(-1)^neg * n * 10^e]. *)
Definition decimal (neg : bool) (n e : Z) : float :=
  if n =? 0 then S754_zero neg
  else if 0 <=? e then F64.of_ratio neg (n * 10 ^ e) 1
  else F64.of_ratio neg n (10 ^ (- e)).

(** [float(s)] on a [str]: optional sign, then [inf], [infinity], [nan] in
    any case, or digits with an optional point and an optional exponent;
    the result is correctly rounded and overflows to infinity.  CPython
    clamps a written exponent beyond 1100: left out. *)
Definition float_of_str (s : string) : result float :=
  let l := rev (lskip (rev (lskip (list_ascii_of_string s)))) in
  match ungroup None l with
  | None => Raise ValueError
  | Some l =>
      let '(neg, body) := split_sign l in
      let word := string_of_list_ascii (lower <$> body) in
      if String.eqb word "inf" || String.eqb word "infinity"
      then Ok (S754_infinity neg)
      else if String.eqb word "nan" then Ok S754_nan
      else
        let '(ip, r1) := span_digits body in
        let '(fp, r2) := match r1 with
                         | "."%char :: r => span_digits r
                         | _ => ([], r1)
                         end in
        match digits_value 0 (ip ++ fp), ip ++ fp with
        | Some n, _ :: _ =>
            match r2 with
            | [] => Ok (decimal neg n (- Z.of_nat (length fp)))
            | c :: r3 =>
                if Ascii.eqb (lower c) "e" then
                  let '(eneg, r4) := split_sign r3 in
                  match span_digits r4 with
                  | (d :: ds, []) =>
                      match digits_value 0 (d :: ds) with
                      | Some x =>
                          if 1100 <? x then Unmodelled
                          else Ok (decimal neg n
                                     ((if eneg then - x else x)
                                      - Z.of_nat (length fp)))
                      | None => Raise ValueError
                      end
                  | _ => Raise ValueError
                  end
                else Raise ValueError
            end
        | _, _ => Raise ValueError
        end
  end.

(** [float(v)]. *)
Definition float (v : pyval) : result float :=
  match v with
  | JFloat x => Ok x
  | JInt z => float_of_int z
  | JBool b => Ok (F64.of_Z (if b then 1 else 0))
  | JStr s => float_of_str s
  | _ => Raise TypeError
  end.

(** [str(v)]; the [repr] of a float or of a container is not modelled, nor
    is an int of more than 4300 digits, which recent interpreters refuse to
    print. *)
Definition str (v : pyval) : result string :=
  match v with
  | JStr s => Ok s
  | JInt z =>
      if 10 ^ 4300 <=? Z.abs z then Unmodelled
      else Ok (NilZero.string_of_int (Z.to_int z))
  | JNull => Ok "None"
  | JBool b => Ok (if b then "True" else "False")
  | _ => Unmodelled
  end.

(** A value the record keeps as text. *)
Definition text (v : pyval) : result string :=
  match v with
  | JStr s => Ok s
  | _ => Unmodelled
  end.

End Py.

(** ** Show records *)

(** The dict [parse_payload] appends for one show time.  The source keeps
    [movie], [venue], [address], [chain], [time] and [audi] as whatever JSON
    value the payload holds; upstream sends text, and the record keeps text
    (see [Py.text]).  [gross] is a float, or the int [0] for a show time
    without categories, which is kept as the float [0.0] it compares and
    adds equal to. *)
Record ParsedShow : Type := {
  movie : string;
  venue : string;
  address : string;
  language : string;
  dimension : string;
  chain : string;
  time : string;
  audi : string;
  session_id : string;
  totalSeats : Z;
  available : Z;
  sold : Z;
  gross : float
}.

(** A parsed show after the per-venue loop has attached the venue's city
    and state, the source tag and the date code. *)
Record ShowRecord : Type := {
  show :> ParsedShow;
  city : string;
  state : string;
  source : string;
  date : string
}.

(** ** The parser *)

Section Parser.
(** The module-level [DATE_CODE]: tomorrow's date in IST as [YYYYMMDD],
    fixed when the script starts. *)
Variable DATE_CODE : string.

(** The running [total], [sold], [avail] and [gross] of one show time. *)
Record seat_totals : Type := {
  st_total : Z;
  st_sold : Z;
  st_avail : Z;
  st_gross : float
}.

Definition no_seats : seat_totals :=
  {| st_total := 0; st_sold := 0; st_avail := 0; st_gross := F64.zero |}.

(** The three casts at the head of the body of the category loop. *)
Definition category_fields (cat : pyval) : result (Z * Z * float) :=
  seats ← Py.get cat "MaxSeats" (JInt 0) ≫= Py.int;
  free ← Py.get cat "SeatsAvail" (JInt 0) ≫= Py.int;
  price ← Py.get cat "CurPrice" (JInt 0) ≫= Py.float;
  Ok (seats, free, price).

(** The four [+=] of the body; [(seats - free) * price] converts the int
    operand to a float first. *)
Definition add_category (acc : seat_totals) (c : Z * Z * float) : result seat_totals :=
  let '(seats, free, price) := c in
  x ← float_of_int (seats - free);
  Ok {| st_total := st_total acc + seats;
        st_avail := st_avail acc + free;
        st_sold := st_sold acc + (seats - free);
        st_gross := F64.add (st_gross acc) (F64.mul x price) |}.

(** [for cat in sh.get("Categories", []): ...] *)
Fixpoint sum_categories (acc : seat_totals) (cats : list pyval) : result seat_totals :=
  match cats with
  | [] => Ok acc
  | cat :: rest =>
      c ← category_fields cat;
      acc' ← add_category acc c;
      sum_categories acc' rest
  end.

(** [v.get(k, "").strip() or "UNKNOWN"] *)
Definition stripped_or_unknown (v : pyval) (k : string) : result string :=
  x ← Py.get v k (JStr "");
  match x with
  | JStr s => let t := Py.strip s in
              Ok (if String.eqb t "" then "UNKNOWN" else t)
  | _ => Raise AttributeError
  end.

(** [sh.get("Attributes", "") or ""] *)
Definition attributes_or_empty (sh : pyval) : result string :=
  x ← Py.get sh "Attributes" (JStr "");
  if Py.truthy x then Py.text x else Ok "".

(** The body of [for sh in ch.get("ShowTimes", []):]: nothing for another
    date, one record otherwise. *)
Definition parse_show (title venue_name venue_add chain dim lang : string)
    (sh : pyval) : result (list ParsedShow) :=
  code ← Py.get sh "ShowDateCode" JNull;
  match code with
  | JStr c =>
      if String.eqb c DATE_CODE then
        cats ← Py.get sh "Categories" (JArr []) ≫= Py.iter;
        t ← sum_categories no_seats cats;
        tm ← Py.get sh "ShowTime" (JStr "") ≫= Py.text;
        au ← attributes_or_empty sh;
        sid ← Py.get sh "SessionId" (JStr "") ≫= Py.str;
        Ok [ {| movie := title; venue := venue_name; address := venue_add;
                language := lang; dimension := dim; chain := chain;
                time := tm; audi := au; session_id := sid;
                totalSeats := st_total t; available := st_avail t;
                sold := st_sold t; gross := F64.round2 (st_gross t) |} ]
      else Ok []
  | _ => Ok []
  end.

(** The body of [for ch in ev.get("ChildEvents", []):] *)
Definition parse_child (title venue_name venue_add chain : string)
    (ch : pyval) : result (list ParsedShow) :=
  dim ← stripped_or_unknown ch "EventDimension";
  lang ← stripped_or_unknown ch "EventLanguage";
  shows ← Py.get ch "ShowTimes" (JArr []) ≫= Py.iter;
  for_each (parse_show title venue_name venue_add chain dim lang) shows.

(** The body of [for ev in sd[0].get("Event", []):] *)
Definition parse_event (venue_name venue_add chain : string)
    (ev : pyval) : result (list ParsedShow) :=
  title ← Py.get ev "EventTitle" (JStr "Unknown") ≫= Py.text;
  children ← Py.get ev "ChildEvents" (JArr []) ≫= Py.iter;
  for_each (parse_child title venue_name venue_add chain) children.

(** [parse_payload(data)] *)
Definition parse_payload (data : pyval) : result (list ParsedShow) :=
  sd ← Py.get data "ShowDetails" (JArr []);
  if negb (Py.truthy sd) then Ok []
  else
    sd0 ← Py.first sd;
    venue ← Py.get sd0 "Venues" (JObj []);
    venue_name ← Py.get venue "VenueName" (JStr "") ≫= Py.text;
    venue_add ← Py.get venue "VenueAdd" (JStr "") ≫= Py.text;
    chain ← Py.get venue "VenueCompName" (JStr "Unknown") ≫= Py.text;
    events ← Py.get sd0 "Event" (JArr []) ≫= Py.iter;
    for_each (parse_event venue_name venue_add chain) events.

End Parser.

(** ** The per-venue loop body *)

Section Venue.
Variable DATE_CODE : string.

(** The four assignments of [for r in rows:] in the [try] block.  [meta]
    is [venues[vcode]]. *)
Definition tag_row (meta : pyval) (r : ParsedShow) : result ShowRecord :=
  c ← Py.get meta "City" (JStr "Unknown") ≫= Py.text;
  s ← Py.get meta "State" (JStr "Unknown") ≫= Py.text;
  Ok {| show := r; city := c; state := s; source := "BMS"; date := DATE_CODE |}.

(** The [try] block, given the outcome of [fetch_api_raw(vcode)]. *)
Definition venue_try (meta : pyval) (fetched : result pyval) : result (list ShowRecord) :=
  raw ← fetched;
  rows ← parse_payload DATE_CODE raw;
  mapM (tag_row meta) rows.

(** What the loop has built so far: [all_rows], and the venues whose
    attempt ended in the [except] branch with the class it logged. *)
Record run_state : Type := {
  all_rows : list ShowRecord;
  failures : list (string * exn)
}.

(** One iteration: [all_rows.extend(rows)], or the [except Exception]
    branch, which resets the identity and logs the venue as failed. *)
Definition venue_attempt (vcode : string) (meta : pyval)
    (fetched : result pyval) (st : run_state) : result run_state :=
  match venue_try meta fetched with
  | Ok rows => Ok {| all_rows := all_rows st ++ rows; failures := failures st |}
  | Raise e => Ok {| all_rows := all_rows st; failures := failures st ++ [(vcode, e)] |}
  | Unmodelled => Unmodelled
  end.
End Venue.

(** ** Dedupe *)

(** [[
key = (r["venue"], r["time"], r["session_id"], r["audi"])
]] *)
Definition dedupe_key (r : ShowRecord) : string * string * string * string :=
  (venue r, time r, session_id r, audi r).

(** The body of the loop of [dedupe] on the pair of [seen] and [out]. *)
Definition dedupe_step (st : gset (string * string * string * string) * list ShowRecord)
    (r : ShowRecord) : gset (string * string * string * string) * list ShowRecord :=
  let key := dedupe_key r in
  if decide (key ∈ st.1) then st
  else ({[ key ]} ∪ st.1, st.2 ++ [r]).

(** [dedupe(rows)] *)
Definition dedupe (rows : list ShowRecord) : list ShowRecord :=
  (foldl dedupe_step (∅, []) rows).2.

(** ** The summary *)

(** A sub-bucket of one movie ([details], [Language_details] or
    [Format_details]); its label fields repeat the key it is stored under. *)
Record Bucket : Type := {
  b_venues : gset string;
  b_shows : Z;
  b_gross : float;
  b_sold : Z;
  b_totalSeats : Z;
  b_fastfilling : Z;
  b_housefull : Z
}.

(** [summary[movie]] *)
Record MovieAcc : Type := {
  m_shows : Z;
  m_gross : float;
  m_sold : Z;
  m_totalSeats : Z;
  m_venues : gset string;
  m_cities : gset string;
  m_fastfilling : Z;
  m_housefull : Z;
  m_details : list (string * string * Bucket);
  m_Language_details : list (string * Bucket);
  m_Format_details : list (string * Bucket)
}.

Definition new_bucket : Bucket :=
  {| b_venues := ∅; b_shows := 0; b_gross := F64.zero; b_sold := 0;
     b_totalSeats := 0; b_fastfilling := 0; b_housefull := 0 |}.

Definition new_movie : MovieAcc :=
  {| m_shows := 0; m_gross := F64.zero; m_sold := 0; m_totalSeats := 0;
     m_venues := ∅; m_cities := ∅; m_fastfilling := 0; m_housefull := 0;
     m_details := []; m_Language_details := []; m_Format_details := [] |}.

(** [occ >= n] for a float [occ] and a small int [n], which compares as
    the float of the same value. *)
Definition at_least (occ : float) (n : Z) : bool := F64.leb (F64.of_Z n) occ.

(** [[
if occ >= 98: X["housefull"] += 1
elif occ >= 50: X["fastfilling"] += 1
]]
    on the pair of the two counters of [X]. *)
Definition tally (occ : float) (housefull fastfilling : Z) : Z * Z :=
  if at_least occ 98 then (housefull + 1, fastfilling)
  else if at_least occ 50 then (housefull, fastfilling + 1)
  else (housefull, fastfilling).

(** The update of one sub-bucket by one row (the three blocks CITY,
    LANGUAGE and FORMAT are this code on three dicts). *)
Definition bucket_add (r : ShowRecord) (occ : float) (b : Bucket) : Bucket :=
  let c := tally occ (b_housefull b) (b_fastfilling b) in
  {| b_venues := {[ venue r ]} ∪ b_venues b;
     b_shows := b_shows b + 1;
     b_gross := F64.add (b_gross b) (gross r);
     b_sold := b_sold b + sold r;
     b_totalSeats := b_totalSeats b + totalSeats r;
     b_fastfilling := c.2;
     b_housefull := c.1 |}.

(** The update of [m = summary[movie]] by one row. *)
Definition movie_add (r : ShowRecord) (occ : float) (m : MovieAcc) : MovieAcc :=
  let c := tally occ (m_housefull m) (m_fastfilling m) in
  {| m_shows := m_shows m + 1;
     m_gross := F64.add (m_gross m) (gross r);
     m_sold := m_sold m + sold r;
     m_totalSeats := m_totalSeats m + totalSeats r;
     m_venues := {[ venue r ]} ∪ m_venues m;
     m_cities := {[ city r ]} ∪ m_cities m;
     m_fastfilling := c.2;
     m_housefull := c.1;
     m_details :=
       dict_upsert (city r, state r) new_bucket (bucket_add r occ) (m_details m);
     m_Language_details :=
       dict_upsert (language r) new_bucket (bucket_add r occ) (m_Language_details m);
     m_Format_details :=
       dict_upsert (dimension r) new_bucket (bucket_add r occ) (m_Format_details m) |}.

(** The body of [for r in detailed:]. *)
Definition summary_step (summary : list (string * MovieAcc)) (r : ShowRecord)
    : result (list (string * MovieAcc)) :=
  occ ← calc_occupancy (sold r) (totalSeats r);
  Ok (dict_upsert (movie r) new_movie (movie_add r occ) summary).

(** The accumulation loop, from the dict [summary]. *)
Fixpoint accumulate (summary : list (string * MovieAcc)) (rows : list ShowRecord)
    : result (list (string * MovieAcc)) :=
  match rows with
  | [] => Ok summary
  | r :: rows' => s ← summary_step summary r; accumulate s rows'
  end.

(** An entry of [City_details], [Language_details] or [Format_details]. *)
Record FinalBucket (K : Type) : Type := {
  fb_label : K;
  fb_venues : Z;
  fb_shows : Z;
  fb_gross : float;
  fb_sold : Z;
  fb_totalSeats : Z;
  fb_fastfilling : Z;
  fb_housefull : Z;
  fb_occupancy : float
}.
Arguments fb_label {K} _.
Arguments fb_venues {K} _.
Arguments fb_shows {K} _.
Arguments fb_gross {K} _.
Arguments fb_sold {K} _.
Arguments fb_totalSeats {K} _.
Arguments fb_fastfilling {K} _.
Arguments fb_housefull {K} _.
Arguments fb_occupancy {K} _.

(** [final_summary[movie]] *)
Record FinalMovie : Type := {
  f_shows : Z;
  f_gross : float;
  f_sold : Z;
  f_totalSeats : Z;
  f_venues : Z;
  f_cities : Z;
  f_fastfilling : Z;
  f_housefull : Z;
  f_occupancy : float;
  City_details : list (FinalBucket (string * string));
  Language_details : list (FinalBucket string);
  Format_details : list (FinalBucket string)
}.

Definition final_bucket {K} (kb : K * Bucket) : result (FinalBucket K) :=
  let b := kb.2 in
  occ ← calc_occupancy (b_sold b) (b_totalSeats b);
  Ok {| fb_label := kb.1;
        fb_venues := Z.of_nat (size (b_venues b));
        fb_shows := b_shows b;
        fb_gross := F64.round2 (b_gross b);
        fb_sold := b_sold b;
        fb_totalSeats := b_totalSeats b;
        fb_fastfilling := b_fastfilling b;
        fb_housefull := b_housefull b;
        fb_occupancy := occ |}.

(** The body of [for movie, m in summary.items():]. *)
Definition final_movie (m : MovieAcc) : result FinalMovie :=
  occ ← calc_occupancy (m_sold m) (m_totalSeats m);
  cs ← mapM final_bucket (m_details m);
  ls ← mapM final_bucket (m_Language_details m);
  fs ← mapM final_bucket (m_Format_details m);
  Ok {| f_shows := m_shows m;
        f_gross := F64.round2 (m_gross m);
        f_sold := m_sold m;
        f_totalSeats := m_totalSeats m;
        f_venues := Z.of_nat (size (m_venues m));
        f_cities := Z.of_nat (size (m_cities m));
        f_fastfilling := m_fastfilling m;
        f_housefull := m_housefull m;
        f_occupancy := occ;
        City_details := cs;
        Language_details := ls;
        Format_details := fs |}.

Definition final_summary (summary : list (string * MovieAcc))
    : result (list (string * FinalMovie)) :=
  mapM (fun km => fm ← final_movie km.2; Ok (km.1, fm)) summary.

(** The summary of the [__main__] block, from the deduplicated rows to
    [final_summary]. *)
Definition aggregate (detailed : list ShowRecord) : result (list (string * FinalMovie)) :=
  accumulate [] detailed ≫= final_summary.

(** ** The [__main__] block *)

Section Main.
Variable DATE_CODE : string.

(** [for i, vcode in enumerate(venues, 1):] over the decoded venue file, a
    dict from venue code to its city and state; [fetch] gives the outcome of
    [fetch_api_raw] for each venue of this run. *)
Fixpoint venue_loop (venues : list (string * pyval)) (fetch : string -> result pyval)
    (st : run_state) : result run_state :=
  match venues with
  | [] => Ok st
  | (vcode, meta) :: rest =>
      st' ← venue_attempt DATE_CODE vcode meta (fetch vcode) st;
      venue_loop rest fetch st'
  end.

(** What the run writes: the detailed rows and the summary; and the
    venues it logged as failed. *)
Record run_output : Type := {
  out_detailed : list ShowRecord;
  out_summary : list (string * FinalMovie);
  out_failures : list (string * exn)
}.

Definition main_block (venues : list (string * pyval))
    (fetch : string -> result pyval) : result run_output :=
  st ← venue_loop venues fetch {| all_rows := []; failures := [] |};
  let detailed := dedupe (all_rows st) in
  fs ← aggregate detailed;
  Ok {| out_detailed := detailed; out_summary := fs;
        out_failures := failures st |}.

End Main.

(** * Notions used by the statements *)

(** The rows [dedupe] appends when it starts with [seen]. *)
Fixpoint first_seen (seen : gset (string * string * string * string))
    (rows : list ShowRecord) : list ShowRecord :=
  match rows with
  | [] => []
  | r :: rows' =>
      if decide (dedupe_key r ∈ seen) then first_seen seen rows'
      else r :: first_seen ({[ dedupe_key r ]} ∪ seen) rows'
  end.

(** Sum of an int field over a list. *)
Definition total {A} (f : A -> Z) (l : list A) : Z :=
  foldr (fun x acc => f x + acc) 0 l.

(** The three int sums of a movie are the sums of its city buckets, of its
    language buckets and of its format buckets. *)
Definition sums_match {K} (d : list (K * Bucket)) (m : MovieAcc) : Prop :=
  total (fun kb => b_shows kb.2) d = m_shows m /\
  total (fun kb => b_sold kb.2) d = m_sold m /\
  total (fun kb => b_totalSeats kb.2) d = m_totalSeats m.

Definition conserved (m : MovieAcc) : Prop :=
  sums_match (m_details m) m /\
  sums_match (m_Language_details m) m /\
  sums_match (m_Format_details m) m.

(** ** Sample data *)

Definition sample_row (title place at_ lang dim town region : string)
    (seats taken : Z) (takings : float) : ShowRecord :=
  {| show := {| movie := title; venue := place; address := "";
                language := lang; dimension := dim; chain := "Unknown";
                time := at_; audi := ""; session_id := "1";
                totalSeats := seats; available := seats - taken;
                sold := taken; gross := takings |};
     city := town; state := region; source := "BMS"; date := "20260101" |}.

Definition sample_first : ShowRecord :=
  sample_row "Alpha" "PVR" "10:00 AM" "Hindi" "2D" "Pune" "MH"
    100 98 (F64.of_Z 19600).

Definition sample_rows : list ShowRecord :=
  [ sample_first;
    sample_row "Alpha" "INOX" "01:00 PM" "Tamil" "3D" "Chennai" "TN"
      100 40 (F64.of_Z 8000);
    sample_row "Beta" "PVR" "04:00 PM" "Hindi" "2D" "Pune" "MH"
      50 30 (F64.of_Z 4500) ].

(** ** The rounding function seen on integers *)

(** The position of a shifted value: four times the mantissa plus the
    round and sticky bits. *)
Definition code (mrs : shr_record) : Z :=
  4 * shr_m mrs + (if shr_r mrs then 2 else 0) + (if shr_s mrs then 1 else 0).

Definition loc_code (l : location) : Z :=
  match l with
  | loc_Exact => 0
  | loc_Inexact Lt => 1
  | loc_Inexact Eq => 2
  | loc_Inexact Gt => 3
  end.

(** A rounded non-negative magnitude is a zero, a finite float or an
    infinity of the requested sign. *)
Definition signed (s : bool) (x : float) : Prop :=
  match x with
  | S754_nan => False
  | S754_zero s' | S754_infinity s' | S754_finite s' _ _ => s' = s
  end.

(** [below M E x]: [x] is a zero, or a positive finite float that
    compares at most [M * 2^E]; its mantissa fits the precision. *)
Definition below (M : positive) (E : Z) (x : float) : Prop :=
  match x with
  | S754_zero _ => True
  | S754_finite false m e =>
      (e < E \/ (e = E /\ Zpos m <= Zpos M)) /\ Zpos m < 2 ^ 53
  | _ => False
  end.

(** The floats [1.0] and [100.0]. *)
Definition mant_one : positive := 4503599627370496.
Definition mant_hundred : positive := 7036874417766400.

(** ** Occupancy range *)

(** The range the specification gives to the occupancy [occ] of a bucket
    with [sold] seats sold out of [seats]. *)
Definition occupancy_in_range (occ : float) : Prop :=
  F64.leb F64.zero occ = true /\ F64.leb occ (F64.of_Z 100) = true.

Definition occupancy_ok (taken seats : Z) (occ : float) : Prop :=
  (seats = 0 -> occ = F64.zero) /\
  (0 < seats -> 0 <= taken <= seats -> occupancy_in_range occ).

(** The occupancy [occ] an entry with [taken] seats sold out of [seats]
    carries: [0.0] on zero seats, and otherwise the quotient of the two
    ints as a float, times [100.0], rounded to two decimals. *)
Definition occupancy_of (taken seats : Z) (occ : float) : Prop :=
  (seats = 0 -> occ = F64.zero) /\
  (seats <> 0 ->
   exists q, int_truediv taken seats = Ok q /\
             occ = F64.round2 (F64.mul q (F64.of_Z 100))).

(** The formula as the specification words it, [round(100 * sold /
    totalSeats, 2)] and [0.0] on zero seats: the product is taken on the
    ints and the one division is rounded once.  It is compared below with
    [calc_occupancy], which divides first. *)
Definition occupancy_as_specified (sold total : Z) : result float :=
  if total =? 0 then Ok F64.zero
  else q ← int_truediv (100 * sold) total; Ok (F64.round2 q).

(** ** Sample payloads *)

(** One venue, one movie, one child event, one show time on the date
    [20260101] with the given categories. *)
Definition sample_show_time (categories : list pyval) : pyval :=
  JObj [("ShowDateCode", JStr "20260101");
        ("ShowTime", JStr "10:00 AM");
        ("SessionId", JInt 4711);
        ("Categories", JArr categories)].

(** The child event and the payload of one venue and one movie with the
    given show times. *)
Definition child_of_shows (shows : list pyval) : pyval :=
  JObj [("EventDimension", JStr "2D");
        ("EventLanguage", JStr "Hindi");
        ("ShowTimes", JArr shows)].

Definition payload_of_shows (shows : list pyval) : pyval :=
  JObj [("ShowDetails", JArr [
    JObj [("Venues", JObj [("VenueName", JStr "PVR Phoenix");
                           ("VenueAdd", JStr "Viman Nagar");
                           ("VenueCompName", JStr "PVR")]);
          ("Event", JArr [
            JObj [("EventTitle", JStr "Alpha");
                  ("ChildEvents", JArr [child_of_shows shows])]])]])].

Definition sample_child (categories : list pyval) : pyval :=
  child_of_shows [sample_show_time categories].

Definition one_show_payload (categories : list pyval) : pyval :=
  payload_of_shows [sample_show_time categories].

Definition category (seats free price : Z) : pyval :=
  JObj [("MaxSeats", JInt seats); ("SeatsAvail", JInt free); ("CurPrice", JInt price)].

Definition pune : pyval := JObj [("City", JStr "Pune"); ("State", JStr "MH")].

(** A run over the single venue [PVPH] whose fetch returns [payload]. *)
Definition one_venue_run (payload : pyval) : result run_output :=
  main_block "20260101" [("PVPH", pune)] (fun _ => Ok payload).

(** ** Classification *)

(** A counter that went from [before] to [after] was incremented, by one,
    exactly when [c] holds. *)
Definition counted (c : bool) (before after : Z) : Prop :=
  after = if c then before + 1 else before.

(** The bucket stored under [k], or the fresh one the loop would create. *)
Definition bucket_at {K} `{EqDecision K} (k : K) (d : list (K * Bucket)) : Bucket :=
  default new_bucket (dict_get k d).

Definition movie_at (title : string) (summary : list (string * MovieAcc)) : MovieAcc :=
  default new_movie (dict_get title summary).

(** The summary after the loop has processed [sample_first] alone. *)
Definition sample_first_step : list (string * MovieAcc) :=
  match summary_step [] sample_first with
  | Ok s => s
  | _ => []
  end.

(** Two elements of [ShowDetails]: the block of a venue with one show,
    and a second block with another show. *)
Definition first_block : pyval :=
  JObj [("Venues", JObj [("VenueName", JStr "PVR Phoenix")]);
        ("Event", JArr [
          JObj [("EventTitle", JStr "Alpha");
                ("ChildEvents", JArr [
                  JObj [("ShowTimes", JArr [
                          JObj [("ShowDateCode", JStr "20260101");
                                ("ShowTime", JStr "10:00 AM");
                                ("Categories", JArr [category 100 2 200])]])]])]])].

Definition second_block : pyval :=
  JObj [("Venues", JObj [("VenueName", JStr "INOX")]);
        ("Event", JArr [
          JObj [("EventTitle", JStr "Beta");
                ("ChildEvents", JArr [
                  JObj [("ShowTimes", JArr [
                          JObj [("ShowDateCode", JStr "20260101");
                                ("ShowTime", JStr "09:00 PM");
                                ("Categories", JArr [category 50 10 150])]])]])]])].

(** ** Where a row comes from *)

(** [sh] is a show-time entry of the child event [ch] of an event of the
    first element of [ShowDetails] of [data]. *)
Definition show_of (data ch sh : pyval) : Prop :=
  exists sd sd0 evs ev chs shs,
    Py.get data "ShowDetails" (JArr []) = Ok sd /\
    Py.first sd = Ok sd0 /\
    Py.get sd0 "Event" (JArr []) ≫= Py.iter = Ok evs /\ ev ∈ evs /\
    Py.get ev "ChildEvents" (JArr []) ≫= Py.iter = Ok chs /\ ch ∈ chs /\
    Py.get ch "ShowTimes" (JArr []) ≫= Py.iter = Ok shs /\ sh ∈ shs.

(** [sh] passes the date filter. *)
Definition on_date (DATE_CODE : string) (sh : pyval) : Prop :=
  Py.get sh "ShowDateCode" JNull = Ok (JStr DATE_CODE).

(** The float sum [gross] of the category loop, from [g]. *)
Fixpoint gross_sum (g : float) (fields : list (Z * Z * float)) : result float :=
  match fields with
  | [] => Ok g
  | (seats, free, price) :: rest =>
      x ← float_of_int (seats - free);
      gross_sum (F64.add g (F64.mul x price)) rest
  end.

(** [r] carries the sums of the categories of [sh]. *)
Definition sums_of (sh : pyval) (r : ParsedShow) : Prop :=
  exists cats fields g,
    Py.get sh "Categories" (JArr []) ≫= Py.iter = Ok cats /\
    Forall2 (fun c f => category_fields c = Ok f) cats fields /\
    totalSeats r = total (fun f => f.1.1) fields /\
    available r = total (fun f => f.1.2) fields /\
    sold r = total (fun f => f.1.1 - f.1.2) fields /\
    gross_sum F64.zero fields = Ok g /\
    gross r = F64.round2 g.

(** The text [t] stored for a field that is missing ([o = None]) or holds
    the string [s]: ["UNKNOWN"] when missing or blank, [s] trimmed
    otherwise. *)
Definition unknown_if_blank (o : option pyval) (t : string) : Prop :=
  (o = None /\ t = "UNKNOWN") \/
  (exists s, o = Some (JStr s) /\
             t = if String.eqb (Py.strip s) "" then "UNKNOWN" else Py.strip s).

(** The text [t] stored for [Attributes]: [""] when the field is missing or
    holds a false value ([null], [""], [0], ...), the string as it is
    otherwise. *)
Definition empty_if_missing (o : option pyval) (t : string) : Prop :=
  (o = None /\ t = "") \/
  (exists v, o = Some v /\ Py.truthy v = false /\ t = "") \/
  (exists s, o = Some (JStr s) /\ s <> "" /\ t = s).

(** ** Payloads whose present fields have the expected types *)


















(** ** Summaries up to the float totals *)

(** Two dicts with distinct keys whose values under every key are related
    by [R] (or missing on both sides). *)
Definition dict_rel {K V} `{EqDecision K} (R : V -> V -> Prop)
    (d d' : list (K * V)) : Prop :=
  NoDup (dict_keys d) /\ NoDup (dict_keys d') /\
  forall k, option_Forall2 R (dict_get k d) (dict_get k d').

(** Equality of two buckets on every field but [gross]. *)
Definition bucket_counts_eq (b b' : Bucket) : Prop :=
  b_venues b = b_venues b' /\ b_shows b = b_shows b' /\
  b_sold b = b_sold b' /\ b_totalSeats b = b_totalSeats b' /\
  b_fastfilling b = b_fastfilling b' /\ b_housefull b = b_housefull b'.

Definition movie_counts_eq (m m' : MovieAcc) : Prop :=
  m_shows m = m_shows m' /\ m_sold m = m_sold m' /\
  m_totalSeats m = m_totalSeats m' /\
  m_venues m = m_venues m' /\ m_cities m = m_cities m' /\
  m_fastfilling m = m_fastfilling m' /\ m_housefull m = m_housefull m' /\
  dict_rel bucket_counts_eq (m_details m) (m_details m') /\
  dict_rel bucket_counts_eq (m_Language_details m) (m_Language_details m') /\
  dict_rel bucket_counts_eq (m_Format_details m) (m_Format_details m').

(** An entry of the final summary with its [gross] blanked. *)
Definition without_gross {K} (fb : FinalBucket K) : FinalBucket K :=
  {| fb_label := fb_label fb; fb_venues := fb_venues fb;
     fb_shows := fb_shows fb; fb_gross := F64.zero;
     fb_sold := fb_sold fb; fb_totalSeats := fb_totalSeats fb;
     fb_fastfilling := fb_fastfilling fb; fb_housefull := fb_housefull fb;
     fb_occupancy := fb_occupancy fb |}.

(** Two final movies that agree on every field but the [gross] totals,
    the three arrays being compared as sets of entries. *)
Definition same_but_gross (a b : FinalMovie) : Prop :=
  f_shows a = f_shows b /\ f_sold a = f_sold b /\
  f_totalSeats a = f_totalSeats b /\
  f_venues a = f_venues b /\ f_cities a = f_cities b /\
  f_fastfilling a = f_fastfilling b /\ f_housefull a = f_housefull b /\
  f_occupancy a = f_occupancy b /\
  without_gross <$> City_details a ≡ₚ without_gross <$> City_details b /\
  without_gross <$> Language_details a ≡ₚ without_gross <$> Language_details b /\
  without_gross <$> Format_details a ≡ₚ without_gross <$> Format_details b.

(** The occupancy of a row whose [calc_occupancy] returns. *)
Definition occ_of (r : ShowRecord) : float :=
  match calc_occupancy (sold r) (totalSeats r) with
  | Ok occ => occ
  | _ => F64.zero
  end.

(** The body of the accumulation loop on such a row. *)
Definition step_pure (summary : list (string * MovieAcc)) (r : ShowRecord)
    : list (string * MovieAcc) :=
  dict_upsert (movie r) new_movie (movie_add r (occ_of r)) summary.

(** A show time at [at_] with one seat, sold at [price], and the row the
    run makes of it. *)
Definition priced_show (at_ : string) (price : Z) : pyval :=
  JObj [("ShowDateCode", JStr "20260101");
        ("ShowTime", JStr at_);
        ("Categories", JArr [category 1 0 price])].

Definition priced_row (at_ : string) (price : Z) : ShowRecord :=
  {| show := {| movie := "Alpha"; venue := "PVR Phoenix";
                address := "Viman Nagar"; language := "Hindi";
                dimension := "2D"; chain := "PVR"; time := at_; audi := "";
                session_id := ""; totalSeats := 1; available := 0; sold := 1;
                gross := F64.of_Z price |};
     city := "Pune"; state := "MH"; source := "BMS"; date := "20260101" |}.

(** Three shows of one movie whose takings are [1e16], [1.0] and [1.0],
    in two orders. *)
Definition big_first : list ShowRecord :=
  [ priced_row "10:00 AM" (10 ^ 16); priced_row "01:00 PM" 1;
    priced_row "04:00 PM" 1 ].

Definition big_last : list ShowRecord :=
  [ priced_row "01:00 PM" 1; priced_row "04:00 PM" 1;
    priced_row "10:00 AM" (10 ^ 16) ].
(** * Notions used by the further properties *)

(** The distinct elements of a list in the order of their first
    occurrence: the order in which a loop that fills a dict meets its
    keys. *)
Fixpoint first_occurrences {A} `{EqDecision A} (l : list A) : list A :=
  match l with
  | [] => []
  | x :: l' => x :: filter (fun y => y <> x) (first_occurrences l')
  end.

(** The loop
[[
for x in xs:
    if key(x) not in d: d[key(x)] = fresh
    d[key(x)] = f(x, d[key(x)])
]]
    which the summary runs on [summary] and on the three dicts of a
    movie. *)
Definition upsert_all {K V X} `{EqDecision K} (key : X -> K) (fresh : V)
    (f : X -> V -> V) (d : list (K * V)) (xs : list X) : list (K * V) :=
  foldl (fun d x => dict_upsert (key x) fresh (f x) d) d xs.

(** How many elements satisfy [p]. *)
Definition count {A} (p : A -> bool) (l : list A) : Z :=
  total (fun x => if p x then 1 else 0) l.

(** How many distinct strings a list holds. *)
Definition distinct (l : list string) : Z :=
  Z.of_nat (size (list_to_set l : gset string)).

(** The sum [0.0 + x1 + ... + xn] as the loop computes it, left to right. *)
Definition float_sum (l : list float) : float := foldl F64.add F64.zero l.

(** The class of a row by the occupancy the loop computes for it. *)
Definition housefull_row (r : ShowRecord) : bool := at_least (occ_of r) 98.

Definition fastfilling_row (r : ShowRecord) : bool :=
  negb (at_least (occ_of r) 98) && at_least (occ_of r) 50.

(** The roll-up of the rows [sel]: what a movie or one of its entries
    holds when [sel] are the rows counted in it. *)
Record rollup : Type := {
  r_shows : Z;
  r_gross : float;
  r_sold : Z;
  r_totalSeats : Z;
  r_venues : Z;
  r_fastfilling : Z;
  r_housefull : Z
}.

Definition rollup_of (sel : list ShowRecord) : rollup :=
  {| r_shows := Z.of_nat (length sel);
     r_gross := F64.round2 (float_sum ((fun r : ShowRecord => gross r) <$> sel));
     r_sold := total (fun r : ShowRecord => sold r) sel;
     r_totalSeats := total (fun r : ShowRecord => totalSeats r) sel;
     r_venues := distinct ((fun r : ShowRecord => venue r) <$> sel);
     r_fastfilling := count fastfilling_row sel;
     r_housefull := count housefull_row sel |}.

Definition movie_rollup (fm : FinalMovie) : rollup :=
  {| r_shows := f_shows fm; r_gross := f_gross fm; r_sold := f_sold fm;
     r_totalSeats := f_totalSeats fm; r_venues := f_venues fm;
     r_fastfilling := f_fastfilling fm; r_housefull := f_housefull fm |}.

Definition bucket_rollup {K} (fb : FinalBucket K) : rollup :=
  {| r_shows := fb_shows fb; r_gross := fb_gross fb; r_sold := fb_sold fb;
     r_totalSeats := fb_totalSeats fb; r_venues := fb_venues fb;
     r_fastfilling := fb_fastfilling fb; r_housefull := fb_housefull fb |}.

(** The rows of a movie, and those of one of its entries. *)
Definition rows_of_movie (title : string) (rows : list ShowRecord) : list ShowRecord :=
  filter (fun r : ShowRecord => movie r = title) rows.

Definition city_key (r : ShowRecord) : string * string := (city r, state r).
Definition language_key (r : ShowRecord) : string := language r.
Definition format_key (r : ShowRecord) : string := dimension r.

Definition rows_at {K} `{EqDecision K} (key : ShowRecord -> K) (k : K)
    (rows : list ShowRecord) : list ShowRecord :=
  filter (fun r => key r = k) rows.

(** The update of a movie and of a bucket by a row, with the occupancy of
    the row. *)
Definition movie_row (r : ShowRecord) (m : MovieAcc) : MovieAcc :=
  movie_add r (occ_of r) m.

Definition bucket_row (r : ShowRecord) (b : Bucket) : Bucket :=
  bucket_add r (occ_of r) b.

(** What the counters of an entry that counts at least one row satisfy. *)
Definition counters_ok (x : rollup) : Prop :=
  1 <= r_shows x /\
  0 <= r_fastfilling x /\ 0 <= r_housefull x /\
  r_fastfilling x + r_housefull x <= r_shows x /\
  1 <= r_venues x <= r_shows x.

(** ** Where the text of a row comes from *)

(** [sh] is a show time of the child event [ch] of the event [ev] of the
    block [sd0], the first element of [ShowDetails] of [data]. *)
Definition row_source (data sd0 ev ch sh : pyval) : Prop :=
  exists sd evs chs shs,
    Py.get data "ShowDetails" (JArr []) = Ok sd /\ Py.first sd = Ok sd0 /\
    Py.get sd0 "Event" (JArr []) ≫= Py.iter = Ok evs /\ ev ∈ evs /\
    Py.get ev "ChildEvents" (JArr []) ≫= Py.iter = Ok chs /\ ch ∈ chs /\
    Py.get ch "ShowTimes" (JArr []) ≫= Py.iter = Ok shs /\ sh ∈ shs.

(** The field [k] of [v] holds the text [s], or is missing and [s] is the
    default [d]. *)
Definition text_field (v : pyval) (k d s : string) : Prop :=
  Py.get v k (JStr d) = Ok (JStr s).

(** The date filter as a test on a show-time object. *)
Definition dated (DATE_CODE : string) (sh : pyval) : bool :=
  match sh with
  | JObj kv =>
      match dict_get "ShowDateCode" kv with
      | Some (JStr c) => String.eqb c DATE_CODE
      | _ => false
      end
  | _ => false
  end.

Definition is_obj (v : pyval) : Prop := exists kv, v = JObj kv.

(** The exception [parse_payload] ends in when [ShowDetails] holds the
    true value [v] that is not a list. *)
Definition show_details_error (v : pyval) : exn :=
  match v with
  | JObj _ => KeyError
  | JStr _ => AttributeError
  | _ => TypeError
  end.

(** ** The run, venue by venue *)

Section Run.
Variable DATE_CODE : string.
Variable fetch : string -> result pyval.

(** The rows the attempt on one venue of the venue file adds to
    [all_rows], and the failure it logs. *)
Definition venue_rows (vm : string * pyval) : list ShowRecord :=
  match venue_try DATE_CODE vm.2 (fetch vm.1) with
  | Ok rows => rows
  | _ => []
  end.

Definition venue_failure (vm : string * pyval) : option (string * exn) :=
  match venue_try DATE_CODE vm.2 (fetch vm.1) with
  | Raise e => Some (vm.1, e)
  | _ => None
  end.
End Run.

(** ** The response check of [fetch_api_raw] *)

(** [s.startswith(prefix)] *)
Definition startswith (s prefix : string) : bool := String.prefix prefix s.

(** [[
r = ident.scraper.get(url, headers=ident.headers(), timeout=API_TIMEOUT)
if not r.text.strip().startswith("{"):
    raise RuntimeError("Blocked / HTML")
return r.json()
]]
    as a function of the body [text] of the response and of the outcome
    [decoded] of [r.json()]. *)
Definition fetch_api_raw_check (text : string) (decoded : result pyval) : result pyval :=
  if negb (startswith (Py.strip text) "{") then Raise RuntimeError else decoded.

(** The first character of [s] that is not whitespace. *)
Definition first_visible (s : string) : option ascii :=
  head (Py.lstrip (list_ascii_of_string s)).

(** [s] has no whitespace at either end. *)
Definition trimmed (s : string) : Prop := Py.strip s = s.

(** ** Numbers sent as text *)

(** The characters of the decimal numeral [d]. *)
Definition numeral (d : Decimal.uint) : list ascii :=
  list_ascii_of_string (NilEmpty.string_of_uint d).

(** ** The show times of a payload, in document order *)

(** The elements of the list that [v] holds under [k]. *)
Definition items (v : pyval) (k : string) : list pyval :=
  match Py.get v k (JArr []) ≫= Py.iter with
  | Ok l => l
  | _ => []
  end.

(** The show times on the date, event by event and child event by child
    event of the first element of [ShowDetails]. *)
Definition dated_shows (DATE_CODE : string) (data : pyval) : list pyval :=
  match Py.get data "ShowDetails" (JArr []) ≫= Py.first with
  | Ok sd0 =>
      flat_map (fun ev =>
        flat_map (fun ch =>
          filter (fun sh => dated DATE_CODE sh = true) (items ch "ShowTimes"))
          (items ev "ChildEvents"))
        (items sd0 "Event")
  | _ => []
  end.

(** [r] is the row of the show time [sh]. *)
Definition row_of_show (sh : pyval) (r : ParsedShow) : Prop :=
  sums_of sh r /\
  text_field sh "ShowTime" "" (time r) /\
  Py.get sh "SessionId" (JStr "") ≫= Py.str = Ok (session_id r) /\
  attributes_or_empty sh = Ok (audi r).

(** ** More sample data *)

(** Two venues of the venue file; the fetch of the first returns the
    sample payload, the fetch of the second times out. *)
Definition two_venues : list (string * pyval) :=
  [("PVPH", pune); ("INOX", JObj [("City", JStr "Chennai")])].

Definition sample_fetch (vcode : string) : result pyval :=
  if String.eqb vcode "PVPH" then Ok (one_show_payload [category 100 2 200])
  else Raise TimeoutError.

(** A child event with a show time on the date and one on the next day,
    whose categories are not even a list. *)
Definition next_day_show : pyval :=
  JObj [("ShowDateCode", JStr "20260102"); ("Categories", JNull)].

Definition two_dates_child : list (string * pyval) :=
  [("EventDimension", JStr "2D");
   ("ShowTimes", JArr [sample_show_time [category 100 2 200]; next_day_show])].

(** ** [dedupe] on the store

    Python hands [rows] and its records to [dedupe] by reference.  The
    store below holds the records and the lists of records as objects at
    the addresses [0], [1], ...; [dedupe_call] is the function of the source
    on it, with the allocation of [out] and every [out.append(r)] written
    out.  The set [seen] holds tuples of strings, which are immutable, and
    does not outlive the call: it is kept outside the store. *)
Inductive object : Type :=
  | RowObj (r : ShowRecord)
  | ListObj (items : list nat).

Abbreviation store := (list object).

(** [(r["venue"], r["time"], r["session_id"], r["audi"])] for the object
    at [p]; a list is not indexed by a string. *)
Definition key_at (h : store) (p : nat) : result (string * string * string * string) :=
  match h !! p with
  | Some (RowObj r) => Ok (venue r, time r, session_id r, audi r)
  | Some (ListObj _) => Raise TypeError
  | None => Unmodelled
  end.

(** [out.append(r)] for the reference [p]. *)
Definition append_at (h : store) (out p : nat) : result store :=
  match h !! out with
  | Some (ListObj items) => Ok (<[out := ListObj (items ++ [p])]> h)
  | _ => Unmodelled
  end.

(** The body of the loop of [dedupe], on [seen] and the store. *)
Definition dedupe_body (out : nat)
    (st : gset (string * string * string * string) * store) (p : nat)
    : result (gset (string * string * string * string) * store) :=
  key ← key_at st.2 p;
  if decide (key ∈ st.1) then Ok st
  else h ← append_at st.2 out p; Ok ({[ key ]} ∪ st.1, h).

(** A [for] loop that updates a state and can raise. *)
Fixpoint loop {S X} (body : S -> X -> result S) (s : S) (xs : list X) : result S :=
  match xs with
  | [] => Ok s
  | x :: xs' => s' ← body s x; loop body s' xs'
  end.

(** [dedupe(rows)] for the list at address [rows_at]: [out = []] takes the
    first free address; the call returns the store it leaves and the
    address of [out].  Iterating over a record yields its keys, which are
    strings and cannot be indexed by ["venue"]. *)
Definition dedupe_call (h : store) (rows_at : nat) : result (store * nat) :=
  match h !! rows_at with
  | Some (ListObj ps) =>
      let out := length h in
      st ← loop (dedupe_body out) (∅, h ++ [ListObj []]) ps;
      Ok (st.2, out)
  | Some (RowObj _) => Raise TypeError
  | None => Unmodelled
  end.

(** A store with the list [rows] at address [0] and three records: the
    list names the record at [1] twice, and the record at [3] has the key
    of the one at [1] and other seat counts. *)
Definition sample_store : store :=
  [ ListObj [1; 2; 1; 3]%nat;
    RowObj sample_first;
    RowObj (sample_row "Alpha" "INOX" "01:00 PM" "Tamil" "3D" "Chennai" "TN"
              100 40 (F64.of_Z 8000));
    RowObj (sample_row "Alpha" "PVR" "10:00 AM" "Hindi" "2D" "Pune" "MH"
              100 7 (F64.of_Z 1400)) ].


(** * Properties *)

(** ** Facts on the error monad and on dicts *)

Lemma bind_Ok {A B} (r : result A) (f : A -> result B) (b : B) :
  r ≫= f = Ok b -> exists a, r = Ok a /\ f a = Ok b.
Proof. destruct r as [a| |]; simpl; [eauto | done | done]. Qed.

Lemma mapM_Ok {A B} (f : A -> result B) (l : list A) (ys : list B) :
  mapM f l = Ok ys -> Forall2 (fun x y => f x = Ok y) l ys.
Proof.
  revert ys. induction l as [|x l IH]; intros ys; simpl.
  - intros [= <-]. constructor.
  - intros (y & Hy & (k & Hk & [= <-])%bind_Ok)%bind_Ok.
    constructor; [done | by apply IH].
Qed.

Lemma Forall2_right {A B} (P : A -> B -> Prop) (Q : B -> Prop) l k :
  (forall x y, P x y -> Q y) -> Forall2 P l k -> Forall Q k.
Proof. intros HPQ. induction 1; constructor; eauto. Qed.

Lemma mapM_is_Ok {A B} (f : A -> result B) (l : list A) :
  Forall (fun x => is_Ok (f x)) l -> is_Ok (mapM f l).
Proof.
  induction 1 as [|x l [y Hy] _ [ys Hys]]; simpl.
  - by eexists.
  - rewrite Hy; simpl. rewrite Hys; simpl. by eexists.
Qed.


Lemma for_each_elem {A B} (f : A -> result (list B)) xs ys y :
  for_each f xs = Ok ys -> y ∈ ys ->
  exists x zs, x ∈ xs /\ f x = Ok zs /\ y ∈ zs.
Proof.
  revert ys. induction xs as [|x xs IH]; intros ys; simpl.
  - intros [= <-] ?%elem_of_nil. done.
  - intros (zs & Hzs & (ws & Hws & [= <-])%bind_Ok)%bind_Ok.
    intros [Hy|Hy]%elem_of_app.
    + exists x, zs. split; [apply elem_of_cons; by left | done].
    + destruct (IH _ Hws Hy) as (x' & zs' & ? & ? & ?).
      exists x', zs'. split; [apply elem_of_cons; by right | done].
Qed.

Lemma for_each_complete {A B} (f : A -> result (list B)) xs ys x :
  for_each f xs = Ok ys -> x ∈ xs ->
  exists zs, f x = Ok zs /\ forall z, z ∈ zs -> z ∈ ys.
Proof.
  revert ys. induction xs as [|x0 xs IH]; intros ys; simpl.
  - intros _ ?%elem_of_nil. done.
  - intros (zs & Hzs & (ws & Hws & [= <-])%bind_Ok)%bind_Ok.
    intros [->|Hx]%elem_of_cons.
    + exists zs. split; [done|]. intros z Hz. apply elem_of_app; by left.
    + destruct (IH _ Hws Hx) as (zs' & ? & Hsub).
      exists zs'. split; [done|]. intros z Hz. apply elem_of_app; right; auto.
Qed.


Lemma total_Forall2 {A B} (f : A -> Z) (g : B -> Z) (P : A -> B -> Prop) l k :
  (forall x y, P x y -> f x = g y) -> Forall2 P l k -> total f l = total g k.
Proof. intros HP. induction 1; simpl; [done|]. rewrite (HP x y); [lia|done]. Qed.

Section DictFacts.
Context {K V : Type} `{EqDecision K}.
Implicit Types (k : K) (v : V) (d : list (K * V)).

Lemma dict_get_set k k' v d :
  dict_get k' (dict_set k v d) = if decide (k' = k) then Some v else dict_get k' d.
Proof.
  induction d as [|[k0 v0] d IH]; simpl.
  - by destruct (decide (k' = k)).
  - destruct (decide (k = k0)) as [->|Hne]; simpl.
    + by destruct (decide (k' = k0)).
    + destruct (decide (k' = k0)) as [->|]; [|done].
      by destruct (decide (k0 = k)) as [->|].
Qed.

Lemma dict_get_upsert k k' fresh (f : V -> V) d :
  dict_get k' (dict_upsert k fresh f d) =
  if decide (k' = k) then Some (f (default fresh (dict_get k d)))
  else dict_get k' d.
Proof. apply dict_get_set. Qed.

Lemma dict_get_elem_of k v d : dict_get k d = Some v -> (k, v) ∈ d.
Proof.
  induction d as [|[k0 v0] d IH]; simpl; [done|].
  destruct (decide (k = k0)) as [->|].
  - intros [= ->]. apply elem_of_cons; by left.
  - intros. apply elem_of_cons; right; auto.
Qed.

(** What [d[k] = v] does to a sum over the values. *)
Lemma total_dict_set (f : V -> Z) k v d :
  total (fun kv => f kv.2) (dict_set k v d) =
  total (fun kv => f kv.2) d + f v
  - match dict_get k d with Some v0 => f v0 | None => 0 end.
Proof.
  induction d as [|[k0 v0] d IH]; simpl; [lia|].
  destruct (decide (k = k0)) as [->|]; simpl; [lia|]. rewrite IH. lia.
Qed.

Lemma total_dict_upsert (f : V -> Z) k fresh (g : V -> V) d :
  f fresh = 0 ->
  total (fun kv => f kv.2) (dict_upsert k fresh g d) =
  total (fun kv => f kv.2) d
  + (f (g (default fresh (dict_get k d))) - f (default fresh (dict_get k d))).
Proof.
  intros H0. unfold dict_upsert. rewrite total_dict_set.
  destruct (dict_get k d); simpl; lia.
Qed.

Lemma Forall_dict_set (P : K * V -> Prop) k v d :
  P (k, v) -> Forall P d -> Forall P (dict_set k v d).
Proof.
  intros Hv. induction 1 as [|[k0 v0] d H0 Hd IH]; simpl.
  - by repeat constructor.
  - destruct (decide (k = k0)); constructor; auto.
Qed.

Lemma Forall_dict_get (P : K * V -> Prop) k v d :
  Forall P d -> dict_get k d = Some v -> P (k, v).
Proof.
  intros Hd Hk. apply dict_get_elem_of in Hk.
  rewrite Forall_forall in Hd. by apply Hd.
Qed.

End DictFacts.

(** ** Binary64 rounding *)

Section Rounding.

Lemma code_of_loc m l : code (shr_record_of_loc m l) = 4 * m + loc_code l.
Proof. destruct l as [|[]]; unfold code; simpl; lia. Qed.

Lemma shr_m_of_loc m l : shr_m (shr_record_of_loc m l) = m.
Proof. by destruct l as [|[]]. Qed.

Lemma shr_1_m mrs : 0 <= shr_m mrs -> shr_m (shr_1 mrs) = shr_m mrs / 2.
Proof.
  destruct mrs as [m r s]; simpl. intros Hm.
  destruct m as [|[p|p|]|p]; cbn [shr_m]; try lia; try done.
  - apply Z.div_unique with 1; lia.
  - apply Z.div_unique with 0; lia.
Qed.

Lemma shr_1_code mrs K :
  0 <= shr_m mrs -> code mrs <= 8 * K -> code (shr_1 mrs) <= 4 * K.
Proof.
  destruct mrs as [m r s]; unfold code; simpl. intros Hm.
  destruct m as [|[p|p|]|p]; destruct r, s; simpl; lia.
Qed.

Lemma pow2_xO p : 2 ^ Zpos p~0 = 2 ^ Zpos p * 2 ^ Zpos p.
Proof.
  replace (Zpos p~0) with (Zpos p + Zpos p) by lia. by rewrite Z.pow_add_r by lia.
Qed.

Lemma pow2_xI p : 2 ^ Zpos p~1 = 2 * (2 ^ Zpos p * 2 ^ Zpos p).
Proof.
  replace (Zpos p~1) with (1 + (Zpos p + Zpos p)) by lia.
  by rewrite !Z.pow_add_r, Z.pow_1_r by lia.
Qed.

Lemma pow2_pos n : 0 < 2 ^ n \/ (n < 0 /\ 2 ^ n = 0).
Proof.
  destruct (Z.le_gt_cases 0 n); [left; by apply Z.pow_pos_nonneg|].
  right. split; [done|]. by apply Z.pow_neg_r.
Qed.

Lemma iter_shr_1_m p mrs :
  0 <= shr_m mrs ->
  shr_m (SpecFloat.iter_pos shr_1 p mrs) = shr_m mrs / 2 ^ Zpos p.
Proof.
  revert mrs. induction p as [p IH|p IH|]; intros mrs Hm; cbn [SpecFloat.iter_pos].
  - assert (H1 : 0 <= shr_m (shr_1 mrs)) by (rewrite shr_1_m by done; apply Z.div_pos; lia).
    assert (H2 : 0 <= shr_m (SpecFloat.iter_pos shr_1 p (shr_1 mrs)))
      by (rewrite IH by done; apply Z.div_pos; lia).
    rewrite IH, IH, shr_1_m by done.
    rewrite !Z.div_div by lia. by rewrite pow2_xI.
  - assert (H2 : 0 <= shr_m (SpecFloat.iter_pos shr_1 p mrs))
      by (rewrite IH by done; apply Z.div_pos; lia).
    rewrite IH, IH by done. rewrite Z.div_div by lia. by rewrite pow2_xO.
  - by rewrite shr_1_m.
Qed.

Lemma iter_shr_1_code p mrs K :
  0 <= shr_m mrs -> code mrs <= 4 * (K * 2 ^ Zpos p) ->
  code (SpecFloat.iter_pos shr_1 p mrs) <= 4 * K.
Proof.
  revert mrs K. induction p as [p IH|p IH|]; intros mrs K Hm Hc;
    cbn [SpecFloat.iter_pos].
  - assert (H1 : 0 <= shr_m (shr_1 mrs)) by (rewrite shr_1_m by done; apply Z.div_pos; lia).
    assert (H2 : 0 <= shr_m (SpecFloat.iter_pos shr_1 p (shr_1 mrs)))
      by (rewrite iter_shr_1_m by done; apply Z.div_pos; lia).
    apply IH; [done|]. apply IH; [done|]. apply shr_1_code; [done|].
    rewrite pow2_xI in Hc. lia.
  - assert (H2 : 0 <= shr_m (SpecFloat.iter_pos shr_1 p mrs))
      by (rewrite iter_shr_1_m by done; apply Z.div_pos; lia).
    apply IH; [done|]. apply IH; [done|]. rewrite pow2_xO in Hc. lia.
  - apply shr_1_code; [done|]. lia.
Qed.

(** The shift of [shr] as a function of the requested count. *)
Lemma shr_spec mrs e n :
  0 <= shr_m mrs ->
  let k := Z.max n 0 in
  (shr mrs e n).2 = e + k /\
  shr_m (shr mrs e n).1 = shr_m mrs / 2 ^ k /\
  (forall K, code mrs <= 4 * (K * 2 ^ k) -> code (shr mrs e n).1 <= 4 * K).
Proof.
  intros Hm k. subst k.
  destruct n as [|p|p]; cbn [shr fst snd Z.max Z.compare];
    rewrite ?Z.pow_0_r, ?Z.div_1_r.
  - repeat split; [lia | intros; lia].
  - repeat split; [by apply iter_shr_1_m | intros; by apply iter_shr_1_code].
  - repeat split; [lia | intros; lia].
Qed.

Lemma digits2_pos_bounds p :
  2 ^ (Zpos (digits2_pos p) - 1) <= Zpos p < 2 ^ Zpos (digits2_pos p).
Proof.
  induction p as [p IH|p IH|]; cbn [digits2_pos].
  - rewrite Pos2Z.inj_succ. replace (Z.succ (Zpos (digits2_pos p)) - 1)
      with (Z.succ (Zpos (digits2_pos p) - 1)) by lia.
    rewrite !Z.pow_succ_r by lia. lia.
  - rewrite Pos2Z.inj_succ. replace (Z.succ (Zpos (digits2_pos p)) - 1)
      with (Z.succ (Zpos (digits2_pos p) - 1)) by lia.
    rewrite !Z.pow_succ_r by lia. lia.
  - simpl. lia.
Qed.

Lemma Zdigits2_bounds m :
  0 < m -> 2 ^ (Zdigits2 m - 1) <= m < 2 ^ Zdigits2 m.
Proof. destruct m as [|p|p]; [lia | intros _; apply digits2_pos_bounds | lia]. Qed.

Lemma Zdigits2_nonneg m : 0 <= Zdigits2 m.
Proof. by destruct m. Qed.

(** [d] binary digits suffice below [2^d]. *)
Lemma Zdigits2_le m d : 0 <= m -> 0 <= d -> m < 2 ^ d -> Zdigits2 m <= d.
Proof.
  intros Hm Hd Hlt. destruct (Z.eq_dec m 0) as [->|]; [done|].
  destruct (Zdigits2_bounds m ltac:(lia)) as [Hlo _].
  destruct (Z.le_gt_cases (Zdigits2 m) d) as [|Hgt]; [done|].
  assert (2 ^ d <= 2 ^ (Zdigits2 m - 1)) by (apply Z.pow_le_mono_r; lia). lia.
Qed.

Lemma Zdigits2_ge m d : 2 ^ d <= m -> 0 <= d -> d + 1 <= Zdigits2 m.
Proof.
  intros Hlo Hd. assert (0 < 2 ^ d) by (apply Z.pow_pos_nonneg; lia).
  destruct (Zdigits2_bounds m ltac:(lia)) as [_ Hhi].
  destruct (Z.le_gt_cases (d + 1) (Zdigits2 m)) as [|Hgt]; [done|].
  assert (2 ^ Zdigits2 m <= 2 ^ d) by (apply Z.pow_le_mono_r; lia). lia.
Qed.

Lemma fexp_eq e : fexp F64.prec F64.emax e = Z.max (e - 53) (-1074).
Proof. reflexivity. Qed.

Lemma rne_bounds mrs :
  shr_m mrs <= round_nearest_even (shr_m mrs) (loc_of_shr_record mrs)
            <= shr_m mrs + 1 /\
  (forall K, code mrs <= 4 * K ->
             round_nearest_even (shr_m mrs) (loc_of_shr_record mrs) <= K).
Proof.
  destruct mrs as [m [] []]; unfold code; cbn;
    try destruct (Z.even m); (split; [lia | intros; lia]).
Qed.

Lemma rnd_signed s m e l : 0 <= m -> signed s (F64.rnd s m e l).
Proof.
  intros Hm. unfold F64.rnd, binary_round_aux, shr_fexp.
  destruct (shr_spec (shr_record_of_loc m l) e
              (fexp F64.prec F64.emax (Zdigits2 m + e) - e)) as (_ & Hm1 & _).
  { by rewrite shr_m_of_loc. }
  destruct (shr (shr_record_of_loc m l) e _) as [mrs1 e1]. simpl in Hm1.
  rewrite shr_m_of_loc in Hm1.
  destruct (rne_bounds mrs1) as [[Hlo _] _].
  set (m2 := round_nearest_even _ _) in *.
  assert (0 <= m2).
  { etrans; [|exact Hlo]. rewrite Hm1. apply Z.div_pos; [done|].
    destruct (pow2_pos (Z.max (fexp F64.prec F64.emax (Zdigits2 m + e) - e) 0)); lia. }
  destruct (shr_spec (shr_record_of_loc m2 loc_Exact) e1
              (fexp F64.prec F64.emax (Zdigits2 m2 + e1) - e1)) as (_ & Hm3 & _).
  { done. }
  destruct (shr (shr_record_of_loc m2 loc_Exact) e1 _) as [mrs3 e3].
  simpl in Hm3. 
  assert (0 <= shr_m mrs3).
  { rewrite Hm3. apply Z.div_pos; [done|].
    destruct (pow2_pos (Z.max (fexp F64.prec F64.emax (Zdigits2 m2 + e1) - e1) 0)); lia. }
  destruct (shr_m mrs3); [done| |lia]. by destruct (_ <=? _).
Qed.

Lemma bounded_inv M E :
  bounded F64.prec F64.emax M E = true ->
  Zpos M < 2 ^ 53 /\ -1074 <= E <= 971.
Proof.
  unfold bounded, canonical_mantissa. rewrite fexp_eq.
  intros [Hc He]%andb_prop. apply Z.eqb_eq in Hc. apply Z.leb_le in He.
  change (F64.emax - F64.prec) with 971 in He.
  split; [|lia].
  pose proof (digits2_pos_bounds M) as [_ Hhi].
  eapply Z.lt_le_trans; [exact Hhi|]. apply Z.pow_le_mono_r; lia.
Qed.

Lemma pow2_split a b : 0 <= a -> 0 <= b -> 2 ^ (a + b) = 2 ^ a * 2 ^ b.
Proof. intros. by rewrite Z.pow_add_r. Qed.

Lemma rnd_below m e l M E :
  0 <= m -> e <= E ->
  bounded F64.prec F64.emax M E = true ->
  4 * m + loc_code l <= 4 * (Zpos M * 2 ^ (E - e)) ->
  below M E (F64.rnd false m e l).
Proof.
  intros Hm HeE [HM HE]%bounded_inv Hcode.
  assert (Hpow53 : 2 ^ 53 = 9007199254740992) by reflexivity.
  assert (0 < 2 ^ (E - e)) by (apply Z.pow_pos_nonneg; lia).
  assert (HmM : m <= Zpos M * 2 ^ (E - e)) by (destruct l as [|[]]; simpl in Hcode; lia).
  set (d := Zdigits2 m).
  assert (Hd0 : 0 <= d) by apply Zdigits2_nonneg.
  (* the exponent after the first shift stays at most [E] *)
  assert (HdE : d + e - 53 <= E).
  { destruct (Z.eq_dec m 0) as [->|]; [subst d; simpl; lia|].
    destruct (Zdigits2_bounds m ltac:(lia)) as [Hlo _]. fold d in Hlo.
    destruct (Z.le_gt_cases (d + e - 53) E) as [|Hgt]; [done|].
    assert (2 ^ (53 + (E - e)) <= 2 ^ (d - 1)) by (apply Z.pow_le_mono_r; lia).
    rewrite pow2_split in * by lia. nia. }
  unfold F64.rnd, binary_round_aux, shr_fexp. fold d.
  set (n := fexp F64.prec F64.emax (d + e) - e).
  assert (Hn : n = Z.max (d + e - 53) (-1074) - e) by (subst n; by rewrite fexp_eq).
  destruct (shr_spec (shr_record_of_loc m l) e n) as (He1 & Hm1 & Hc1).
  { by rewrite shr_m_of_loc. }
  destruct (shr (shr_record_of_loc m l) e n) as [mrs1 e1].
  cbn [fst snd] in He1, Hm1, Hc1. rewrite shr_m_of_loc in Hm1.
  rewrite code_of_loc in Hc1.
  set (k := Z.max n 0) in *.
  assert (Hk : 0 <= k) by lia.
  assert (He1E : e1 <= E) by lia.
  assert (He1lo : -1074 <= e1) by lia.
  assert (0 < 2 ^ k) by (apply Z.pow_pos_nonneg; lia).
  assert (0 < 2 ^ (E - e1)) by (apply Z.pow_pos_nonneg; lia).
  (* the shifted mantissa fits the precision *)
  assert (Hm1lt : shr_m mrs1 < 2 ^ 53).
  { rewrite Hm1. apply Z.div_lt_upper_bound; [done|].
    destruct (Z.eq_dec m 0) as [->|]; [lia|].
    destruct (Zdigits2_bounds m ltac:(lia)) as [_ Hhi]. fold d in Hhi.
    eapply Z.lt_le_trans; [exact Hhi|].
    rewrite <- pow2_split by lia. apply Z.pow_le_mono_r; lia. }
  assert (Hm1ge : 0 <= shr_m mrs1) by (rewrite Hm1; apply Z.div_pos; lia).
  specialize (Hc1 (Zpos M * 2 ^ (E - e1))).
  destruct (rne_bounds mrs1) as [[Hlo2 Hhi2] Hle2].
  set (m2 := round_nearest_even _ _) in *.
  assert (Hm2 : m2 <= Zpos M * 2 ^ (E - e1)).
  { apply Hle2, Hc1. rewrite <- Z.mul_assoc, <- pow2_split by lia.
    replace (E - e1 + k) with (E - e) by lia. done. }
  set (n2 := fexp F64.prec F64.emax (Zdigits2 m2 + e1) - e1).
  assert (Hn2 : n2 = Z.max (Zdigits2 m2 + e1 - 53) (-1074) - e1)
    by (subst n2; by rewrite fexp_eq).
  destruct (shr_spec (shr_record_of_loc m2 loc_Exact) e1 n2) as (He3 & Hm3 & _).
  { cbn. lia. }
  destruct (shr (shr_record_of_loc m2 loc_Exact) e1 n2) as [mrs3 e3].
  cbn [fst snd shr_m shr_record_of_loc] in He3, Hm3.
  destruct (Z.eq_dec m2 (2 ^ 53)) as [Heq|Hne].
  - (* the rounding carried into the next binade *)
    assert (Hd2 : Zdigits2 m2 = 54) by (by rewrite Heq).
    rewrite Hd2 in Hn2. replace (Z.max n2 0) with 1 in * by lia.
    rewrite Heq in Hm3. change (2 ^ 53 / 2 ^ 1) with (Zpos 4503599627370496) in Hm3.
    rewrite Hm3.
    assert (e1 < E).
    { destruct (Z.eq_dec e1 E) as [->|]; [|lia].
      rewrite Z.sub_diag, Z.pow_0_r in Hm2. lia. }
    replace (e3 <=? F64.emax - F64.prec) with true
      by (symmetry; apply Z.leb_le; change (F64.emax - F64.prec) with 971; lia).
    split; [|lia].
    destruct (Z.eq_dec e3 E) as [->|]; [right|left; lia]. split; [done|].
    replace (E - e1) with 1 in Hm2 by lia. rewrite Z.pow_1_r in Hm2. lia.
  - assert (Hm2lt : m2 < 2 ^ 53) by lia.
    assert (Hd2 : Zdigits2 m2 <= 53) by (apply Zdigits2_le; lia).
    replace (Z.max n2 0) with 0 in * by lia.
    rewrite Z.pow_0_r, Z.div_1_r in Hm3. rewrite Hm3.
    destruct m2 as [|p|p]; [done| |lia].
    replace (e3 <=? F64.emax - F64.prec) with true
      by (symmetry; apply Z.leb_le; change (F64.emax - F64.prec) with 971; lia).
    split; [|done].
    destruct (Z.eq_dec e3 E) as [->|]; [right|left; lia]. split; [done|].
    replace (E - e1) with 0 in Hm2 by lia. rewrite Z.pow_0_r in Hm2. lia.
Qed.

Lemma new_location_code b r :
  0 <= loc_code (new_location b r) <= 3 /\
  (r = 0 -> loc_code (new_location b r) = 0).
Proof.
  unfold new_location, new_location_even, new_location_odd.
  destruct (Z.even b), (Z.eqb_spec r 0) as [->|]; simpl;
    repeat match goal with |- context [Z.compare ?x ?y] => destruct (Z.compare x y) end;
    simpl; (split; [lia | try done; intros; lia]).
Qed.

(** [of_ratio] rounds the quotient [a * 2^s / b] with its remainder. *)
Lemma of_ratio_unfold s a b :
  0 <= a -> 0 < b ->
  let e := Z.min (fexp F64.prec F64.emax (Zdigits2 a - Zdigits2 b)) 0 in
  F64.of_ratio s a b =
  F64.rnd s (a * 2 ^ (- e) / b) e (new_location b ((a * 2 ^ (- e)) mod b)).
Proof.
  intros Ha Hb e. unfold F64.of_ratio, SFdiv_core_binary.
  rewrite !Z.add_0_r, !Z.sub_0_r. fold e. rewrite !Z.sub_0_l.
  assert (He : e <= 0) by (subst e; lia).
  set (m' := match - e with Zpos _ => Z.shiftl a (- e) | 0 => a | Zneg _ => 0 end).
  assert (Hm' : m' = a * 2 ^ (- e)).
  { subst m'. destruct (- e) as [|p|p] eqn:Hs.
    - rewrite Z.pow_0_r. lia.
    - by rewrite Z.shiftl_mul_pow2.
    - lia. }
  rewrite <- Hm'. unfold Z.div, Z.modulo. by destruct (Z.div_eucl m' b).
Qed.

Lemma of_ratio_signed s a b : 0 <= a -> 0 < b -> signed s (F64.of_ratio s a b).
Proof.
  intros Ha Hb. rewrite of_ratio_unfold by done. apply rnd_signed.
  apply Z.div_pos; [|done].
  apply Z.mul_nonneg_nonneg; [done|]. apply Z.pow_nonneg. lia.
Qed.

Lemma of_ratio_below a b M E :
  0 < a -> 0 < b -> E <= 0 ->
  bounded F64.prec F64.emax M E = true ->
  a * 2 ^ (- E) <= Zpos M * b ->
  below M E (F64.of_ratio false a b).
Proof.
  intros Ha Hb HE0 Hbd Hab. rewrite of_ratio_unfold by lia.
  pose proof (bounded_inv _ _ Hbd) as [HM HE].
  assert (Hpow53 : 2 ^ 53 = 9007199254740992) by reflexivity.
  set (d1 := Zdigits2 a). set (d2 := Zdigits2 b).
  destruct (Zdigits2_bounds a Ha) as [Hlo1 _]. fold d1 in Hlo1.
  destruct (Zdigits2_bounds b Hb) as [_ Hhi2]. fold d2 in Hhi2.
  assert (0 <= d1) by apply Zdigits2_nonneg.
  assert (0 <= d2) by apply Zdigits2_nonneg.
  assert (0 < 2 ^ (- E)) by (apply Z.pow_pos_nonneg; lia).
  assert (Hd : d1 - d2 - 53 <= E).
  { destruct (Z.le_gt_cases (d1 - d2 - 53) E) as [|Hgt]; [done|].
    assert (1 <= d1) by (apply (Zdigits2_ge a 0); simpl; lia).
    assert (2 ^ (53 + d2) <= 2 ^ (d1 - 1 - E)) by (apply Z.pow_le_mono_r; lia).
    assert (0 < 2 ^ d2) by (apply Z.pow_pos_nonneg; lia).
    assert (2 ^ (d1 - 1 - E) = 2 ^ (d1 - 1) * 2 ^ (- E)).
    { rewrite <- pow2_split by lia. f_equal; lia. }
    assert (2 ^ (53 + d2) = 2 ^ 53 * 2 ^ d2) by (rewrite pow2_split; lia).
    assert (Zpos M * b < 2 ^ 53 * 2 ^ d2) by nia.
    nia. }
  set (e := Z.min (fexp F64.prec F64.emax (d1 - d2)) 0).
  assert (Hee : e = Z.min (Z.max (d1 - d2 - 53) (-1074)) 0)
    by (subst e; by rewrite fexp_eq).
  assert (HeE : e <= E) by lia.
  assert (0 < 2 ^ (- e)) by (apply Z.pow_pos_nonneg; lia).
  assert (0 < 2 ^ (E - e)) by (apply Z.pow_pos_nonneg; lia).
  set (m' := a * 2 ^ (- e)).
  assert (Hm' : m' <= Zpos M * 2 ^ (E - e) * b).
  { subst m'. replace (- e) with (- E + (E - e)) by lia.
    rewrite pow2_split by lia. nia. }
  assert (0 <= m') by (subst m'; lia).
  apply rnd_below; [apply Z.div_pos; lia | done | done |].
  pose proof (Z.div_mod m' b ltac:(lia)) as Hdm.
  pose proof (Z.mod_pos_bound m' b Hb) as Hr.
  destruct (new_location_code b (m' mod b)) as [Hc Hc0].
  destruct (Z.eq_dec (m' mod b) 0) as [Hr0|Hn0].
  - rewrite (Hc0 Hr0). rewrite Hr0 in Hdm. nia.
  - assert (m' / b < Zpos M * 2 ^ (E - e)) by nia. lia.
Qed.

Lemma of_Z_100 : F64.of_Z 100 = S754_finite false mant_hundred (-46).
Proof. reflexivity. Qed.

Lemma mul_100_below x :
  below mant_one (-52) x -> below mant_hundred (-46) (F64.mul x (F64.of_Z 100)).
Proof.
  rewrite of_Z_100. destruct x as [s|s| |[] m e]; try done.
  intros [Hle Hm]. unfold F64.mul, SFmul. cbn [xorb].
  apply (rnd_below _ _ loc_Exact); [lia | lia | done |].
  cbn [loc_code]. rewrite Pos2Z.inj_mul.
  replace (-46 - (e + -46)) with (- e) by lia.
  assert (Hpow53 : 2 ^ 53 = 9007199254740992) by reflexivity.
  assert (Zpos m <= 2 ^ (- e)); [|nia].
  destruct Hle as [Hlt|[-> Hle]]; [|exact Hle].
  assert (2 ^ 53 <= 2 ^ (- e)) by (apply Z.pow_le_mono_r; lia). lia.
Qed.

Lemma div_half_even_bounds a b K :
  0 <= a -> 0 < b -> a <= K * b ->
  0 <= F64.div_half_even a b <= K.
Proof.
  intros Ha Hb Hab. unfold F64.div_half_even.
  pose proof (Z.div_mod a b ltac:(lia)) as Hdm.
  pose proof (Z.mod_pos_bound a b Hb) as Hr.
  assert (0 <= a / b) by (apply Z.div_pos; lia).
  destruct (Z.compare_spec (2 * (a mod b)) b) as [Heq|Hlt|Hgt];
    try destruct (Z.even (a / b)); nia.
Qed.

Lemma round2_below x :
  below mant_hundred (-46) x -> below mant_hundred (-46) (F64.round2 x).
Proof.
  destruct x as [s|s| |[] m e]; try done.
  intros [Hle Hm]. unfold F64.round2.
  assert (Hpow53 : 2 ^ 53 = 9007199254740992) by reflexivity.
  assert (Hpow46 : 2 ^ 46 = 70368744177664) by reflexivity.
  destruct e as [|p|p]; [lia | lia |]. cbn [F64.hundredths].
  assert (Hp : 100 * Zpos m <= 10000 * 2 ^ Zpos p).
  { destruct Hle as [Hlt|[Heq Hle]].
    - assert (2 ^ 47 <= 2 ^ Zpos p) by (apply Z.pow_le_mono_r; lia).
      change (2 ^ 47) with 140737488355328 in *. lia.
    - injection Heq as ->. unfold mant_hundred in Hle. lia. }
  assert (0 < 2 ^ Zpos p) by (apply Z.pow_pos_nonneg; lia).
  destruct (div_half_even_bounds (100 * Zpos m) (2 ^ Zpos p) 10000) as [Hn0 Hn];
    [lia | done | done |].
  destruct (Z.eqb_spec (F64.div_half_even (100 * Zpos m) (2 ^ Zpos p)) 0); [done|].
  apply of_ratio_below; [lia | lia | lia | done |].
  change (- -46) with 46. unfold mant_hundred. lia.
Qed.

(** [x <= y] as computed by [leb] is what [below] describes. *)
Lemma below_leb M E x :
  below M E x ->
  F64.leb F64.zero x = true /\ F64.leb x (S754_finite false M E) = true.
Proof.
  destruct x as [s|s| |[] m e]; try done. intros [Hle _].
  split; [done|]. unfold F64.leb, SFleb, SFcompare.
  destruct Hle as [Hlt|[-> Hle]].
  - by rewrite (proj2 (Z.compare_lt_iff _ _) Hlt).
  - rewrite Z.compare_refl. change (Pos.compare_cont Eq m M) with (Pos.compare m M).
    by destruct (Pos.compare_spec m M); [| |lia].
Qed.

Lemma int_truediv_below sold total :
  0 < total -> 0 <= sold <= total ->
  exists q, int_truediv sold total = Ok q /\ below mant_one (-52) q.
Proof.
  intros Ht Hs. unfold int_truediv.
  destruct (Z.eqb_spec total 0); [lia|].
  destruct (Z.eqb_spec sold 0) as [->|]; [by eexists|].
  replace (sold <? 0) with false by (symmetry; apply Z.ltb_ge; lia).
  replace (total <? 0) with false by (symmetry; apply Z.ltb_ge; lia).
  rewrite !Z.abs_eq by lia. cbn [xorb].
  pose proof (of_ratio_below sold total mant_one (-52)) as Hb.
  destruct (F64.of_ratio false sold total) as [s|s| |s m e] eqn:Hq.
  - by eexists.
  - exfalso. apply Hb; [lia | lia | lia | done |].
    change (2 ^ (- -52)) with (Zpos mant_one). nia.
  - exfalso. apply Hb; [lia | lia | lia | done |].
    change (2 ^ (- -52)) with (Zpos mant_one). nia.
  - eexists. split; [done|]. apply Hb; [lia | lia | lia | done |].
    change (2 ^ (- -52)) with (Zpos mant_one). nia.
Qed.

Lemma calc_occupancy_below sold total :
  0 < total -> 0 <= sold <= total ->
  exists occ, calc_occupancy sold total = Ok occ /\
              below mant_hundred (-46) occ.
Proof.
  intros Ht Hs. unfold calc_occupancy.
  destruct (Z.eqb_spec total 0); [lia|].
  destruct (int_truediv_below sold total Ht Hs) as (q & -> & Hq). simpl.
  eexists. split; [done|]. by apply round2_below, mul_100_below.
Qed.

Lemma int_truediv_signed a b q :
  int_truediv a b = Ok q ->
  match q with S754_zero _ | S754_finite _ _ _ => True | _ => False end.
Proof.
  unfold int_truediv. destruct (b =? 0) eqn:Hb; [done|].
  destruct (a =? 0) eqn:Ha; [by intros [= <-]|].
  apply Z.eqb_neq in Hb, Ha.
  pose proof (of_ratio_signed (xorb (a <? 0) (b <? 0)) (Z.abs a) (Z.abs b)
                ltac:(lia) ltac:(lia)) as Hs.
  destruct (F64.of_ratio _ _ _); try done; by intros [= <-].
Qed.

Lemma round2_not_nan x : x <> S754_nan -> F64.round2 x <> S754_nan.
Proof.
  destruct x as [s|s| |s m e]; try done. intros _. unfold F64.round2.
  destruct (_ =? 0) eqn:Hn; [done|]. apply Z.eqb_neq in Hn.
  assert (0 <= F64.hundredths m e).
  { unfold F64.hundredths. destruct e as [|p|p].
    - lia.
    - assert (0 < 2 ^ Zpos p) by (apply Z.pow_pos_nonneg; lia). lia.
    - assert (0 < 2 ^ Zpos p) by (apply Z.pow_pos_nonneg; lia).
      unfold F64.div_half_even.
      assert (0 <= 100 * Zpos m / 2 ^ Zpos p) by (apply Z.div_pos; lia).
      destruct (_ ?= _); try destruct (Z.even _); lia. }
  pose proof (of_ratio_signed s (F64.hundredths m e) 100 ltac:(lia) ltac:(lia)) as Hs.
  by destruct (F64.of_ratio _ _ _).
Qed.

Lemma calc_occupancy_not_nan sold total occ :
  calc_occupancy sold total = Ok occ -> occ <> S754_nan.
Proof.
  unfold calc_occupancy. destruct (total =? 0); [by intros [= <-]|].
  intros (q & Hq & [= <-])%bind_Ok. apply int_truediv_signed in Hq.
  apply round2_not_nan.
  change (binary_round F64.prec F64.emax false 100 0)
    with (S754_finite false mant_hundred (-46)).
  destruct q as [s|s| |s m e]; try done.
  unfold F64.mul, SFmul.
  pose proof (rnd_signed (xorb s false) (Zpos (m * mant_hundred)) (e + -46)
                loc_Exact ltac:(lia)) as Hs.
  intros Heq. unfold F64.rnd in Hs. by rewrite Heq in Hs.
Qed.

(** On floats that are not NaN, [x < y] is the negation of [y <= x]. *)
Lemma ltb_negb_leb x y :
  x <> S754_nan -> y <> S754_nan -> F64.ltb x y = negb (F64.leb y x).
Proof.
  intros Hx Hy. unfold F64.ltb, F64.leb, SFltb, SFleb, SFcompare.
  destruct x as [[]|[]| |[] m e], y as [[]|[]| |[] m' e']; try done;
    rewrite (Z.compare_antisym e e');
    destruct (Z.compare_spec e e') as [->| |]; simpl; try done;
    change (Pos.compare_cont Eq ?a ?b) with (Pos.compare a b);
    rewrite (Pos.compare_antisym m m'); by destruct (Pos.compare m m').
Qed.

End Rounding.

(** ** Conversion of ints *)

Section OfInt.

Lemma rnd_abs s m e l : SFabs (F64.rnd s m e l) = F64.rnd false m e l.
Proof.
  unfold F64.rnd, binary_round_aux.
  destruct (shr_fexp _ _ _ _ _) as [mrs1 e1].
  destruct (shr_fexp _ _ _ _ _) as [mrs2 e2].
  destruct (shr_m mrs2); [done| |done]. by destruct (_ <=? _).
Qed.




End OfInt.
(** ** Dedupe *)

(** Equality of two sets built from lists, singletons and unions. *)
Ltac set_ext :=
  apply set_eq; intros ?;
  rewrite ?elem_of_union, ?elem_of_list_to_set, ?fmap_nil, ?fmap_cons,
    ?elem_of_nil, ?elem_of_cons, ?elem_of_union, ?elem_of_singleton,
    ?elem_of_list_to_set;
  split; intros Hx;
  repeat match goal with H : _ \/ _ |- _ => destruct H end; subst; try done; auto 8.

Section Dedupe.
Implicit Types (r : ShowRecord) (rows out : list ShowRecord).
Implicit Types seen : gset (string * string * string * string).


Lemma dedupe_loop seen out rows :
  (foldl dedupe_step (seen, out) rows).2 = out ++ first_seen seen rows.
Proof.
  revert seen out. induction rows as [|r rows IH]; intros seen out; simpl.
  - by rewrite app_nil_r.
  - unfold dedupe_step at 2; simpl. destruct (decide _) as [Hin|Hin].
    + apply IH.
    + rewrite IH. by rewrite <- app_assoc.
Qed.

Lemma dedupe_first_seen rows : dedupe rows = first_seen ∅ rows.
Proof. unfold dedupe. by rewrite dedupe_loop. Qed.

Lemma first_seen_sublist seen rows : sublist (first_seen seen rows) rows.
Proof.
  revert seen. induction rows as [|r rows IH]; intros seen; simpl.
  - constructor.
  - destruct (decide _); [apply sublist_cons | apply sublist_skip]; apply IH.
Qed.

Lemma first_seen_fresh seen rows r :
  r ∈ first_seen seen rows -> dedupe_key r ∉ seen.
Proof.
  revert seen. induction rows as [|r0 rows IH]; intros seen; simpl.
  - by intros ?%elem_of_nil.
  - destruct (decide _) as [|Hn]; [apply IH|].
    intros [->|Hr]%elem_of_cons; [done|].
    apply IH in Hr. intros Hs. apply Hr. apply elem_of_union; by right.
Qed.

Lemma first_seen_NoDup seen rows : NoDup (dedupe_key <$> first_seen seen rows).
Proof.
  revert seen. induction rows as [|r0 rows IH]; intros seen; simpl.
  - constructor.
  - destruct (decide _) as [|Hn]; [apply IH|].
    rewrite fmap_cons. constructor; [|apply IH].
    intros (r & Hk & Hr)%list_elem_of_fmap.
    apply first_seen_fresh in Hr. apply Hr.
    apply elem_of_union; left. by apply elem_of_singleton.
Qed.

Lemma first_seen_covers seen rows r :
  r ∈ rows ->
  dedupe_key r ∈ seen \/
  exists r', r' ∈ first_seen seen rows /\ dedupe_key r' = dedupe_key r.
Proof.
  revert seen. induction rows as [|r0 rows IH]; intros seen; simpl.
  - by intros ?%elem_of_nil.
  - intros [->|Hr]%elem_of_cons.
    + destruct (decide _) as [|Hn]; [by left|].
      right. exists r0. split; [apply elem_of_cons; by left | done].
    + destruct (decide _) as [|Hn]; [by apply IH|].
      destruct (IH ({[ dedupe_key r0 ]} ∪ seen) Hr) as [Hin|(r' & Hr' & Hk)].
      * apply elem_of_union in Hin as [->%elem_of_singleton|]; [|by left].
        right. exists r0. split; [apply elem_of_cons; by left | done].
      * right. exists r'. split; [apply elem_of_cons; by right | done].
Qed.

Lemma first_seen_is_first seen rows r :
  r ∈ first_seen seen rows ->
  exists pre post, rows = pre ++ r :: post /\
    dedupe_key r ∉ dedupe_key <$> pre.
Proof.
  revert seen. induction rows as [|r0 rows IH]; intros seen; simpl.
  - by intros ?%elem_of_nil.
  - destruct (decide _) as [Hin|Hn].
    + intros Hr. pose proof (first_seen_fresh _ _ _ Hr) as Hf.
      destruct (IH _ Hr) as (pre & post & -> & Hpre).
      exists (r0 :: pre), post. split; [done|].
      rewrite fmap_cons. intros [Heq|?]%elem_of_cons; [|done].
      rewrite Heq in Hf. done.
    + intros [->|Hr]%elem_of_cons.
      * exists [], rows. split; [done|]. simpl. apply not_elem_of_nil.
      * pose proof (first_seen_fresh _ _ _ Hr) as Hf.
        destruct (IH _ Hr) as (pre & post & -> & Hpre).
        exists (r0 :: pre), post. split; [done|].
        rewrite fmap_cons. intros [Heq|?]%elem_of_cons; [|done].
        apply Hf. apply elem_of_union; left. by apply elem_of_singleton.
Qed.

Lemma dedupe_seen seen out rows :
  (foldl dedupe_step (seen, out) rows).1 = list_to_set (dedupe_key <$> rows) ∪ seen.
Proof.
  revert seen out. induction rows as [|r rows IH]; intros seen out; simpl.
  - set_ext.
  - unfold dedupe_step at 2; simpl. destruct (decide _) as [Hin|Hin].
    + rewrite IH. set_ext.
    + rewrite IH. set_ext.
Qed.

Lemma dedupe_snoc rows r :
  dedupe (rows ++ [r]) =
  if decide (dedupe_key r ∈ dedupe_key <$> rows) then dedupe rows
  else dedupe rows ++ [r].
Proof.
  unfold dedupe. rewrite foldl_app. simpl. unfold dedupe_step at 1.
  rewrite dedupe_seen.
  destruct (decide (dedupe_key r ∈ dedupe_key <$> rows)) as [Hin|Hout].
  - rewrite decide_True; [done|].
    apply elem_of_union; left. by apply elem_of_list_to_set.
  - rewrite decide_False; [done|].
    intros [Hin%elem_of_list_to_set|Hin%not_elem_of_empty]%elem_of_union; done.
Qed.

(** One turn of the loop of [dedupe_call], with [out] at the end of the
    store. *)
Lemma dedupe_body_store (h : store) (items : list nat) seen (p : nat) r :
  h !! p = Some (RowObj r) ->
  dedupe_body (length h) (seen, h ++ [ListObj items]) p =
  Ok (if decide (dedupe_key r ∈ seen) then (seen, h ++ [ListObj items])
      else ({[ dedupe_key r ]} ∪ seen, h ++ [ListObj (items ++ [p])])).
Proof.
  intros Hp. unfold dedupe_body, key_at. cbn [fst snd].
  rewrite lookup_app_l by (by eapply lookup_lt_Some).
  rewrite Hp. cbn [mbind result_bind].
  change (venue r, time r, session_id r, audi r) with (dedupe_key r).
  destruct (decide (dedupe_key r ∈ seen)) as [Hin|Hout]; [done|].
  unfold append_at. rewrite list_lookup_middle by done.
  rewrite insert_app_r_alt by done. by rewrite Nat.sub_diag.
Qed.

(** The loop of [dedupe_call] appends to [out] the references of the rows
    [first_seen] keeps, and writes nowhere else. *)
Lemma dedupe_loop_store (h : store) (items ps : list nat) seen rows :
  Forall2 (fun p r => h !! p = Some (RowObj r)) ps rows ->
  exists qs seen',
    loop (dedupe_body (length h)) (seen, h ++ [ListObj items]) ps
    = Ok (seen', h ++ [ListObj (items ++ qs)]) /\
    Forall2 (fun q r => h !! q = Some (RowObj r)) qs (first_seen seen rows).
Proof.
  intros Hps. revert seen items.
  induction Hps as [|p r ps rows Hp _ IH]; intros seen items.
  - exists [], seen. rewrite app_nil_r. split; [done | constructor].
  - cbn [loop first_seen]. rewrite (dedupe_body_store h items seen p r Hp).
    cbn [mbind result_bind].
    destruct (decide (dedupe_key r ∈ seen)) as [Hin|Hout]; [apply IH|].
    destruct (IH ({[ dedupe_key r ]} ∪ seen) (items ++ [p]))
      as (qs & seen' & Hloop & Hqs).
    exists (p :: qs), seen'. split; [|by constructor].
    etrans; [exact Hloop|]. by rewrite <- app_assoc.
Qed.

End Dedupe.

(** C1.  [dedupe] starts from the empty list and, row after row, appends
    the row when no earlier row has its composite key (venue, time,
    session id, auditorium) and drops it otherwise: this fixes which rows
    are returned and in which order.  Hence the rows returned are a
    subsequence of the input (their relative order is kept), no two of
    them share a key, every key of the input is represented, and the row
    kept for a key is the first row of the input with that key.  On the
    store, the call leaves every object it found as it was, [rows] and its
    records included: all it adds is the new list it returns, which refers
    to the very records kept. *)
Theorem dedupe_first_seen_wins (rows : list ShowRecord) :
  let key := fun r : ShowRecord => (venue r, time r, session_id r, audi r) in
  (dedupe [] = [] /\
   forall r, dedupe (rows ++ [r]) =
             if decide (key r ∈ key <$> rows) then dedupe rows
             else dedupe rows ++ [r]) /\
  sublist (dedupe rows) rows /\
  NoDup (key <$> dedupe rows) /\
  (forall r, r ∈ rows -> exists r', r' ∈ dedupe rows /\ key r' = key r) /\
  (forall r, r ∈ dedupe rows ->
     exists pre post, rows = pre ++ r :: post /\ key r ∉ key <$> pre) /\
  (forall (h : store) (rows_at : nat) (ps : list nat),
     h !! rows_at = Some (ListObj ps) ->
     Forall2 (fun p r => h !! p = Some (RowObj r)) ps rows ->
     exists qs,
       dedupe_call h rows_at = Ok (h ++ [ListObj qs], length h) /\
       Forall2 (fun q r => h !! q = Some (RowObj r)) qs (dedupe rows)).
Proof.
  intros key. change key with dedupe_key. clear key.
  split; [split; [done | apply dedupe_snoc]|].
  rewrite dedupe_first_seen. split; [apply first_seen_sublist|].
  split; [apply first_seen_NoDup|]. split; [|split].
  - intros r Hr. destruct (first_seen_covers ∅ rows r Hr) as [Hin|H]; [|done].
    by apply not_elem_of_empty in Hin.
  - intros r. apply first_seen_is_first.
  - intros h rows_at ps Hrows Hps. unfold dedupe_call. rewrite Hrows.
    destruct (dedupe_loop_store h [] ps ∅ rows Hps) as (qs & seen' & -> & Hqs).
    by exists qs.
Qed.

(** The call on the sample store: the list of [rows] and the records stay,
    and the new list, at address [4], refers to the records at [1] and
    [2]. *)
Lemma dedupe_call_sample :
  dedupe_call sample_store 0 = Ok (sample_store ++ [ListObj [1; 2]%nat], 4%nat).
Proof. vm_compute. reflexivity. Qed.


(** ** Conservation of the sums *)


Lemma conserved_new : conserved new_movie.
Proof. by repeat split. Qed.

Lemma conserved_movie_add r occ m : conserved m -> conserved (movie_add r occ m).
Proof.
  unfold conserved, sums_match. simpl.
  intros ((?&?&?) & (?&?&?) & (?&?&?)).
  rewrite !total_dict_upsert by done. simpl. repeat split; lia.
Qed.

Lemma conserved_step summary r s :
  Forall (fun km => conserved km.2) summary ->
  summary_step summary r = Ok s ->
  Forall (fun km => conserved km.2) s.
Proof.
  intros Hs (occ & _ & [= <-])%bind_Ok.
  apply Forall_dict_set; [|done]. simpl.
  apply conserved_movie_add.
  destruct (dict_get (movie r) summary) as [m|] eqn:Hm; simpl.
  - apply (Forall_dict_get _ _ _ _ Hs Hm).
  - apply conserved_new.
Qed.

Lemma conserved_accumulate rows summary s :
  Forall (fun km => conserved km.2) summary ->
  accumulate summary rows = Ok s ->
  Forall (fun km => conserved km.2) s.
Proof.
  revert summary. induction rows as [|r rows IH]; intros summary Hs; simpl.
  - by intros [= <-].
  - intros (s1 & H1 & H2)%bind_Ok. eapply IH; [|done].
    by eapply conserved_step.
Qed.

Lemma final_bucket_fields {K} (kb : K * Bucket) (fb : FinalBucket K) :
  final_bucket kb = Ok fb ->
  fb_label fb = kb.1 /\
  fb_shows fb = b_shows kb.2 /\ fb_sold fb = b_sold kb.2 /\
  fb_totalSeats fb = b_totalSeats kb.2 /\
  fb_venues fb = Z.of_nat (size (b_venues kb.2)) /\
  fb_fastfilling fb = b_fastfilling kb.2 /\
  fb_housefull fb = b_housefull kb.2 /\
  fb_gross fb = F64.round2 (b_gross kb.2) /\
  calc_occupancy (fb_sold fb) (fb_totalSeats fb) = Ok (fb_occupancy fb).
Proof. intros (occ & Hocc & [= <-])%bind_Ok. simpl. by rewrite Hocc. Qed.

Lemma final_buckets_totals {K} (d : list (K * Bucket)) (l : list (FinalBucket K)) :
  mapM final_bucket d = Ok l ->
  total fb_shows l = total (fun kb => b_shows kb.2) d /\
  total fb_sold l = total (fun kb => b_sold kb.2) d /\
  total fb_totalSeats l = total (fun kb => b_totalSeats kb.2) d.
Proof.
  intros H%mapM_Ok.
  repeat split; symmetry; eapply total_Forall2; try exact H;
    intros x y Hxy%final_bucket_fields; simpl; by intuition.
Qed.

(** C2.  In the final summary of any list of rows, for every movie the
    [shows] of its entries of [City_details] add up to the [shows] of the
    movie, and so do [sold] and [totalSeats]; the same holds for the
    entries of [Language_details] and for those of [Format_details]. *)
Theorem bucket_sums_conserved (rows : list ShowRecord)
    (fs : list (string * FinalMovie)) (title : string) (fm : FinalMovie) :
  aggregate rows = Ok fs ->
  (title, fm) ∈ fs ->
  (total fb_shows (City_details fm) = f_shows fm /\
   total fb_sold (City_details fm) = f_sold fm /\
   total fb_totalSeats (City_details fm) = f_totalSeats fm) /\
  (total fb_shows (Language_details fm) = f_shows fm /\
   total fb_sold (Language_details fm) = f_sold fm /\
   total fb_totalSeats (Language_details fm) = f_totalSeats fm) /\
  (total fb_shows (Format_details fm) = f_shows fm /\
   total fb_sold (Format_details fm) = f_sold fm /\
   total fb_totalSeats (Format_details fm) = f_totalSeats fm).
Proof.
  intros (s & Hacc & Hfin)%bind_Ok Hin.
  apply conserved_accumulate in Hacc; [|constructor].
  apply mapM_Ok in Hfin.
  apply list_elem_of_lookup in Hin as [i Hi].
  destruct (Forall2_lookup_r _ _ _ _ _ Hfin Hi) as ([k m] & Hk & Hm).
  apply bind_Ok in Hm as (fm' & Hfm & [= -> ->]). simpl in Hfm.
  rewrite Forall_forall in Hacc.
  assert (Hc : conserved m).
  { apply (Hacc (title, m)). eapply list_elem_of_lookup_2; eauto. }
  apply bind_Ok in Hfm as (occ & _ & Hfm).
  apply bind_Ok in Hfm as (cs & Hcs & Hfm).
  apply bind_Ok in Hfm as (ls & Hls & Hfm).
  apply bind_Ok in Hfm as (fs' & Hfs & [= <-]). simpl.
  apply final_buckets_totals in Hcs, Hls, Hfs.
  destruct Hc as ((?&?&?) & (?&?&?) & (?&?&?)).
  destruct Hcs as (?&?&?), Hls as (?&?&?), Hfs as (?&?&?).
  repeat split; congruence.
Qed.

Lemma bucket_sums_conserved_witness :
  exists fs fm,
    aggregate sample_rows = Ok fs /\ ("Alpha", fm) ∈ fs /\
    total fb_shows (City_details fm) = f_shows fm /\
    total fb_sold (Language_details fm) = f_sold fm /\
    total fb_totalSeats (Format_details fm) = f_totalSeats fm.
Proof.
  eexists _, _. split; [vm_compute; reflexivity|].
  split; [apply list_elem_of_here|].
  pose proof (bucket_sums_conserved sample_rows _ "Alpha" _
                ltac:(vm_compute; reflexivity) ltac:(apply list_elem_of_here)) as H.
  split; [apply H | split; apply H].
Defined.

(** ** Occupancy *)

Lemma calc_occupancy_ok taken seats occ :
  calc_occupancy taken seats = Ok occ -> occupancy_ok taken seats occ.
Proof.
  intros Hocc. split.
  - intros ->. by injection Hocc as <-.
  - intros Hs Ht.
    destruct (calc_occupancy_below taken seats Hs Ht) as (occ' & Hocc' & Hb).
    rewrite Hocc in Hocc'. injection Hocc' as <-.
    unfold occupancy_in_range. rewrite of_Z_100. by apply below_leb.
Qed.

Lemma final_movie_occupancy m fm :
  final_movie m = Ok fm ->
  calc_occupancy (f_sold fm) (f_totalSeats fm) = Ok (f_occupancy fm) /\
  Forall (fun fb => calc_occupancy (fb_sold fb) (fb_totalSeats fb) = Ok (fb_occupancy fb))
         (City_details fm) /\
  Forall (fun fb => calc_occupancy (fb_sold fb) (fb_totalSeats fb) = Ok (fb_occupancy fb))
         (Language_details fm) /\
  Forall (fun fb => calc_occupancy (fb_sold fb) (fb_totalSeats fb) = Ok (fb_occupancy fb))
         (Format_details fm).
Proof.
  intros (occ & Hocc & Hfm)%bind_Ok.
  apply bind_Ok in Hfm as (cs & Hcs & Hfm).
  apply bind_Ok in Hfm as (ls & Hls & Hfm).
  apply bind_Ok in Hfm as (fs' & Hfs & [= <-]). simpl.
  split; [done|].
  apply mapM_Ok in Hcs, Hls, Hfs.
  repeat split; eapply Forall2_right; eauto;
    intros kb fb Hfb%final_bucket_fields; by intuition.
Qed.

Lemma final_summary_elem summary fs title fm :
  final_summary summary = Ok fs -> (title, fm) ∈ fs ->
  exists m, (title, m) ∈ summary /\ final_movie m = Ok fm.
Proof.
  intros Hfin%mapM_Ok [i Hi]%list_elem_of_lookup.
  destruct (Forall2_lookup_r _ _ _ _ _ Hfin Hi) as ([k m] & Hk & Hm).
  apply bind_Ok in Hm as (fm' & Hfm & [= -> ->]).
  exists m. split; [by eapply list_elem_of_lookup_2 | done].
Qed.

Lemma calc_occupancy_of taken seats occ :
  calc_occupancy taken seats = Ok occ -> occupancy_of taken seats occ.
Proof.
  unfold calc_occupancy. intros Hocc. split.
  - intros ->. by injection Hocc as <-.
  - intros Hne. destruct (Z.eqb_spec seats 0) as [|_]; [done|].
    apply bind_Ok in Hocc as (q & Hq & [= <-]). by exists q.
Qed.

(** C4 (as amended).  In the final summary of any rows, the occupancy of
    the movie and of each of its city, language and format entries is
    [0.0] when the entry's [totalSeats] is zero and otherwise
    [round((sold / totalSeats) * 100, 2)] of the entry's own [sold] and
    [totalSeats], the quotient being rounded to a float before it is
    multiplied; it lies between [0] and [100] when [totalSeats] is
    positive and [0 <= sold <= totalSeats]. *)
Theorem occupancy_bounds (rows : list ShowRecord)
    (fs : list (string * FinalMovie)) (title : string) (fm : FinalMovie) :
  aggregate rows = Ok fs ->
  (title, fm) ∈ fs ->
  (occupancy_of (f_sold fm) (f_totalSeats fm) (f_occupancy fm) /\
   occupancy_ok (f_sold fm) (f_totalSeats fm) (f_occupancy fm)) /\
  Forall (fun fb => occupancy_of (fb_sold fb) (fb_totalSeats fb) (fb_occupancy fb) /\
                    occupancy_ok (fb_sold fb) (fb_totalSeats fb) (fb_occupancy fb))
         (City_details fm) /\
  Forall (fun fb => occupancy_of (fb_sold fb) (fb_totalSeats fb) (fb_occupancy fb) /\
                    occupancy_ok (fb_sold fb) (fb_totalSeats fb) (fb_occupancy fb))
         (Language_details fm) /\
  Forall (fun fb => occupancy_of (fb_sold fb) (fb_totalSeats fb) (fb_occupancy fb) /\
                    occupancy_ok (fb_sold fb) (fb_totalSeats fb) (fb_occupancy fb))
         (Format_details fm).
Proof.
  intros (s & _ & Hfin)%bind_Ok Hin.
  destruct (final_summary_elem _ _ _ _ Hfin Hin) as (m & _ & Hfm).
  apply final_movie_occupancy in Hfm as (Hm & Hc & Hl & Hf).
  split; [split; [by apply calc_occupancy_of | by apply calc_occupancy_ok]|].
  repeat split; (eapply Forall_impl; [eassumption|]); intros fb Hfb;
    (split; [by apply calc_occupancy_of | by apply calc_occupancy_ok]).
Qed.

Lemma occupancy_bounds_witness :
  exists fs fm,
    aggregate sample_rows = Ok fs /\ ("Alpha", fm) ∈ fs /\
    occupancy_of (f_sold fm) (f_totalSeats fm) (f_occupancy fm) /\
    occupancy_ok (f_sold fm) (f_totalSeats fm) (f_occupancy fm).
Proof.
  eexists _, _. split; [vm_compute; reflexivity|].
  split; [apply list_elem_of_here|].
  apply (occupancy_bounds sample_rows _ "Alpha" _
           ltac:(vm_compute; reflexivity) ltac:(apply list_elem_of_here)).
Defined.

(** C4, counterexample.  A venue whose only show has one category with
    160 seats of which 137 are available: the movie of the final summary
    has 23 seats sold out of 160 and the occupancy [14.37], where
    [round(100 * sold / totalSeats, 2)] is [14.38].  And a venue whose only
    show has one category with 100 seats of which 120 are reported
    available: the movie has 100 seats in total and an occupancy below
    zero. *)
Lemma occupancy_off_formula_and_range :
  (exists out fm,
     one_venue_run (one_show_payload [category 160 137 200]) = Ok out /\
     ("Alpha", fm) ∈ out_summary out /\
     f_sold fm = 23 /\ f_totalSeats fm = 160 /\
     f_occupancy fm = F64.of_ratio false 1437 100 /\
     occupancy_as_specified (f_sold fm) (f_totalSeats fm)
     = Ok (F64.of_ratio false 1438 100) /\
     Ok (f_occupancy fm) <> occupancy_as_specified (f_sold fm) (f_totalSeats fm)) /\
  (exists out fm,
     one_venue_run (one_show_payload [category 100 120 200]) = Ok out /\
     ("Alpha", fm) ∈ out_summary out /\
     0 < f_totalSeats fm /\
     f_occupancy fm = F64.of_Z (-20) /\
     ~ occupancy_in_range (f_occupancy fm)).
Proof.
  split.
  - eexists _, _. split; [vm_compute; reflexivity|]. cbn [out_summary].
    split; [apply list_elem_of_here|]. cbn [snd f_sold f_totalSeats f_occupancy].
    repeat split; [vm_compute; reflexivity .. |].
    vm_compute. discriminate.
  - eexists _, _. split; [vm_compute; reflexivity|]. cbn [out_summary].
    split; [apply list_elem_of_here|]. cbn.
    split; [lia|]. split; [reflexivity|]. by intros [? _].
Qed.

(** ** Classification *)

Lemma tally_counted occ hf ff :
  occ <> S754_nan ->
  let housefull := at_least occ 98 in
  let fastfilling := at_least occ 50 && F64.ltb occ (F64.of_Z 98) in
  housefull && fastfilling = false /\
  counted housefull hf (tally occ hf ff).1 /\
  counted fastfilling ff (tally occ hf ff).2.
Proof.
  intros Hnan. cbn zeta. rewrite (ltb_negb_leb occ (F64.of_Z 98)) by done.
  unfold tally, counted, at_least.
  destruct (F64.leb (F64.of_Z 98) occ), (F64.leb (F64.of_Z 50) occ); by cbn.
Qed.

Lemma bucket_at_upsert {K} `{EqDecision K} (k : K) f (d : list (K * Bucket)) :
  bucket_at k (dict_upsert k new_bucket f d) = f (bucket_at k d).
Proof.
  unfold bucket_at. rewrite dict_get_upsert. by destruct (decide (k = k)).
Qed.

(** C3.  When the accumulation loop processes a row of occupancy [occ],
    then in the movie's bucket, in its (city, state) bucket, in its
    language bucket and in its format bucket the [housefull] counter is
    incremented exactly when [occ >= 98], the [fastfilling] counter exactly
    when [50 <= occ < 98], and the two conditions never hold together. *)
Theorem classification_per_bucket (summary s' : list (string * MovieAcc))
    (r : ShowRecord) :
  summary_step summary r = Ok s' ->
  exists occ,
    calc_occupancy (sold r) (totalSeats r) = Ok occ /\
    let housefull := at_least occ 98 in
    let fastfilling := at_least occ 50 && F64.ltb occ (F64.of_Z 98) in
    let m := movie_at (movie r) summary in
    let m' := movie_at (movie r) s' in
    housefull && fastfilling = false /\
    (counted housefull (m_housefull m) (m_housefull m') /\
     counted fastfilling (m_fastfilling m) (m_fastfilling m')) /\
    (counted housefull
       (b_housefull (bucket_at (city r, state r) (m_details m)))
       (b_housefull (bucket_at (city r, state r) (m_details m'))) /\
     counted fastfilling
       (b_fastfilling (bucket_at (city r, state r) (m_details m)))
       (b_fastfilling (bucket_at (city r, state r) (m_details m')))) /\
    (counted housefull
       (b_housefull (bucket_at (language r) (m_Language_details m)))
       (b_housefull (bucket_at (language r) (m_Language_details m'))) /\
     counted fastfilling
       (b_fastfilling (bucket_at (language r) (m_Language_details m)))
       (b_fastfilling (bucket_at (language r) (m_Language_details m')))) /\
    (counted housefull
       (b_housefull (bucket_at (dimension r) (m_Format_details m)))
       (b_housefull (bucket_at (dimension r) (m_Format_details m'))) /\
     counted fastfilling
       (b_fastfilling (bucket_at (dimension r) (m_Format_details m)))
       (b_fastfilling (bucket_at (dimension r) (m_Format_details m')))).
Proof.
  intros (occ & Hocc & [= <-])%bind_Ok. exists occ. split; [done|].
  pose proof (calc_occupancy_not_nan _ _ _ Hocc) as Hnan.
  cbn zeta. unfold movie_at at 2 4 6 8 10 12 14 16.
  rewrite dict_get_upsert. destruct (decide (movie r = movie r)); [|done].
  fold (movie_at (movie r) summary). cbn [default].
  set (m := movie_at (movie r) summary). unfold id.
  cbn [movie_add m_housefull m_fastfilling m_details m_Language_details
         m_Format_details].
  rewrite !bucket_at_upsert. cbn [bucket_add b_housefull b_fastfilling].
  pose proof (tally_counted occ) as Ht. cbn zeta in Ht.
  split; [apply (Ht 0 0 Hnan)|].
  repeat split; apply Ht; done.
Qed.

Lemma classification_per_bucket_witness :
  exists occ,
    calc_occupancy (sold sample_first) (totalSeats sample_first) = Ok occ /\
    counted (at_least occ 98)
      (m_housefull (movie_at "Alpha" []))
      (m_housefull (movie_at "Alpha" sample_first_step)) /\
    counted (at_least occ 50 && F64.ltb occ (F64.of_Z 98))
      (b_fastfilling (bucket_at "Hindi" []))
      (b_fastfilling (bucket_at "Hindi"
         (m_Language_details (movie_at "Alpha" sample_first_step)))).
Proof.
  destruct (classification_per_bucket [] sample_first_step sample_first
              ltac:(vm_compute; reflexivity))
    as (occ & Hocc & _ & (Hhf & _) & _ & (_ & Hff) & _).
  exists occ. split; [exact Hocc|]. split; [exact Hhf | exact Hff].
Defined.

(** ** The parser *)

(** C10.  A payload whose [ShowDetails] is a list with a first element
    parses as the payload in which [ShowDetails] is cut down to that first
    element: the venue block and the events are read from [sd[0]] only, and
    no row comes from a later element. *)
Theorem only_first_show_details (DATE_CODE : string)
    (kv : list (string * pyval)) (x : pyval) (rest : list pyval) :
  dict_get "ShowDetails" kv = Some (JArr (x :: rest)) ->
  parse_payload DATE_CODE (JObj kv) =
  parse_payload DATE_CODE (JObj (dict_set "ShowDetails" (JArr [x]) kv)).
Proof.
  intros Hsd. unfold parse_payload, Py.get.
  rewrite dict_get_set, Hsd. by destruct (decide _).
Qed.

Lemma only_first_show_details_witness :
  parse_payload "20260101"
    (JObj [("ShowDetails", JArr [first_block; second_block])]) =
  parse_payload "20260101" (JObj [("ShowDetails", JArr [first_block])]).
Proof.
  apply (only_first_show_details "20260101"
           [("ShowDetails", JArr [first_block; second_block])]
           first_block [second_block]).
  reflexivity.
Defined.

Lemma sum_categories_spec acc cats t :
  sum_categories acc cats = Ok t ->
  exists fields,
    Forall2 (fun c f => category_fields c = Ok f) cats fields /\
    st_total t = st_total acc + total (fun f => f.1.1) fields /\
    st_avail t = st_avail acc + total (fun f => f.1.2) fields /\
    st_sold t = st_sold acc + total (fun f => f.1.1 - f.1.2) fields /\
    gross_sum (st_gross acc) fields = Ok (st_gross t).
Proof.
  revert acc. induction cats as [|cat cats IH]; intros acc; simpl.
  - intros [= <-]. exists []. repeat split; [constructor | simpl; lia..].
  - intros (c & Hc & (acc' & Hacc & Hrest)%bind_Ok)%bind_Ok.
    destruct (IH _ Hrest) as (fields & Hf & Ht & Ha & Hs & Hg).
    destruct c as [[seats free] price]. unfold add_category in Hacc.
    apply bind_Ok in Hacc as (x & Hx & [= <-]). simpl in *.
    exists ((seats, free, price) :: fields). simpl. rewrite Hx. simpl.
    repeat split; [by constructor | lia..| done].
Qed.

(** A show time on the date yields exactly one row. *)
Lemma parse_show_on_date DATE_CODE title vn va chn dim lang sh rs :
  parse_show DATE_CODE title vn va chn dim lang sh = Ok rs ->
  on_date DATE_CODE sh ->
  exists r, rs = [r] /\ sums_of sh r /\
    movie r = title /\ venue r = vn /\ address r = va /\ chain r = chn /\
    dimension r = dim /\ language r = lang /\
    attributes_or_empty sh = Ok (audi r).
Proof.
  unfold parse_show, on_date. intros Hp Hd. rewrite Hd in Hp. simpl in Hp.
  rewrite String.eqb_refl in Hp.
  apply bind_Ok in Hp as (cats & Hcats & Hp).
  apply bind_Ok in Hp as (t & Ht & Hp).
  apply bind_Ok in Hp as (tm & Htm & Hp).
  apply bind_Ok in Hp as (au & Hau & Hp).
  apply bind_Ok in Hp as (sid & Hsid & [= <-]).
  eexists. split; [done|]. simpl. split; [|done].
  destruct (sum_categories_spec _ _ _ Ht) as (fields & Hf & H1 & H2 & H3 & Hg).
  exists cats, fields, (st_gross t). simpl in *. by repeat split.
Qed.

(** Every row comes from a show time on the date. *)
Lemma parse_show_elem DATE_CODE title vn va chn dim lang sh rs r :
  parse_show DATE_CODE title vn va chn dim lang sh = Ok rs -> r ∈ rs ->
  on_date DATE_CODE sh.
Proof.
  unfold parse_show, on_date. intros (code & Hc & Hp)%bind_Ok Hr.
  rewrite Hc. destruct code as [| | | |c| |];
    try (injection Hp as <-; by apply elem_of_nil in Hr).
  destruct (String.eqb_spec c DATE_CODE) as [->|]; [done|].
  injection Hp as <-. by apply elem_of_nil in Hr.
Qed.

Lemma first_truthy sd sd0 : Py.first sd = Ok sd0 -> Py.truthy sd = true.
Proof. by destruct sd as [| | | |[]|[]|]. Qed.

(** Soundness of the traversal: a row of the result is the row of a show
    time of the payload that is on the date. *)
Lemma parse_payload_sound DATE_CODE data rows r :
  parse_payload DATE_CODE data = Ok rows -> r ∈ rows ->
  exists ch sh dim lang,
    show_of data ch sh /\ on_date DATE_CODE sh /\ sums_of sh r /\
    stripped_or_unknown ch "EventDimension" = Ok dim /\ dimension r = dim /\
    stripped_or_unknown ch "EventLanguage" = Ok lang /\ language r = lang /\
    attributes_or_empty sh = Ok (audi r).
Proof.
  unfold parse_payload. intros (sd & Hsd & Hp)%bind_Ok Hr.
  destruct (Py.truthy sd) eqn:Htr; simpl in Hp;
    [|injection Hp as <-; by apply elem_of_nil in Hr].
  apply bind_Ok in Hp as (sd0 & Hsd0 & Hp).
  apply bind_Ok in Hp as (ven & Hven & Hp).
  apply bind_Ok in Hp as (vn & Hvn & Hp).
  apply bind_Ok in Hp as (va & Hva & Hp).
  apply bind_Ok in Hp as (chn & Hchn & Hp).
  apply bind_Ok in Hp as (evs & Hevs & Hp).
  destruct (for_each_elem _ _ _ _ Hp Hr) as (ev & rs1 & Hev & Hpe & Hr1).
  unfold parse_event in Hpe.
  apply bind_Ok in Hpe as (title & Htitle & Hpe).
  apply bind_Ok in Hpe as (chs & Hchs & Hpe).
  destruct (for_each_elem _ _ _ _ Hpe Hr1) as (ch & rs2 & Hch & Hpc & Hr2).
  unfold parse_child in Hpc.
  apply bind_Ok in Hpc as (dim & Hdim & Hpc).
  apply bind_Ok in Hpc as (lang & Hlang & Hpc).
  apply bind_Ok in Hpc as (shs & Hshs & Hpc).
  destruct (for_each_elem _ _ _ _ Hpc Hr2) as (sh & rs3 & Hsh & Hps & Hr3).
  pose proof (parse_show_elem _ _ _ _ _ _ _ _ _ _ Hps Hr3) as Hdate.
  destruct (parse_show_on_date _ _ _ _ _ _ _ _ _ Hps Hdate)
    as (r' & -> & Hsums & _ & _ & _ & _ & Hd & Hl & Ha).
  apply list_elem_of_singleton in Hr3 as ->.
  exists ch, sh, dim, lang. split; [|done].
  by exists sd, sd0, evs, ev, chs, shs.
Qed.

(** Completeness of the traversal: every show time of the payload that is
    on the date has its row in the result. *)
Lemma parse_payload_complete DATE_CODE data rows ch sh :
  parse_payload DATE_CODE data = Ok rows ->
  show_of data ch sh -> on_date DATE_CODE sh ->
  exists r, r ∈ rows /\ sums_of sh r /\
    stripped_or_unknown ch "EventDimension" = Ok (dimension r) /\
    stripped_or_unknown ch "EventLanguage" = Ok (language r) /\
    attributes_or_empty sh = Ok (audi r).
Proof.
  unfold parse_payload.
  intros (sd & Hsd & Hp)%bind_Ok
         (sd' & sd0 & evs & ev & chs & shs & Hsd' & Hsd0 & Hevs & Hev & Hchs
          & Hch & Hshs & Hsh) Hdate.
  rewrite Hsd in Hsd'. injection Hsd' as <-.
  rewrite (first_truthy _ _ Hsd0) in Hp. simpl in Hp. rewrite Hsd0 in Hp.
  simpl in Hp.
  apply bind_Ok in Hp as (ven & Hven & Hp).
  apply bind_Ok in Hp as (vn & Hvn & Hp).
  apply bind_Ok in Hp as (va & Hva & Hp).
  apply bind_Ok in Hp as (chn & Hchn & Hp).
  rewrite Hevs in Hp. simpl in Hp.
  destruct (for_each_complete _ _ _ _ Hp Hev) as (rs1 & Hpe & Hsub1).
  unfold parse_event in Hpe.
  apply bind_Ok in Hpe as (title & Htitle & Hpe).
  rewrite Hchs in Hpe. simpl in Hpe.
  destruct (for_each_complete _ _ _ _ Hpe Hch) as (rs2 & Hpc & Hsub2).
  unfold parse_child in Hpc.
  apply bind_Ok in Hpc as (dim & Hdim & Hpc).
  apply bind_Ok in Hpc as (lang & Hlang & Hpc).
  rewrite Hshs in Hpc. simpl in Hpc.
  destruct (for_each_complete _ _ _ _ Hpc Hsh) as (rs3 & Hps & Hsub3).
  destruct (parse_show_on_date _ _ _ _ _ _ _ _ _ Hps Hdate)
    as (r & -> & Hsums & _ & _ & _ & _ & Hd & Hl & Ha).
  exists r. split.
  { apply Hsub1, Hsub2, Hsub3, list_elem_of_here. }
  split; [done|]. by rewrite Hd, Hl.
Qed.

Lemma category_fields_defaults kv seats free price :
  category_fields (JObj kv) = Ok (seats, free, price) ->
  (dict_get "MaxSeats" kv = None -> seats = 0) /\
  (dict_get "SeatsAvail" kv = None -> free = 0) /\
  (dict_get "CurPrice" kv = None -> price = F64.zero).
Proof.
  unfold category_fields, Py.get.
  intros (s & Hs & (f & Hf & (p & Hp & [= <- <- <-])%bind_Ok)%bind_Ok)%bind_Ok.
  repeat split; intros Hnone; rewrite Hnone in *; cbn in *;
    [by injection Hs | by injection Hf | by injection Hp].
Qed.

(** C5.  For every show-time entry of the payload that passes the date
    filter, the result holds a row whose [totalSeats], [available] and
    [sold] are the sums over the categories of the entry of the capacity,
    of the available seats and of their difference, and whose [gross] is
    the float sum of (capacity - available) * price, kept at two decimals;
    a numeric field missing from a category counts as zero; and the
    payload of scenario A yields the one row with 100 seats, 98 sold, 2
    available and a gross of 19600.0, whose occupancy 98.0 counts as
    housefull. *)
Theorem category_sums (DATE_CODE : string) (data : pyval)
    (rows : list ParsedShow) (ch sh : pyval) :
  parse_payload DATE_CODE data = Ok rows ->
  show_of data ch sh ->
  on_date DATE_CODE sh ->
  (exists r, r ∈ rows /\ sums_of sh r) /\
  (forall kv seats free price,
     category_fields (JObj kv) = Ok (seats, free, price) ->
     (dict_get "MaxSeats" kv = None -> seats = 0) /\
     (dict_get "SeatsAvail" kv = None -> free = 0) /\
     (dict_get "CurPrice" kv = None -> price = F64.zero)) /\
  (exists r,
     parse_payload "20260101" (one_show_payload [category 100 2 200]) = Ok [r] /\
     totalSeats r = 100 /\ sold r = 98 /\ available r = 2 /\
     gross r = F64.of_Z 19600 /\
     calc_occupancy (sold r) (totalSeats r) = Ok (F64.of_Z 98) /\
     tally (F64.of_Z 98) 0 0 = (1, 0)).
Proof.
  intros Hp Hshow Hdate. split; [|split].
  - destruct (parse_payload_complete _ _ _ _ _ Hp Hshow Hdate)
      as (r & Hr & Hs & _). by exists r.
  - apply category_fields_defaults.
  - eexists. split; [vm_compute; reflexivity|]. by vm_compute.
Qed.

Lemma category_sums_witness :
  exists r,
    parse_payload "20260101" (one_show_payload [category 100 2 200]) = Ok [r] /\
    sums_of (sample_show_time [category 100 2 200]) r.
Proof.
  assert (Hshow : show_of (one_show_payload [category 100 2 200])
                    (sample_child [category 100 2 200])
                    (sample_show_time [category 100 2 200])).
  { do 6 eexists.
    split; [reflexivity|]. split; [reflexivity|].
    split; [reflexivity|]. split; [apply list_elem_of_here|].
    split; [reflexivity|]. split; [apply list_elem_of_here|].
    split; [reflexivity|]. apply list_elem_of_here. }
  destruct (category_sums "20260101" (one_show_payload [category 100 2 200])
              _ _ _ ltac:(vm_compute; reflexivity) Hshow ltac:(reflexivity))
    as ((r & Hr & Hs) & _).
  apply list_elem_of_singleton in Hr as ->.
  eexists. split; [vm_compute; reflexivity | exact Hs].
Defined.

Lemma stripped_or_unknown_spec v k t :
  stripped_or_unknown v k = Ok t ->
  exists kv, v = JObj kv /\ unknown_if_blank (dict_get k kv) t.
Proof.
  unfold stripped_or_unknown, Py.get. destruct v as [| | | | | |kv]; try done.
  simpl. exists kv. split; [done|].
  destruct (dict_get k kv) as [x|] eqn:Hk; simpl in *.
  - destruct x as [| | | |s| |]; try done. right. exists s. split; [done|].
    by injection H as <-.
  - left. split; [done|]. by injection H as <-.
Qed.

Lemma attributes_or_empty_spec sh t :
  attributes_or_empty sh = Ok t ->
  exists kv, sh = JObj kv /\ empty_if_missing (dict_get "Attributes" kv) t.
Proof.
  unfold attributes_or_empty, Py.get. destruct sh as [| | | | | |kv]; try done.
  simpl. exists kv. split; [done|].
  destruct (dict_get "Attributes" kv) as [x|] eqn:Hk; simpl in *.
  - destruct (Py.truthy x) eqn:Htr.
    + destruct x as [| | | |s| |]; try done. injection H as <-.
      right; right. exists s. split; [done|]. split; [|done]. by intros ->.
    + injection H as <-. right; left. by exists x.
  - injection H as <-. by left.
Qed.

(** C6 (as amended).  Every parsed row comes from a child event and a
    show-time entry of the payload such that: [dimension] and [language]
    are ["UNKNOWN"] when the child event lacks the field or holds a blank
    string, and the trimmed string otherwise; [audi] is the empty string
    when the show-time entry lacks [Attributes] or holds a false value
    there, and the string as it is otherwise. *)
Theorem missing_text_defaults (DATE_CODE : string) (data : pyval)
    (rows : list ParsedShow) (r : ParsedShow) :
  parse_payload DATE_CODE data = Ok rows ->
  r ∈ rows ->
  exists ch sh,
    show_of data (JObj ch) (JObj sh) /\
    unknown_if_blank (dict_get "EventDimension" ch) (dimension r) /\
    unknown_if_blank (dict_get "EventLanguage" ch) (language r) /\
    empty_if_missing (dict_get "Attributes" sh) (audi r).
Proof.
  intros Hp Hr.
  destruct (parse_payload_sound _ _ _ _ Hp Hr)
    as (ch & sh & dim & lang & Hshow & _ & _ & Hd & <- & Hl & <- & Ha).
  apply stripped_or_unknown_spec in Hd as (kv & -> & Hd).
  apply stripped_or_unknown_spec in Hl as (kv' & [= <-] & Hl).
  apply attributes_or_empty_spec in Ha as (kvs & -> & Ha).
  by exists kv, kvs.
Qed.

Lemma missing_text_defaults_witness :
  exists r ch sh,
    parse_payload "20260101" (one_show_payload [category 100 2 200]) = Ok [r] /\
    show_of (one_show_payload [category 100 2 200]) (JObj ch) (JObj sh) /\
    unknown_if_blank (dict_get "EventDimension" ch) (dimension r) /\
    empty_if_missing (dict_get "Attributes" sh) (audi r).
Proof.
  eexists. 
  destruct (missing_text_defaults "20260101"
              (one_show_payload [category 100 2 200]) _ _
              ltac:(vm_compute; reflexivity) ltac:(apply list_elem_of_here))
    as (ch & sh & Hshow & Hd & _ & Ha).
  exists ch, sh. split; [reflexivity|]. split; [exact Hshow|].
  split; [exact Hd | exact Ha].
Defined.

(** C6, counterexample.  The show-time entry of the sample payload has no
    [Attributes]: the row's [audi] is the empty string, not ["UNKNOWN"]. *)
Lemma missing_auditorium_is_empty :
  exists r,
    parse_payload "20260101" (one_show_payload [category 100 2 200]) = Ok [r] /\
    Py.get (sample_show_time [category 100 2 200]) "Attributes" JNull = Ok JNull /\
    audi r = "" /\ audi r <> "UNKNOWN".
Proof. eexists. split; [vm_compute; reflexivity|]. by repeat split. Qed.

(** ** Payloads that parse *)

Section WellFormed.
Variable DATE_CODE : string.















End WellFormed.





(** ** Order of the rows *)

Section DictRel.
Context {K V : Type} `{EqDecision K}.
Implicit Types (k : K) (v : V) (d : list (K * V)) (R : V -> V -> Prop).

Lemma elem_of_dict_keys k d : k ∈ dict_keys d <-> is_Some (dict_get k d).
Proof.
  unfold dict_keys. induction d as [|[k0 v0] d IH]; simpl.
  - split; [by intros ?%elem_of_nil | by intros [? ?]].
  - rewrite elem_of_cons, IH. destruct (decide (k = k0)) as [->|].
    + split; [by eexists | by left].
    + split; [by intros [?|?] | by right].
Qed.

Lemma dict_keys_set k v d :
  dict_keys (dict_set k v d) =
  match dict_get k d with
  | Some _ => dict_keys d
  | None => dict_keys d ++ [k]
  end.
Proof.
  unfold dict_keys. induction d as [|[k0 v0] d IH]; cbn [dict_set dict_get]; [done|].
  destruct (decide (k = k0)) as [->|Hne]; [done|].
  rewrite !fmap_cons, IH. by destruct (dict_get k d).
Qed.

Lemma NoDup_dict_set k v d :
  NoDup (dict_keys d) -> NoDup (dict_keys (dict_set k v d)).
Proof.
  intros Hd. rewrite dict_keys_set. destruct (dict_get k d) eqn:Hk; [done|].
  apply NoDup_app. split; [done|]. split; [|apply NoDup_singleton].
  intros x Hx ->%list_elem_of_singleton.
  apply elem_of_dict_keys in Hx as [? Hx]. congruence.
Qed.

Lemma dict_get_elem_of_iff k v d :
  NoDup (dict_keys d) -> (k, v) ∈ d <-> dict_get k d = Some v.
Proof.
  intros Hd. split; [|apply dict_get_elem_of].
  unfold dict_keys in Hd. induction d as [|[k0 v0] d IH]; simpl.
  - by intros ?%elem_of_nil.
  - rewrite fmap_cons in Hd. apply NoDup_cons in Hd as [Hk0 Hd].
    intros [[= -> ->]|Hin]%elem_of_cons.
    + by destruct (decide (k0 = k0)).
    + destruct (decide (k = k0)) as [->|]; [|by apply IH].
      exfalso. apply Hk0. apply list_elem_of_fmap. by exists (k0, v).
Qed.

Lemma dict_rel_refl R d :
  NoDup (dict_keys d) ->
  (forall k v, dict_get k d = Some v -> R v v) ->
  dict_rel R d d.
Proof.
  intros Hd HR. repeat split; [done..|].
  intros k. destruct (dict_get k d) eqn:Hk; constructor. eauto.
Qed.

Lemma dict_rel_trans R d1 d2 d3 :
  Transitive R -> dict_rel R d1 d2 -> dict_rel R d2 d3 -> dict_rel R d1 d3.
Proof.
  intros HR (H1 & _ & H12) (_ & H3 & H23). repeat split; [done..|].
  intros k. by etrans.
Qed.

Lemma dict_rel_sym R d d' :
  Symmetric R -> dict_rel R d d' -> dict_rel R d' d.
Proof. intros HR (H1 & H2 & Hr). repeat split; [done..|]. intros k. by symmetry. Qed.

Lemma dict_rel_default R d d' fresh k :
  R fresh fresh -> dict_rel R d d' ->
  R (default fresh (dict_get k d)) (default fresh (dict_get k d')).
Proof. intros Hf (_ & _ & Hr). by destruct (Hr k). Qed.

(** An update of the entry of one key respects the relation. *)
Lemma dict_rel_upsert R k fresh (f : V -> V) d d' :
  R fresh fresh -> (forall x y, R x y -> R (f x) (f y)) ->
  dict_rel R d d' ->
  dict_rel R (dict_upsert k fresh f d) (dict_upsert k fresh f d').
Proof.
  intros Hfresh Hf Hd. pose proof Hd as (H1 & H2 & Hr).
  repeat split; [by apply NoDup_dict_set..|].
  intros k'. rewrite !dict_get_upsert. destruct (decide (k' = k)); [|done].
  constructor. by apply Hf, dict_rel_default.
Qed.

(** Two updates commute when their effects on one value do. *)
Lemma dict_rel_upsert_comm R k1 k2 fresh (f1 f2 : V -> V) d d' :
  R fresh fresh ->
  (forall x y, R x y -> R (f1 x) (f1 y)) ->
  (forall x y, R x y -> R (f2 x) (f2 y)) ->
  (forall x y, R x y -> R (f1 (f2 x)) (f2 (f1 y))) ->
  dict_rel R d d' ->
  dict_rel R (dict_upsert k1 fresh f1 (dict_upsert k2 fresh f2 d))
             (dict_upsert k2 fresh f2 (dict_upsert k1 fresh f1 d')).
Proof.
  intros Hfresh Hf1 Hf2 Hcomm Hd. pose proof Hd as (H1 & H2 & Hr).
  repeat split; [by do 2 apply NoDup_dict_set..|].
  intros k. rewrite !dict_get_upsert.
  pose proof (dict_rel_default R d d' fresh) as Hdef.
  destruct (decide (k = k1)) as [Hk1|Hk1], (decide (k = k2)) as [Hk2|Hk2];
    subst; repeat case_decide; try done; simpl;
    try constructor; auto.
Qed.

End DictRel.

Lemma union_swap (a b : string) (X : gset string) :
  {[ a ]} ∪ ({[ b ]} ∪ X) = {[ b ]} ∪ ({[ a ]} ∪ X).
Proof. by rewrite !(assoc_L (∪)), (comm_L (∪) {[ a ]}). Qed.

Lemma tally_additive occ hf ff :
  tally occ hf ff = (hf + (tally occ 0 0).1, ff + (tally occ 0 0).2).
Proof.
  unfold tally. destruct (at_least occ 98), (at_least occ 50); simpl; f_equal; lia.
Qed.

#[local] Instance bucket_counts_eq_equiv : Equivalence bucket_counts_eq.
Proof.
  split.
  - by intros b.
  - intros b b' (?&?&?&?&?&?). by repeat split.
  - intros b1 b2 b3 (?&?&?&?&?&?) (?&?&?&?&?&?). repeat split; congruence.
Qed.

Lemma bucket_add_proper r occ b b' :
  bucket_counts_eq b b' ->
  bucket_counts_eq (bucket_add r occ b) (bucket_add r occ b').
Proof.
  intros (Hv & Hs & Hso & Ht & Hf & Hh). unfold bucket_counts_eq. simpl.
  rewrite Hv, Hs, Hso, Ht, Hf, Hh. done.
Qed.

Lemma bucket_add_comm r1 o1 r2 o2 b b' :
  bucket_counts_eq b b' ->
  bucket_counts_eq (bucket_add r1 o1 (bucket_add r2 o2 b))
                   (bucket_add r2 o2 (bucket_add r1 o1 b')).
Proof.
  intros (Hv & Hs & Hso & Ht & Hf & Hh). unfold bucket_counts_eq. simpl.
  rewrite Hv, Hs, Hso, Ht, Hf, Hh. clear Hv Hs Hso Ht Hf Hh.
  rewrite (tally_additive o1 (tally _ _ _).1 (tally _ _ _).2).
  rewrite (tally_additive o2 (tally _ _ _).1 (tally _ _ _).2).
  rewrite (tally_additive o1 (b_housefull b')), (tally_additive o2 (b_housefull b')).
  simpl. repeat split; try lia. apply union_swap.
Qed.

Lemma buckets_upsert_proper {K} `{EqDecision K} (k : K) r occ d d' :
  dict_rel bucket_counts_eq d d' ->
  dict_rel bucket_counts_eq (dict_upsert k new_bucket (bucket_add r occ) d)
                            (dict_upsert k new_bucket (bucket_add r occ) d').
Proof. apply dict_rel_upsert; [done|]. apply bucket_add_proper. Qed.

Lemma buckets_upsert_comm {K} `{EqDecision K} (k1 k2 : K) r1 o1 r2 o2 d d' :
  dict_rel bucket_counts_eq d d' ->
  dict_rel bucket_counts_eq
    (dict_upsert k1 new_bucket (bucket_add r1 o1)
       (dict_upsert k2 new_bucket (bucket_add r2 o2) d))
    (dict_upsert k2 new_bucket (bucket_add r2 o2)
       (dict_upsert k1 new_bucket (bucket_add r1 o1) d')).
Proof.
  apply dict_rel_upsert_comm;
    [done | apply bucket_add_proper | apply bucket_add_proper | apply bucket_add_comm].
Qed.

(** Splits the equations of [movie_counts_eq], leaving its three dicts. *)
Ltac split_counts :=
  unfold movie_counts_eq;
  repeat lazymatch goal with |- (_ = _) /\ _ => split end.

Lemma movie_counts_eq_new : movie_counts_eq new_movie new_movie.
Proof.
  split_counts; try done.
  split; [|split]; (apply dict_rel_refl; [apply NoDup_nil_2 | done]).
Qed.

Lemma movie_counts_eq_sym m m' : movie_counts_eq m m' -> movie_counts_eq m' m.
Proof.
  intros (?&?&?&?&?&?&?&?&?&?). split_counts; try done.
  split; [|split]; by apply dict_rel_sym; [apply _|].
Qed.

Lemma movie_counts_eq_trans m1 m2 m3 :
  movie_counts_eq m1 m2 -> movie_counts_eq m2 m3 -> movie_counts_eq m1 m3.
Proof.
  intros (?&?&?&?&?&?&?&?&?&?) (?&?&?&?&?&?&?&?&?&?).
  split_counts; try congruence.
  split; [|split]; by eapply dict_rel_trans; [apply _|..].
Qed.

#[local] Instance movie_counts_eq_symmetric : Symmetric movie_counts_eq.
Proof. intros m m'. apply movie_counts_eq_sym. Qed.

#[local] Instance movie_counts_eq_transitive : Transitive movie_counts_eq.
Proof. intros m1 m2 m3. apply movie_counts_eq_trans. Qed.

Lemma movie_add_proper r occ m m' :
  movie_counts_eq m m' ->
  movie_counts_eq (movie_add r occ m) (movie_add r occ m').
Proof.
  intros (H1&H2&H3&H4&H5&H6&H7&Hd&Hl&Hf). unfold movie_counts_eq. simpl.
  rewrite H1, H2, H3, H4, H5, H6, H7. split_counts; try done.
  split; [|split]; by apply buckets_upsert_proper.
Qed.

Lemma movie_add_comm r1 o1 r2 o2 m m' :
  movie_counts_eq m m' ->
  movie_counts_eq (movie_add r1 o1 (movie_add r2 o2 m))
                  (movie_add r2 o2 (movie_add r1 o1 m')).
Proof.
  intros (H1&H2&H3&H4&H5&H6&H7&Hd&Hl&Hf). unfold movie_counts_eq. simpl.
  rewrite H1, H2, H3, H4, H5, H6, H7. clear H1 H2 H3 H4 H5 H6 H7.
  rewrite (tally_additive o1 (tally _ _ _).1 (tally _ _ _).2).
  rewrite (tally_additive o2 (tally _ _ _).1 (tally _ _ _).2).
  rewrite (tally_additive o1 (m_housefull m')), (tally_additive o2 (m_housefull m')).
  simpl. split_counts; try lia; try apply union_swap.
  split; [|split]; by apply buckets_upsert_comm.
Qed.

Lemma step_pure_proper r s s' :
  dict_rel movie_counts_eq s s' ->
  dict_rel movie_counts_eq (step_pure s r) (step_pure s' r).
Proof.
  apply dict_rel_upsert; [apply movie_counts_eq_new|]. apply movie_add_proper.
Qed.

Lemma step_pure_comm r1 r2 s s' :
  dict_rel movie_counts_eq s s' ->
  dict_rel movie_counts_eq (step_pure (step_pure s r2) r1)
                           (step_pure (step_pure s' r1) r2).
Proof.
  apply dict_rel_upsert_comm;
    [apply movie_counts_eq_new | apply movie_add_proper | apply movie_add_proper
    | apply movie_add_comm].
Qed.

Lemma foldl_step_pure_proper rows s s' :
  dict_rel movie_counts_eq s s' ->
  dict_rel movie_counts_eq (foldl step_pure s rows) (foldl step_pure s' rows).
Proof.
  revert s s'. induction rows as [|r rows IH]; intros s s' Hs; simpl; [done|].
  by apply IH, step_pure_proper.
Qed.

(** The accumulated counts do not depend on the order of the rows. *)
Lemma foldl_step_pure_perm rows rows' :
  rows ≡ₚ rows' ->
  forall s s', dict_rel movie_counts_eq s s' ->
    dict_rel movie_counts_eq (foldl step_pure s rows) (foldl step_pure s' rows').
Proof.
  induction 1 as [|r rows rows' _ IH|r1 r2 rows|rows1 rows2 rows3 _ IH1 _ IH2];
    intros s s' Hs; simpl.
  - done.
  - by apply IH, step_pure_proper.
  - by apply foldl_step_pure_proper, step_pure_comm.
  - eapply dict_rel_trans; [apply _ | apply IH1, Hs | apply IH2].
    eapply dict_rel_trans; [apply _ | |exact Hs].
    by apply dict_rel_sym; [apply _|].
Qed.

Lemma summary_step_pure s r :
  summary_step s r =
  if decide (is_Ok (calc_occupancy (sold r) (totalSeats r)))
  then Ok (step_pure s r)
  else _ ← calc_occupancy (sold r) (totalSeats r); Ok s.
Proof.
  unfold summary_step, step_pure, occ_of.
  by destruct (calc_occupancy (sold r) (totalSeats r)) as [occ| |].
Qed.

Lemma accumulate_pure rows s s' :
  accumulate s rows = Ok s' <->
  Forall (fun r : ShowRecord => is_Ok (calc_occupancy (sold r) (totalSeats r))) rows /\
  s' = foldl step_pure s rows.
Proof.
  revert s. induction rows as [|r rows IH]; intros s; simpl.
  - split; [intros [= <-]; by split | by intros [_ ->]].
  - rewrite summary_step_pure. case_decide as Hd; simpl.
    + rewrite IH. split.
      * intros [Hall ->]. split; [|done]. by constructor.
      * intros [Hall ->]. split; [|done]. by inversion Hall.
    + split.
      * intros (x & Hx & _)%bind_Ok. apply bind_Ok in Hx as (occ & Hocc & _).
        exfalso. apply Hd. by eexists.
      * intros [Hall _]. by inversion Hall.
Qed.

Lemma final_bucket_rel {K} (k : K) b b' fb :
  bucket_counts_eq b b' -> final_bucket (k, b) = Ok fb ->
  exists fb', final_bucket (k, b') = Ok fb' /\ without_gross fb' = without_gross fb.
Proof.
  intros (Hv & Hs & Hso & Ht & Hf & Hh) (occ & Hocc & [= <-])%bind_Ok.
  unfold final_bucket. simpl in *. rewrite <- Hso, <- Ht, Hocc. simpl.
  eexists. split; [done|]. unfold without_gross. simpl.
  by rewrite Hv, Hs, Hso, Ht, Hf, Hh.
Qed.

Lemma final_buckets_labels {K} (d : list (K * Bucket)) (l : list (FinalBucket K)) :
  mapM final_bucket d = Ok l -> fb_label <$> l = dict_keys d.
Proof.
  intros H%mapM_Ok. unfold dict_keys.
  induction H as [|[k b] fb d l Hfb _ IH]; [done|].
  rewrite !fmap_cons. f_equal; [|exact IH].
  by apply final_bucket_fields in Hfb as (-> & _).
Qed.

(** The entries made from [d] are, up to [gross], among those made from a
    related dict. *)
Lemma final_buckets_incl {K} `{EqDecision K} (d d' : list (K * Bucket))
    (l l' : list (FinalBucket K)) (x : FinalBucket K) :
  dict_rel bucket_counts_eq d d' ->
  mapM final_bucket d = Ok l -> mapM final_bucket d' = Ok l' ->
  x ∈ without_gross <$> l -> x ∈ without_gross <$> l'.
Proof.
  intros (Hd & Hd' & Hr) Hl%mapM_Ok Hl'%mapM_Ok
         (fb & -> & [i Hi]%list_elem_of_lookup)%list_elem_of_fmap.
  destruct (Forall2_lookup_r _ _ _ _ _ Hl Hi) as ([k b] & Hkb & Hfb).
  apply list_elem_of_lookup_2, dict_get_elem_of_iff in Hkb; [|done].
  specialize (Hr k). rewrite Hkb in Hr.
  inversion Hr as [? b' Hbb' Heq1 Heq2|]; subst. symmetry in Heq2.
  apply dict_get_elem_of, list_elem_of_lookup in Heq2 as [j Hj].
  destruct (Forall2_lookup_l _ _ _ _ _ Hl' Hj) as (fb2 & Hfb2 & Hfin2).
  destruct (final_bucket_rel k b b' fb Hbb' Hfb) as (fb' & Hfb' & Heq).
  rewrite Hfin2 in Hfb'. injection Hfb' as <-.
  rewrite <- Heq. apply list_elem_of_fmap_2. by eapply list_elem_of_lookup_2.
Qed.

Lemma final_buckets_rel {K} `{EqDecision K} (d d' : list (K * Bucket))
    (l : list (FinalBucket K)) :
  dict_rel bucket_counts_eq d d' ->
  mapM final_bucket d = Ok l ->
  exists l', mapM final_bucket d' = Ok l' /\
             without_gross <$> l ≡ₚ without_gross <$> l'.
Proof.
  intros Hrel Hl. pose proof Hrel as (Hd & Hd' & Hr).
  assert (Hex : is_Ok (mapM final_bucket d')).
  { apply mapM_is_Ok, Forall_forall. intros [k b'] Hin.
    apply dict_get_elem_of_iff in Hin; [|done].
    specialize (Hr k). rewrite Hin in Hr.
    inversion Hr as [b ? Hbb' Heq1 Heq2|]; subst. symmetry in Heq1.
    apply dict_get_elem_of, list_elem_of_lookup in Heq1 as [j Hj].
    destruct (Forall2_lookup_l _ _ _ _ _ (mapM_Ok _ _ _ Hl) Hj) as (fb & _ & Hfb).
    destruct (final_bucket_rel k b b' fb Hbb' Hfb) as (fb' & Hfb' & _).
    by exists fb'. }
  destruct Hex as (l' & Hl'). exists l'. split; [done|].
  assert (Hnd : forall (e : list (K * Bucket)) k,
             NoDup (dict_keys e) -> mapM final_bucket e = Ok k ->
             NoDup (without_gross <$> k)).
  { intros e k He Hk. apply (NoDup_fmap_1 fb_label).
    rewrite <- list_fmap_compose.
    replace (fb_label ∘ without_gross) with (@fb_label K) by done.
    by rewrite (final_buckets_labels e k Hk). }
  apply NoDup_Permutation; [exact (Hnd d l Hd Hl) | exact (Hnd d' l' Hd' Hl')|].
  intros x. split.
  - by eapply final_buckets_incl.
  - eapply final_buckets_incl; [|done..]. by apply dict_rel_sym; [apply _|].
Qed.

Lemma final_movie_rel m m' fm :
  movie_counts_eq m m' -> final_movie m = Ok fm ->
  exists fm', final_movie m' = Ok fm' /\ same_but_gross fm fm'.
Proof.
  intros (H1&H2&H3&H4&H5&H6&H7&Hd&Hl&Hf) (occ & Hocc & Hfm)%bind_Ok.
  apply bind_Ok in Hfm as (cs & Hcs & Hfm).
  apply bind_Ok in Hfm as (ls & Hls & Hfm).
  apply bind_Ok in Hfm as (fs & Hfs & [= <-]).
  destruct (final_buckets_rel _ _ _ Hd Hcs) as (cs' & Hcs' & Pc).
  destruct (final_buckets_rel _ _ _ Hl Hls) as (ls' & Hls' & Pl).
  destruct (final_buckets_rel _ _ _ Hf Hfs) as (fs' & Hfs' & Pf).
  unfold final_movie. rewrite <- H2, <- H3, Hocc, Hcs', Hls', Hfs'. simpl.
  eexists. split; [done|]. unfold same_but_gross. simpl.
  by rewrite H1, H4, H5, H6, H7.
Qed.

Lemma final_summary_get summary fs title :
  final_summary summary = Ok fs ->
  match dict_get title summary with
  | Some m => exists fm, final_movie m = Ok fm /\ dict_get title fs = Some fm
  | None => dict_get title fs = None
  end.
Proof.
  intros H%mapM_Ok. induction H as [|[k m] [k' fm] s fs' Hfm _ IH]; simpl; [done|].
  apply bind_Ok in Hfm as (fm' & Hfm & [= <- <-]). simpl.
  destruct (decide (title = k)); [by exists fm'|]. apply IH.
Qed.

Lemma final_summary_rel s s' fs :
  dict_rel movie_counts_eq s s' ->
  final_summary s = Ok fs ->
  exists fs', final_summary s' = Ok fs' /\
    forall title, option_Forall2 same_but_gross (dict_get title fs) (dict_get title fs').
Proof.
  intros (Hs & Hs' & Hr) Hfs.
  assert (Hex : is_Ok (final_summary s')).
  { apply mapM_is_Ok, Forall_forall. intros [k m'] Hin.
    apply dict_get_elem_of_iff in Hin; [|done].
    specialize (Hr k). rewrite Hin in Hr.
    inversion Hr as [m ? Hmm' Heq1 Heq2|]; subst. symmetry in Heq1.
    pose proof (final_summary_get _ _ k Hfs) as Hget. rewrite Heq1 in Hget.
    destruct Hget as (fm & Hfm & _).
    destruct (final_movie_rel _ _ _ Hmm' Hfm) as (fm' & Hfm' & _).
    simpl. rewrite Hfm'. by eexists. }
  destruct Hex as (fs' & Hfs'). exists fs'. split; [done|].
  intros title.
  pose proof (final_summary_get _ _ title Hfs) as Hg.
  pose proof (final_summary_get _ _ title Hfs') as Hg'.
  destruct (Hr title) as [m m' Hmm'|].
  - destruct Hg as (fm & Hfm & ->), Hg' as (fm' & Hfm' & ->).
    constructor.
    destruct (final_movie_rel _ _ _ Hmm' Hfm) as (fm2 & Hfm2 & Hsame).
    rewrite Hfm' in Hfm2. by injection Hfm2 as <-.
  - rewrite Hg, Hg'. constructor.
Qed.

(** C8 (as amended).  Aggregating a permutation of the rows returns when
    aggregating the rows does, and the two final summaries hold the same
    movies with the same [shows], [sold], [totalSeats], [venues],
    [cities], [fastfilling], [housefull] and [occupancy], and the same
    entries in [City_details], [Language_details] and [Format_details] up
    to their order and to [gross]. *)
Theorem aggregate_permutation (rows rows' : list ShowRecord)
    (fs : list (string * FinalMovie)) :
  rows ≡ₚ rows' ->
  aggregate rows = Ok fs ->
  exists fs',
    aggregate rows' = Ok fs' /\
    forall title,
      option_Forall2 same_but_gross (dict_get title fs) (dict_get title fs').
Proof.
  intros Hperm (s & Hacc & Hfin)%bind_Ok.
  apply accumulate_pure in Hacc as [Hall ->].
  assert (Hrel : dict_rel movie_counts_eq (foldl step_pure [] rows)
                                          (foldl step_pure [] rows')).
  { apply foldl_step_pure_perm; [done|].
    apply dict_rel_refl; [apply NoDup_nil_2 | done]. }
  destruct (final_summary_rel _ _ _ Hrel Hfin) as (fs' & Hfs' & Hsame).
  exists fs'. split; [|done]. unfold aggregate.
  assert (Hacc' : accumulate [] rows' = Ok (foldl step_pure [] rows')).
  { apply accumulate_pure. split; [|done]. by rewrite <- Hperm. }
  by rewrite Hacc'.
Qed.

Lemma aggregate_permutation_witness :
  exists fs fs',
    aggregate big_first = Ok fs /\ aggregate big_last = Ok fs' /\
    option_Forall2 same_but_gross (dict_get "Alpha" fs) (dict_get "Alpha" fs').
Proof.
  assert (Hperm : big_first ≡ₚ big_last).
  { exact (Permutation_cons_append [_; _] _). }
  destruct (aggregate_permutation big_first big_last _ Hperm
              ltac:(vm_compute; reflexivity)) as (fs' & Hfs' & Hsame).
  eexists _, fs'. split; [vm_compute; reflexivity|]. split; [exact Hfs'|].
  apply Hsame.
Defined.

(** C8, counterexample.  A venue with three shows of one movie, of one
    seat each, sold at [1e16], [1.0] and [1.0]: the run makes the rows
    [big_first] of them, and [big_last] when the payload lists the expensive
    show last.  Summed in the first order the movie's [gross] is [1e16],
    in the second it is [1e16 + 2]. *)
Lemma gross_depends_on_order :
  big_first ≡ₚ big_last /\
  exists fm fm',
    one_venue_run (payload_of_shows
      [priced_show "10:00 AM" (10 ^ 16); priced_show "01:00 PM" 1;
       priced_show "04:00 PM" 1]) =
      Ok {| out_detailed := big_first; out_summary := [("Alpha", fm)];
            out_failures := [] |} /\
    one_venue_run (payload_of_shows
      [priced_show "01:00 PM" 1; priced_show "04:00 PM" 1;
       priced_show "10:00 AM" (10 ^ 16)]) =
      Ok {| out_detailed := big_last; out_summary := [("Alpha", fm')];
            out_failures := [] |} /\
    aggregate big_first = Ok [("Alpha", fm)] /\
    aggregate big_last = Ok [("Alpha", fm')] /\
    f_gross fm = F64.of_Z (10 ^ 16) /\
    f_gross fm' = F64.of_Z (10 ^ 16 + 2) /\
    f_gross fm <> f_gross fm'.
Proof.
  split; [exact (Permutation_cons_append [_; _] _)|].
  eexists _, _. split; [vm_compute; reflexivity|].
  split; [vm_compute; reflexivity|].
  split; [vm_compute; reflexivity|].
  split; [vm_compute; reflexivity|]. by repeat split.
Qed.
(** * Further properties *)

(** ** Facts on lists and loops *)

Lemma total_cons {A} (f : A -> Z) (x : A) (l : list A) :
  total f (x :: l) = f x + total f l.
Proof. done. Qed.

Lemma total_difference {A} (f g : A -> Z) (l : list A) :
  total (fun x => f x - g x) l = total f l - total g l.
Proof. induction l as [|x l IH]; [done|]. rewrite !total_cons, IH. lia. Qed.

Lemma filter_all {A} (P : A -> Prop) `{!forall x, Decision (P x)} (l : list A) :
  (forall x, P x) -> filter P l = l.
Proof.
  intros HP. induction l as [|x l IH]; [done|].
  by rewrite filter_cons_True, IH.
Qed.

Lemma mapM_elem {A B} (f : A -> result B) (l : list A) (ys : list B) (y : B) :
  mapM f l = Ok ys -> y ∈ ys -> exists x, x ∈ l /\ f x = Ok y.
Proof.
  intros H%mapM_Ok [i Hi]%list_elem_of_lookup.
  destruct (Forall2_lookup_r _ _ _ _ _ H Hi) as (x & Hx & Hy).
  exists x. split; [by eapply list_elem_of_lookup_2 | done].
Qed.

Lemma mapM_is_Ok_elem {A B} (f : A -> result B) (l : list A) :
  (forall x, x ∈ l -> is_Ok (f x)) -> is_Ok (mapM f l).
Proof. intros H. apply mapM_is_Ok. by apply Forall_forall. Qed.

Lemma Forall_filter_sub {A} (P Q : A -> Prop) `{!forall x, Decision (Q x)} (l : list A) :
  Forall P l -> Forall P (filter Q l).
Proof.
  rewrite !Forall_forall. intros HP x [_ Hx]%list_elem_of_filter. by apply HP.
Qed.

Lemma omap_cons {A B} (f : A -> option B) (x : A) (l : list A) :
  omap f (x :: l) =
  match f x with Some y => y :: omap f l | None => omap f l end.
Proof. done. Qed.

Lemma mjoin_cons {A} (l : list A) (ls : list (list A)) :
  mjoin (l :: ls) = l ++ mjoin ls.
Proof. done. Qed.

Lemma for_each_filter {A B} (f : A -> result (list B)) (P : A -> Prop)
    `{!forall x, Decision (P x)} (xs : list A) :
  (forall x, x ∈ xs -> ~ P x -> f x = Ok []) ->
  for_each f (filter P xs) = for_each f xs.
Proof.
  induction xs as [|x xs IH]; intros Hf; [done|].
  assert (for_each f (filter P xs) = for_each f xs) as IH'.
  { apply IH. intros y Hy. apply Hf. by apply list_elem_of_further. }
  destruct (decide (P x)) as [Hx|Hx].
  - rewrite filter_cons_True by done. simpl. by rewrite IH'.
  - rewrite filter_cons_False by done. simpl.
    rewrite (Hf x (list_elem_of_here _ _) Hx), IH'. simpl.
    by destruct (for_each f xs).
Qed.

Lemma for_each_join {A B} (f : A -> result (list B)) xs ys :
  for_each f xs = Ok ys ->
  exists yss, Forall2 (fun x zs => f x = Ok zs) xs yss /\ ys = mjoin yss.
Proof.
  revert ys. induction xs as [|x xs IH]; intros ys; simpl.
  - intros [= <-]. exists []. by split; [constructor|].
  - intros (zs & Hzs & (ws & Hws & [= <-])%bind_Ok)%bind_Ok.
    destruct (IH _ Hws) as (yss & Hall & ->).
    exists (zs :: yss). by split; [constructor|].
Qed.

Lemma Forall2_flat_map {A B C} (R : B -> C -> Prop) (g : A -> list B) xs yss :
  Forall2 (fun x zs => Forall2 R (g x) zs) xs yss ->
  Forall2 R (flat_map g xs) (mjoin yss).
Proof.
  induction 1 as [|x zs xs yss Hx _ IH]; [constructor|].
  rewrite mjoin_cons. cbn [flat_map]. by apply Forall2_app.
Qed.

Lemma Forall2_filter_join {A C} (R : A -> C -> Prop) (P : A -> Prop)
    `{!forall x, Decision (P x)} xs yss :
  Forall2 (fun x zs => if decide (P x) then exists z, zs = [z] /\ R x z
                       else zs = []) xs yss ->
  Forall2 R (filter P xs) (mjoin yss).
Proof.
  induction 1 as [|x zs xs yss Hx _ IH]; [constructor|].
  rewrite mjoin_cons. destruct (decide (P x)) as [HP|HP].
  - rewrite filter_cons_True by done. destruct Hx as (z & -> & Hz).
    by constructor.
  - rewrite filter_cons_False by done. by rewrite Hx.
Qed.

(** ** More on [dedupe] *)

Section DedupeMore.
Implicit Types (r : ShowRecord) (rows : list ShowRecord).
Implicit Types seen : gset (string * string * string * string).

Lemma first_seen_filter seen seen' rows :
  first_seen (seen ∪ seen') rows =
  filter (fun r => dedupe_key r ∉ seen) (first_seen seen' rows).
Proof.
  revert seen'. induction rows as [|r rows IH]; intros seen'; simpl; [done|].
  destruct (decide (dedupe_key r ∈ seen')) as [Hin'|Hout'].
  - rewrite decide_True by (apply elem_of_union; by right). apply IH.
  - destruct (decide (dedupe_key r ∈ seen)) as [Hin|Hout].
    + rewrite decide_True by (apply elem_of_union; by left).
      rewrite filter_cons_False by (intros Hn; by apply Hn).
      rewrite <- IH. f_equal. set_ext.
    + rewrite decide_False by (intros [?|?]%elem_of_union; done).
      rewrite filter_cons_True by done. f_equal.
      rewrite <- IH. f_equal. set_ext.
Qed.

Lemma first_seen_app seen rows rows' :
  first_seen seen (rows ++ rows') =
  first_seen seen rows ++ first_seen (list_to_set (dedupe_key <$> rows) ∪ seen) rows'.
Proof.
  revert seen. induction rows as [|r rows IH]; intros seen; simpl.
  - f_equal. set_ext.
  - destruct (decide (dedupe_key r ∈ seen)) as [Hin|Hout].
    + rewrite IH. do 2 f_equal. set_ext.
    + simpl. rewrite IH. do 3 f_equal. set_ext.
Qed.

Lemma first_seen_distinct seen rows :
  NoDup (dedupe_key <$> rows) ->
  (forall r, r ∈ rows -> dedupe_key r ∉ seen) ->
  first_seen seen rows = rows.
Proof.
  revert seen. induction rows as [|r rows IH]; intros seen; simpl; [done|].
  intros [Hr Hnd]%NoDup_cons Hseen.
  rewrite decide_False by (apply Hseen, list_elem_of_here).
  f_equal. apply IH; [done|]. intros r' Hr'.
  intros [Heq%elem_of_singleton|Hin]%elem_of_union.
  - apply Hr. rewrite <- Heq. apply list_elem_of_fmap. by exists r'.
  - eapply Hseen; [|exact Hin]. by apply list_elem_of_further.
Qed.

End DedupeMore.

(** X1.  [dedupe] is idempotent: a second pass removes nothing. *)
Theorem dedupe_idempotent (rows : list ShowRecord) :
  dedupe (dedupe rows) = dedupe rows.
Proof.
  rewrite !dedupe_first_seen. apply first_seen_distinct.
  - apply first_seen_NoDup.
  - intros r _. apply not_elem_of_empty.
Qed.

(** X2.  [dedupe] returns its input unchanged exactly when no two rows of
    the input share the composite key. *)
Theorem dedupe_unchanged_iff (rows : list ShowRecord) :
  dedupe rows = rows <-> NoDup (dedupe_key <$> rows).
Proof.
  rewrite dedupe_first_seen. split.
  - intros <-. apply first_seen_NoDup.
  - intros Hnd. apply first_seen_distinct; [done|].
    intros r _. apply not_elem_of_empty.
Qed.

(** X3.  Deduplicating two batches in a row keeps the first batch as
    [dedupe] alone leaves it, followed by the rows [dedupe] keeps of the
    second batch whose key does not occur in the first. *)
Theorem dedupe_app (rows rows' : list ShowRecord) :
  dedupe (rows ++ rows') =
  dedupe rows ++
  filter (fun r => dedupe_key r ∉ dedupe_key <$> rows) (dedupe rows').
Proof.
  rewrite !dedupe_first_seen, first_seen_app. f_equal.
  rewrite first_seen_filter. apply list_filter_iff. intros r.
  by rewrite elem_of_list_to_set.
Qed.

(** X4.  [dedupe] keeps as many rows as the input has distinct composite
    keys. *)
Theorem dedupe_counts_keys (rows : list ShowRecord) :
  length (dedupe rows) =
  size (list_to_set (dedupe_key <$> rows) : gset (string * string * string * string)).
Proof.
  rewrite <- (length_fmap dedupe_key (dedupe rows)).
  rewrite <- (size_list_to_set (C:=gset (string * string * string * string)))
    by (rewrite dedupe_first_seen; apply first_seen_NoDup).
  f_equal. apply set_eq. intros k. rewrite !elem_of_list_to_set, !list_elem_of_fmap.
  rewrite dedupe_first_seen. split.
  - intros (r & -> & Hr). exists r. split; [done|].
    eapply elem_of_sublist; [exact Hr | apply first_seen_sublist].
  - intros (r & -> & Hr).
    destruct (first_seen_covers ∅ rows r Hr) as [Hin|(r' & Hr' & Hk)].
    + by apply not_elem_of_empty in Hin.
    + by exists r'.
Qed.

(** ** Dicts filled by a loop *)

Section UpsertAll.
Context {K V X : Type} `{EqDecision K}.
Variables (key : X -> K) (fresh : V) (f : X -> V -> V).
Implicit Types (k : K) (d : list (K * V)) (xs : list X).

Lemma upsert_all_cons d x xs :
  upsert_all key fresh f d (x :: xs) =
  upsert_all key fresh f (dict_upsert (key x) fresh (f x) d) xs.
Proof. done. Qed.

Lemma upsert_all_get k d xs :
  default fresh (dict_get k (upsert_all key fresh f d xs)) =
  foldl (fun v x => f x v) (default fresh (dict_get k d))
        (filter (fun x => key x = k) xs).
Proof.
  revert d. induction xs as [|x xs IH]; intros d; [done|].
  rewrite upsert_all_cons, IH.
  rewrite dict_get_upsert. destruct (decide (k = key x)) as [->|Hne].
  - by rewrite filter_cons_True.
  - by rewrite filter_cons_False by (intros Heq; by apply Hne).
Qed.

Lemma upsert_all_is_Some k d xs :
  is_Some (dict_get k (upsert_all key fresh f d xs)) <->
  is_Some (dict_get k d) \/ k ∈ key <$> xs.
Proof.
  revert d. induction xs as [|x xs IH]; intros d.
  - simpl. split; [by left | by intros [?|?%elem_of_nil]].
  - rewrite upsert_all_cons, IH.
    rewrite dict_get_upsert, fmap_cons, elem_of_cons.
    destruct (decide (k = key x)) as [->|Hne].
    + split; [intros _; right; by left | intros _; left; by eexists].
    + tauto.
Qed.

Lemma upsert_all_NoDup d xs :
  NoDup (dict_keys d) -> NoDup (dict_keys (upsert_all key fresh f d xs)).
Proof.
  revert d. induction xs as [|x xs IH]; intros d Hd; [done|].
  rewrite upsert_all_cons. apply IH. by apply NoDup_dict_set.
Qed.

Lemma filter_filter_ne (P : K -> Prop) `{!forall y, Decision (P y)} k (l : list K) :
  ~ P k -> filter P (filter (fun y => y <> k) l) = filter P l.
Proof.
  intros Hk. induction l as [|y l IH]; [done|].
  destruct (decide (y = k)) as [->|Hne].
  - rewrite filter_cons_False by (intros Hn; by apply Hn).
    by rewrite (filter_cons_False P).
  - rewrite (filter_cons_True (fun y => y <> k)) by done.
    destruct (decide (P y)).
    + rewrite !filter_cons_True by done. by rewrite IH.
    + by rewrite !filter_cons_False.
Qed.

Lemma upsert_all_keys d xs :
  dict_keys (upsert_all key fresh f d xs) =
  dict_keys d ++ filter (fun k => k ∉ dict_keys d) (first_occurrences (key <$> xs)).
Proof.
  revert d. induction xs as [|x xs IH]; intros d.
  - simpl. by rewrite app_nil_r.
  - rewrite upsert_all_cons, IH.
    unfold dict_upsert. rewrite dict_keys_set, fmap_cons. cbn [first_occurrences].
    destruct (dict_get (key x) d) as [v|] eqn:Hk.
    + assert (key x ∈ dict_keys d) as Hin by (apply elem_of_dict_keys; by eexists).
      rewrite filter_cons_False by (intros Hn; by apply Hn).
      by rewrite filter_filter_ne by (intros Hn; by apply Hn).
    + assert (key x ∉ dict_keys d) as Hout.
      { intros [? Hs]%elem_of_dict_keys. congruence. }
      rewrite filter_cons_True by done. rewrite <- app_assoc. simpl.
      do 2 f_equal. rewrite list_filter_filter. apply list_filter_iff.
      intros k. rewrite elem_of_app, list_elem_of_singleton. tauto.
Qed.

End UpsertAll.

Lemma upsert_all_keys_nil {K V X} `{EqDecision K} (key : X -> K) (fresh : V)
    (f : X -> V -> V) (xs : list X) :
  dict_keys (upsert_all key fresh f [] xs) = first_occurrences (key <$> xs).
Proof.
  rewrite upsert_all_keys. simpl. apply filter_all.
  intros k. apply not_elem_of_nil.
Qed.

Lemma upsert_all_one_key {K V X} `{EqDecision K} (key : X -> K) (fresh : V)
    (f : X -> V -> V) (k : K) (v : V) (xs : list X) :
  Forall (fun x => key x = k) xs ->
  upsert_all key fresh f [(k, v)] xs = [(k, foldl (fun v x => f x v) v xs)].
Proof.
  intros Hall. revert v. induction Hall as [|x xs Hx _ IH]; intros v; [done|].
  rewrite upsert_all_cons. unfold dict_upsert. cbn [dict_get dict_set].
  rewrite Hx, !decide_True by done. apply IH.
Qed.

(** ** The summary as a function of the rows *)

Lemma tally_rows r hf ff :
  tally (occ_of r) hf ff =
  (hf + (if housefull_row r then 1 else 0),
   ff + (if fastfilling_row r then 1 else 0)).
Proof.
  unfold tally, housefull_row, fastfilling_row.
  destruct (at_least (occ_of r) 98), (at_least (occ_of r) 50); simpl;
    f_equal; lia.
Qed.

Lemma bucket_rows (sel : list ShowRecord) (b : Bucket) :
  let b' := foldl (fun b r => bucket_row r b) b sel in
  b_shows b' = b_shows b + Z.of_nat (length sel) /\
  b_gross b' = foldl F64.add (b_gross b) ((fun r : ShowRecord => gross r) <$> sel) /\
  b_sold b' = b_sold b + total (fun r : ShowRecord => sold r) sel /\
  b_totalSeats b' = b_totalSeats b + total (fun r : ShowRecord => totalSeats r) sel /\
  b_venues b' = list_to_set ((fun r : ShowRecord => venue r) <$> sel) ∪ b_venues b /\
  b_fastfilling b' = b_fastfilling b + count fastfilling_row sel /\
  b_housefull b' = b_housefull b + count housefull_row sel.
Proof.
  revert b. induction sel as [|r sel IH]; intros b.
  - simpl. unfold count. simpl. repeat split; first [lia | done | set_ext].
  - cbn [foldl]. destruct (IH (bucket_row r b)) as (H1 & H2 & H3 & H4 & H5 & H6 & H7).
    cbn zeta. rewrite H1, H2, H3, H4, H5, H6, H7.
    unfold bucket_row, bucket_add. cbn [b_shows b_gross b_sold b_totalSeats
      b_venues b_fastfilling b_housefull]. rewrite tally_rows.
    unfold count. rewrite !total_cons. cbn [fmap list_fmap length fst snd].
    repeat split; first [lia | done | set_ext].
Qed.

Lemma movie_rows (sel : list ShowRecord) (m : MovieAcc) :
  let m' := foldl (fun m r => movie_row r m) m sel in
  m_shows m' = m_shows m + Z.of_nat (length sel) /\
  m_gross m' = foldl F64.add (m_gross m) ((fun r : ShowRecord => gross r) <$> sel) /\
  m_sold m' = m_sold m + total (fun r : ShowRecord => sold r) sel /\
  m_totalSeats m' = m_totalSeats m + total (fun r : ShowRecord => totalSeats r) sel /\
  m_venues m' = list_to_set ((fun r : ShowRecord => venue r) <$> sel) ∪ m_venues m /\
  m_cities m' = list_to_set (city <$> sel) ∪ m_cities m /\
  m_fastfilling m' = m_fastfilling m + count fastfilling_row sel /\
  m_housefull m' = m_housefull m + count housefull_row sel /\
  m_details m' = upsert_all city_key new_bucket bucket_row (m_details m) sel /\
  m_Language_details m' =
    upsert_all language_key new_bucket bucket_row (m_Language_details m) sel /\
  m_Format_details m' =
    upsert_all format_key new_bucket bucket_row (m_Format_details m) sel.
Proof.
  revert m. induction sel as [|r sel IH]; intros m.
  - simpl. unfold count. simpl. repeat split; first [lia | done | set_ext].
  - cbn [foldl].
    destruct (IH (movie_row r m))
      as (H1 & H2 & H3 & H4 & H5 & H6 & H7 & H8 & H9 & H10 & H11).
    cbn zeta. rewrite H1, H2, H3, H4, H5, H6, H7, H8, H9, H10, H11.
    rewrite !upsert_all_cons.
    unfold movie_row, movie_add. cbn [m_shows m_gross m_sold m_totalSeats
      m_venues m_cities m_fastfilling m_housefull m_details
      m_Language_details m_Format_details]. rewrite tally_rows.
    unfold count. rewrite !total_cons. cbn [fmap list_fmap length fst snd].
    repeat split; first [lia | done | set_ext].
Qed.

Lemma foldl_step_pure_upsert (s : list (string * MovieAcc)) (rows : list ShowRecord) :
  foldl step_pure s rows =
  upsert_all (fun r : ShowRecord => movie r) new_movie movie_row s rows.
Proof. done. Qed.

Lemma final_movie_fields m fm :
  final_movie m = Ok fm ->
  f_shows fm = m_shows m /\ f_gross fm = F64.round2 (m_gross m) /\
  f_sold fm = m_sold m /\ f_totalSeats fm = m_totalSeats m /\
  f_venues fm = Z.of_nat (size (m_venues m)) /\
  f_cities fm = Z.of_nat (size (m_cities m)) /\
  f_fastfilling fm = m_fastfilling m /\ f_housefull fm = m_housefull m /\
  mapM final_bucket (m_details m) = Ok (City_details fm) /\
  mapM final_bucket (m_Language_details m) = Ok (Language_details fm) /\
  mapM final_bucket (m_Format_details m) = Ok (Format_details fm).
Proof.
  intros (occ & Hocc & Hfm)%bind_Ok.
  apply bind_Ok in Hfm as (cs & Hcs & Hfm).
  apply bind_Ok in Hfm as (ls & Hls & Hfm).
  by apply bind_Ok in Hfm as (fs' & Hfs & [= <-]).
Qed.

(** The entry of a movie is made from the rows of the movie alone, in
    their order. *)
Lemma aggregate_movie rows fs title fm :
  aggregate rows = Ok fs -> (title, fm) ∈ fs ->
  rows_of_movie title rows <> [] /\
  final_movie (foldl (fun m r => movie_row r m) new_movie (rows_of_movie title rows))
  = Ok fm.
Proof.
  intros (s & Hacc & Hfin)%bind_Ok Hin.
  apply accumulate_pure in Hacc as [_ ->]. rewrite foldl_step_pure_upsert in Hfin.
  destruct (final_summary_elem _ _ _ _ Hfin Hin) as (m & Hm & Hfm).
  apply dict_get_elem_of_iff in Hm; [|by apply upsert_all_NoDup, NoDup_nil].
  split.
  - assert (is_Some (dict_get title
              (upsert_all (fun r : ShowRecord => movie r) new_movie movie_row [] rows)))
      as Hs by (by eexists).
    apply upsert_all_is_Some in Hs as [[? ?]|Hs]; [done|].
    apply list_elem_of_fmap in Hs as (r & Hr & Hin').
    intros Hnil. assert (r ∈ rows_of_movie title rows) as Hsel.
    { apply list_elem_of_filter. by split. }
    rewrite Hnil in Hsel. by apply elem_of_nil in Hsel.
  - rewrite <- Hfm. f_equal. unfold rows_of_movie.
    rewrite <- (upsert_all_get (fun r : ShowRecord => movie r) new_movie movie_row
                  title [] rows).
    by rewrite Hm.
Qed.

Lemma size_list_to_set_empty (l : list string) :
  Z.of_nat (size (list_to_set l ∪ (∅ : gset string))) = distinct l.
Proof. unfold distinct. by rewrite (right_id_L ∅ (∪)). Qed.

Lemma movie_rollup_fold sel fm :
  final_movie (foldl (fun m r => movie_row r m) new_movie sel) = Ok fm ->
  movie_rollup fm = rollup_of sel /\
  f_cities fm = distinct (city <$> sel).
Proof.
  intros (F1 & F2 & F3 & F4 & F5 & F6 & F7 & F8 & _)%final_movie_fields.
  destruct (movie_rows sel new_movie) as (H1 & H2 & H3 & H4 & H5 & H6 & H7 & H8 & _).
  cbn zeta in *. unfold movie_rollup, rollup_of.
  rewrite F1, F2, F3, F4, F5, F6, F7, F8, H1, H2, H3, H4, H5, H6, H7, H8.
  rewrite !size_list_to_set_empty. cbn [new_movie m_shows m_gross m_sold
    m_totalSeats m_fastfilling m_housefull]. split; [|done].
  unfold float_sum. f_equal; lia.
Qed.

(** X5.  In the final summary, the entry of a movie holds the roll-up
    of the rows of that movie, of which there is at least one: [shows] is
    their number, [sold] and [totalSeats] are their sums, [venues] and
    [cities] count their distinct venues and cities, [housefull] and
    [fastfilling] count the rows of each class, and [gross] is the float
    sum of their takings, added in the order of the rows and rounded to
    two decimals. *)
Theorem movie_entry_rolls_up (rows : list ShowRecord)
    (fs : list (string * FinalMovie)) (title : string) (fm : FinalMovie) :
  aggregate rows = Ok fs ->
  (title, fm) ∈ fs ->
  rows_of_movie title rows <> [] /\
  movie_rollup fm = rollup_of (rows_of_movie title rows) /\
  f_cities fm = distinct (city <$> rows_of_movie title rows).
Proof.
  intros Hagg Hin. destruct (aggregate_movie _ _ _ _ Hagg Hin) as [Hne Hfm].
  split; [done|]. by apply movie_rollup_fold.
Qed.

Lemma movie_entry_rolls_up_witness :
  exists fs fm,
    aggregate sample_rows = Ok fs /\ ("Alpha", fm) ∈ fs /\
    movie_rollup fm = rollup_of (rows_of_movie "Alpha" sample_rows).
Proof.
  eexists _, _. split; [vm_compute; reflexivity|].
  split; [apply list_elem_of_here|].
  apply (movie_entry_rolls_up sample_rows _ "Alpha" _
           ltac:(vm_compute; reflexivity) ltac:(apply list_elem_of_here)).
Defined.

(** The entries made of the dict a loop over [sel] filled under [key]. *)
Lemma buckets_rollup {K} `{EqDecision K} (key : ShowRecord -> K)
    (sel : list ShowRecord) (l : list (FinalBucket K)) :
  mapM final_bucket (upsert_all key new_bucket bucket_row [] sel) = Ok l ->
  Forall (fun fb => rows_at key (fb_label fb) sel <> [] /\
                    bucket_rollup fb = rollup_of (rows_at key (fb_label fb) sel)) l.
Proof.
  intros Hl. apply Forall_forall. intros fb Hfb.
  destruct (mapM_elem _ _ _ _ Hl Hfb) as ([k b] & Hkb & Hfin).
  apply final_bucket_fields in Hfin
    as (-> & F1 & F3 & F4 & F5 & F6 & F7 & F2 & _). cbn [fst snd] in *.
  apply dict_get_elem_of_iff in Hkb; [|by apply upsert_all_NoDup, NoDup_nil].
  split.
  - assert (is_Some (dict_get k (upsert_all key new_bucket bucket_row [] sel)))
      as Hs by (by eexists).
    apply upsert_all_is_Some in Hs as [[? ?]|Hs]; [done|].
    apply list_elem_of_fmap in Hs as (r & Hr & Hin).
    intros Hnil. assert (r ∈ rows_at key k sel) as Hsel.
    { apply list_elem_of_filter. by split. }
    rewrite Hnil in Hsel. by apply elem_of_nil in Hsel.
  - pose proof (upsert_all_get key new_bucket bucket_row k [] sel) as Hb.
    rewrite Hkb in Hb. change (default new_bucket (Some b)) with b in Hb.
    change (default new_bucket (dict_get k [])) with new_bucket in Hb.
    fold (rows_at key k sel) in Hb.
    destruct (bucket_rows (rows_at key k sel) new_bucket)
      as (H1 & H2 & H3 & H4 & H5 & H6 & H7).
    cbn zeta in *. rewrite <- Hb in H1, H2, H3, H4, H5, H6, H7.
    unfold bucket_rollup, rollup_of.
    rewrite F1, F2, F3, F4, F5, F6, F7, H1, H2, H3, H4, H5, H6, H7.
    rewrite size_list_to_set_empty. cbn [new_bucket b_shows b_gross b_sold
      b_totalSeats b_fastfilling b_housefull].
    unfold float_sum. f_equal; lia.
Qed.

Lemma aggregate_buckets rows fs title fm :
  aggregate rows = Ok fs -> (title, fm) ∈ fs ->
  let sel := rows_of_movie title rows in
  mapM final_bucket (upsert_all city_key new_bucket bucket_row [] sel)
    = Ok (City_details fm) /\
  mapM final_bucket (upsert_all language_key new_bucket bucket_row [] sel)
    = Ok (Language_details fm) /\
  mapM final_bucket (upsert_all format_key new_bucket bucket_row [] sel)
    = Ok (Format_details fm).
Proof.
  intros Hagg Hin sel.
  destruct (aggregate_movie _ _ _ _ Hagg Hin) as [_ Hfm]. fold sel in Hfm.
  apply final_movie_fields in Hfm as (_ & _ & _ & _ & _ & _ & _ & _ & Hc & Hl & Hf).
  destruct (movie_rows sel new_movie) as (_ & _ & _ & _ & _ & _ & _ & _ & H9 & H10 & H11).
  cbn zeta in *. by rewrite H9 in Hc; rewrite H10 in Hl; rewrite H11 in Hf.
Qed.

(** X6.  Each entry of [City_details], of [Language_details] and of
    [Format_details] of a movie holds the roll-up of the rows of the movie
    that carry the entry's (city, state), language or dimension. *)
Theorem bucket_entries_roll_up (rows : list ShowRecord)
    (fs : list (string * FinalMovie)) (title : string) (fm : FinalMovie) :
  aggregate rows = Ok fs ->
  (title, fm) ∈ fs ->
  let sel := rows_of_movie title rows in
  Forall (fun fb => bucket_rollup fb = rollup_of (rows_at city_key (fb_label fb) sel))
         (City_details fm) /\
  Forall (fun fb => bucket_rollup fb = rollup_of (rows_at language_key (fb_label fb) sel))
         (Language_details fm) /\
  Forall (fun fb => bucket_rollup fb = rollup_of (rows_at format_key (fb_label fb) sel))
         (Format_details fm).
Proof.
  intros Hagg Hin sel.
  destruct (aggregate_buckets _ _ _ _ Hagg Hin) as (Hc & Hl & Hf). fold sel in Hc, Hl, Hf.
  repeat split; eapply Forall_impl;
    first [ by apply buckets_rollup | by intros fb [_ ?] ].
Qed.

Lemma bucket_entries_roll_up_witness :
  exists fs fm,
    aggregate sample_rows = Ok fs /\ ("Alpha", fm) ∈ fs /\
    Forall (fun fb => bucket_rollup fb =
                      rollup_of (rows_at city_key (fb_label fb)
                                   (rows_of_movie "Alpha" sample_rows)))
           (City_details fm).
Proof.
  eexists _, _. split; [vm_compute; reflexivity|].
  split; [apply list_elem_of_here|].
  apply (bucket_entries_roll_up sample_rows _ "Alpha" _
           ltac:(vm_compute; reflexivity) ltac:(apply list_elem_of_here)).
Defined.

(** ** Order of the entries *)

Lemma final_summary_keys summary fs :
  final_summary summary = Ok fs -> fs.*1 = dict_keys summary.
Proof.
  intros H%mapM_Ok. unfold dict_keys.
  induction H as [|[k m] [k' fm] s fs' Hfm _ IH]; [done|].
  rewrite !fmap_cons. f_equal; [|exact IH].
  by apply bind_Ok in Hfm as (fm' & _ & [= <- _]).
Qed.

(** X7.  The movies of the final summary are the distinct titles of the
    rows in the order of their first occurrence, and so are the entries of
    the three arrays of a movie for the (city, state) pairs, the languages
    and the dimensions of the rows of the movie. *)
Theorem summary_in_first_seen_order (rows : list ShowRecord)
    (fs : list (string * FinalMovie)) :
  aggregate rows = Ok fs ->
  fs.*1 = first_occurrences ((fun r : ShowRecord => movie r) <$> rows) /\
  forall title fm, (title, fm) ∈ fs ->
    let sel := rows_of_movie title rows in
    fb_label <$> City_details fm = first_occurrences (city_key <$> sel) /\
    fb_label <$> Language_details fm = first_occurrences (language_key <$> sel) /\
    fb_label <$> Format_details fm = first_occurrences (format_key <$> sel).
Proof.
  intros Hagg. split.
  - apply bind_Ok in Hagg as (s & Hacc & Hfin).
    apply accumulate_pure in Hacc as [_ ->].
    rewrite (final_summary_keys _ _ Hfin), foldl_step_pure_upsert.
    apply upsert_all_keys_nil.
  - intros title fm Hin sel.
    destruct (aggregate_buckets _ _ _ _ Hagg Hin) as (Hc & Hl & Hf).
    fold sel in Hc, Hl, Hf.
    rewrite (final_buckets_labels _ _ Hc), (final_buckets_labels _ _ Hl),
      (final_buckets_labels _ _ Hf).
    by rewrite !upsert_all_keys_nil.
Qed.

Lemma summary_in_first_seen_order_witness :
  exists fs,
    aggregate sample_rows = Ok fs /\ fs.*1 = ["Alpha"; "Beta"].
Proof.
  eexists. split; [vm_compute; reflexivity|].
  apply (summary_in_first_seen_order sample_rows _ ltac:(vm_compute; reflexivity)).
Defined.

(** ** Bounds on the counters *)

Lemma count_nonneg {A} (p : A -> bool) (l : list A) : 0 <= count p l.
Proof.
  unfold count. induction l as [|x l IH]; [done|].
  rewrite total_cons. destruct (p x); lia.
Qed.

Lemma count_disjoint {A} (p q : A -> bool) (l : list A) :
  (forall x, p x = true -> q x = false) ->
  count p l + count q l <= Z.of_nat (length l).
Proof.
  intros Hpq. unfold count. induction l as [|x l IH]; [done|].
  rewrite !total_cons. cbn [length]. specialize (Hpq x).
  destruct (p x), (q x); first [lia | by specialize (Hpq eq_refl)].
Qed.

Lemma distinct_bounds (l : list string) :
  l <> [] -> 1 <= distinct l <= Z.of_nat (length l).
Proof.
  intros Hne. unfold distinct. split.
  - destruct l as [|x l]; [done|].
    assert (size (list_to_set (x :: l) : gset string) <> 0%nat); [|lia].
    apply size_non_empty_iff. intros Hemp.
    apply (not_elem_of_empty (C:=gset string) x). rewrite <- Hemp.
    apply elem_of_list_to_set, list_elem_of_here.
  - clear Hne. apply inj_le. induction l as [|x l IH]; [done|].
    rewrite list_to_set_cons, size_union_alt, size_singleton. cbn [length].
    assert (size (list_to_set l ∖ {[x]} : gset string)
            <= size (list_to_set l : gset string))%nat; [|lia].
    apply subseteq_size. intros y Hy. by apply elem_of_difference in Hy as [? _].
Qed.

Lemma rollup_counters (sel : list ShowRecord) :
  sel <> [] -> counters_ok (rollup_of sel).
Proof.
  intros Hne. unfold counters_ok, rollup_of; cbn.
  pose proof (count_nonneg fastfilling_row sel).
  pose proof (count_nonneg housefull_row sel).
  assert (count fastfilling_row sel + count housefull_row sel
          <= Z.of_nat (length sel)).
  { apply count_disjoint. unfold fastfilling_row, housefull_row.
    intros r. by destruct (at_least (occ_of r) 98). }
  assert (1 <= distinct ((fun r : ShowRecord => venue r) <$> sel)
          <= Z.of_nat (length ((fun r : ShowRecord => venue r) <$> sel))) as Hd.
  { apply distinct_bounds. by destruct sel. }
  rewrite length_fmap in Hd.
  assert (0 < length sel)%nat by (destruct sel; [done | simpl; lia]).
  lia.
Qed.

(** X8.  Every entry of the final summary, movie or bucket, counts at
    least one show; its two counters are not negative and together do not
    exceed [shows]; and it has at least one venue (and a movie at least one
    city) and no more of them than shows. *)
Theorem counters_within_shows (rows : list ShowRecord)
    (fs : list (string * FinalMovie)) (title : string) (fm : FinalMovie) :
  aggregate rows = Ok fs ->
  (title, fm) ∈ fs ->
  counters_ok (movie_rollup fm) /\
  1 <= f_cities fm <= f_shows fm /\
  Forall (fun fb => counters_ok (bucket_rollup fb)) (City_details fm) /\
  Forall (fun fb => counters_ok (bucket_rollup fb)) (Language_details fm) /\
  Forall (fun fb => counters_ok (bucket_rollup fb)) (Format_details fm).
Proof.
  intros Hagg Hin.
  destruct (aggregate_movie _ _ _ _ Hagg Hin) as [Hne Hfm].
  destruct (movie_rollup_fold _ _ Hfm) as [Hroll Hcities].
  destruct (aggregate_buckets _ _ _ _ Hagg Hin) as (Hc & Hl & Hf).
  split; [rewrite Hroll; by apply rollup_counters|]. split.
  { rewrite Hcities.
    replace (f_shows fm) with (r_shows (movie_rollup fm)) by done.
    rewrite Hroll. cbn [rollup_of r_shows].
    rewrite <- (length_fmap city). apply distinct_bounds.
    by destruct (rows_of_movie title rows). }
  repeat split; eapply Forall_impl;
    first [ by apply buckets_rollup
          | intros fb [? ->]; by apply rollup_counters ].
Qed.

Lemma counters_within_shows_witness :
  exists fs fm,
    aggregate sample_rows = Ok fs /\ ("Alpha", fm) ∈ fs /\
    counters_ok (movie_rollup fm).
Proof.
  eexists _, _. split; [vm_compute; reflexivity|].
  split; [apply list_elem_of_here|].
  apply (counters_within_shows sample_rows _ "Alpha" _
           ltac:(vm_compute; reflexivity) ltac:(apply list_elem_of_here)).
Defined.

(** ** Movies do not interfere *)

Lemma rows_of_movie_all title rows :
  Forall (fun r : ShowRecord => movie r = title) (rows_of_movie title rows).
Proof. apply Forall_forall. by intros r [? _]%list_elem_of_filter. Qed.

(** X9.  The entry of a movie does not depend on the rows of the other
    movies: the summary of the rows of one title alone is the entry that
    title has in the summary of all rows, [gross] and the order of the
    buckets included, and is empty when no row has the title. *)
Theorem movies_are_independent (rows : list ShowRecord)
    (fs : list (string * FinalMovie)) (title : string) :
  aggregate rows = Ok fs ->
  aggregate (rows_of_movie title rows) =
  Ok (match dict_get title fs with
      | Some fm => [(title, fm)]
      | None => []
      end).
Proof.
  intros (s & Hacc & Hfin)%bind_Ok.
  apply accumulate_pure in Hacc as [Hall ->].
  rewrite foldl_step_pure_upsert in Hfin.
  pose proof (final_summary_get _ _ title Hfin) as Hget.
  pose proof (upsert_all_get (fun r : ShowRecord => movie r) new_movie movie_row
                title [] rows) as Hm.
  fold (rows_of_movie title rows) in Hm.
  pose proof (upsert_all_is_Some (fun r : ShowRecord => movie r) new_movie movie_row
                title [] rows) as Hsome.
  assert (accumulate [] (rows_of_movie title rows) =
          Ok (upsert_all (fun r : ShowRecord => movie r) new_movie movie_row []
                (rows_of_movie title rows))) as Hacc'.
  { apply accumulate_pure. split; [|done].
    rewrite Forall_forall in Hall. apply Forall_forall.
    intros r [_ Hr]%list_elem_of_filter. by apply Hall. }
  unfold aggregate. rewrite Hacc'. cbn [mbind result_bind].
  pose proof (rows_of_movie_all title rows) as Hsel.
  destruct (rows_of_movie title rows) as [|r0 sel] eqn:Hrows.
  - destruct (dict_get title _) as [m|] eqn:Hd in Hget, Hsome; [|by rewrite Hget].
    exfalso. destruct Hsome as [[[? ?]|Hin] _]; [by eexists | done |].
    apply list_elem_of_fmap in Hin as (r & Hr & Hin).
    assert (r ∈ rows_of_movie title rows) as Hr'
      by (apply list_elem_of_filter; by split).
    rewrite Hrows in Hr'. by apply elem_of_nil in Hr'.
  - destruct Hsome as [_ Hsome].
    destruct Hsome as [m Hd].
    { right. apply list_elem_of_fmap. exists r0. split.
      - symmetry. by apply Forall_cons in Hsel as [? _].
      - assert (r0 ∈ rows_of_movie title rows) as Hr0
          by (rewrite Hrows; apply list_elem_of_here).
        by apply list_elem_of_filter in Hr0 as [_ ?]. }
    rewrite Hd in Hm, Hget. change (default new_movie (Some m)) with m in Hm.
    change (default new_movie (dict_get title [])) with new_movie in Hm.
    destruct Hget as (fm & Hfm & ->).
    rewrite upsert_all_cons. unfold dict_upsert at 1. cbn [dict_get dict_set default].
    apply Forall_cons in Hsel as [Hr0 Hsel']. rewrite Hr0.
    rewrite upsert_all_one_key by done.
    change (foldl (fun v x => movie_row x v) (movie_row r0 new_movie) sel)
      with (foldl (fun v x => movie_row x v) new_movie (r0 :: sel)).
    unfold rows_of_movie in Hrows. rewrite Hrows in Hm.
    rewrite <- Hm. unfold final_summary. cbn [mapM fst snd].
    rewrite Hfm. done.
Qed.

Lemma movies_are_independent_witness :
  exists fs fm,
    aggregate sample_rows = Ok fs /\ dict_get "Beta" fs = Some fm /\
    aggregate (rows_of_movie "Beta" sample_rows) = Ok [("Beta", fm)].
Proof.
  eexists _, _. split; [vm_compute; reflexivity|]. split; [reflexivity|].
  apply (movies_are_independent sample_rows _ "Beta" ltac:(vm_compute; reflexivity)).
Defined.

(** ** Totals over the movies *)

Lemma step_pure_totals s r :
  total (fun km => m_shows km.2) (step_pure s r)
    = total (fun km => m_shows km.2) s + 1 /\
  total (fun km => m_sold km.2) (step_pure s r)
    = total (fun km => m_sold km.2) s + sold r /\
  total (fun km => m_totalSeats km.2) (step_pure s r)
    = total (fun km => m_totalSeats km.2) s + totalSeats r.
Proof.
  unfold step_pure.
  rewrite (total_dict_upsert m_shows), (total_dict_upsert m_sold),
    (total_dict_upsert m_totalSeats) by done.
  cbn [movie_add m_shows m_sold m_totalSeats]. lia.
Qed.

Lemma foldl_step_pure_totals rows s :
  total (fun km => m_shows km.2) (foldl step_pure s rows)
    = total (fun km => m_shows km.2) s + Z.of_nat (length rows) /\
  total (fun km => m_sold km.2) (foldl step_pure s rows)
    = total (fun km => m_sold km.2) s + total (fun r : ShowRecord => sold r) rows /\
  total (fun km => m_totalSeats km.2) (foldl step_pure s rows)
    = total (fun km => m_totalSeats km.2) s
      + total (fun r : ShowRecord => totalSeats r) rows.
Proof.
  revert s. induction rows as [|r rows IH]; intros s.
  - simpl. lia.
  - cbn [foldl]. destruct (IH (step_pure s r)) as (H1 & H2 & H3).
    destruct (step_pure_totals s r) as (S1 & S2 & S3).
    rewrite H1, H2, H3, S1, S2, S3, !total_cons. cbn [length]. lia.
Qed.

(** X10.  Over the movies of the final summary, [shows] adds up to the
    number of rows, [sold] to the seats sold in all rows and [totalSeats]
    to the seats of all rows. *)
Theorem shows_add_up_to_rows (rows : list ShowRecord)
    (fs : list (string * FinalMovie)) :
  aggregate rows = Ok fs ->
  total (fun tf => f_shows tf.2) fs = Z.of_nat (length rows) /\
  total (fun tf => f_sold tf.2) fs = total (fun r : ShowRecord => sold r) rows /\
  total (fun tf => f_totalSeats tf.2) fs
    = total (fun r : ShowRecord => totalSeats r) rows.
Proof.
  intros (s & Hacc & Hfin)%bind_Ok.
  apply accumulate_pure in Hacc as [_ ->]. apply mapM_Ok in Hfin.
  destruct (foldl_step_pure_totals rows []) as (H1 & H2 & H3).
  change (total _ []) with 0 in H1, H2, H3. rewrite !Z.add_0_l in H1, H2, H3.
  rewrite <- H1, <- H2, <- H3.
  repeat split; symmetry; eapply total_Forall2; try exact Hfin;
    intros [k m] [k' fm] (fm' & Hfm & [= <- <-])%bind_Ok;
    apply final_movie_fields in Hfm; cbn [snd]; by intuition.
Qed.

Lemma shows_add_up_to_rows_witness :
  exists fs,
    aggregate sample_rows = Ok fs /\
    total (fun tf => f_shows tf.2) fs = 3 /\
    total (fun tf => f_sold tf.2) fs = 168.
Proof.
  eexists. split; [vm_compute; reflexivity|].
  destruct (shows_add_up_to_rows sample_rows _ ltac:(vm_compute; reflexivity))
    as (H1 & H2 & _).
  split; [exact H1 | exact H2].
Defined.

(** ** Rows the summary cannot fail on *)

Lemma calc_occupancy_sane taken seats :
  0 <= taken <= seats -> is_Ok (calc_occupancy taken seats).
Proof.
  intros Hs. destruct (decide (seats = 0)) as [->|Hne]; [by eexists|].
  destruct (calc_occupancy_below taken seats) as (occ & -> & _); [lia..|].
  by eexists.
Qed.

Lemma total_sane (sel : list ShowRecord) :
  Forall (fun r : ShowRecord => 0 <= sold r <= totalSeats r) sel ->
  0 <= total (fun r : ShowRecord => sold r) sel
    <= total (fun r : ShowRecord => totalSeats r) sel.
Proof.
  induction 1 as [|r sel Hr _ IH]; [done|]. rewrite !total_cons. lia.
Qed.

Lemma buckets_is_Ok {K} `{EqDecision K} (key : ShowRecord -> K) (sel : list ShowRecord) :
  Forall (fun r : ShowRecord => 0 <= sold r <= totalSeats r) sel ->
  is_Ok (mapM final_bucket (upsert_all key new_bucket bucket_row [] sel)).
Proof.
  intros Hsane. apply mapM_is_Ok_elem. intros [k b] Hkb.
  apply dict_get_elem_of_iff in Hkb; [|by apply upsert_all_NoDup, NoDup_nil].
  pose proof (upsert_all_get key new_bucket bucket_row k [] sel) as Hb.
  rewrite Hkb in Hb. change (default new_bucket (Some b)) with b in Hb.
  change (default new_bucket (dict_get k [])) with new_bucket in Hb.
  destruct (bucket_rows (filter (fun r => key r = k) sel) new_bucket)
    as (_ & _ & H3 & H4 & _).
  cbn zeta in *. rewrite <- Hb in H3, H4.
  pose proof (total_sane _ (Forall_filter_sub _ (fun r => key r = k) _ Hsane)) as Ht.
  destruct (calc_occupancy_sane (b_sold b) (b_totalSeats b)) as [occ Hocc].
  { rewrite H3, H4. cbn [new_bucket b_sold b_totalSeats]. lia. }
  unfold final_bucket. cbn [snd]. rewrite Hocc. by eexists.
Qed.

(** X11.  On rows in which the seats sold are neither negative nor more
    than the seats, the summary never raises: every occupancy it computes,
    of a row, of a bucket or of a movie, is defined. *)
Theorem aggregate_returns (rows : list ShowRecord) :
  Forall (fun r : ShowRecord => 0 <= sold r <= totalSeats r) rows ->
  is_Ok (aggregate rows).
Proof.
  intros Hsane. unfold aggregate.
  assert (accumulate [] rows = Ok (foldl step_pure [] rows)) as ->.
  { apply accumulate_pure. split; [|done].
    eapply Forall_impl; [exact Hsane|]. intros r. apply calc_occupancy_sane. }
  cbn [mbind result_bind]. rewrite foldl_step_pure_upsert.
  apply mapM_is_Ok_elem. intros [title m] Hm.
  apply dict_get_elem_of_iff in Hm; [|by apply upsert_all_NoDup, NoDup_nil].
  pose proof (upsert_all_get (fun r : ShowRecord => movie r) new_movie movie_row
                title [] rows) as Hfold.
  rewrite Hm in Hfold. change (default new_movie (Some m)) with m in Hfold.
  change (default new_movie (dict_get title [])) with new_movie in Hfold.
  set (sel := filter (fun r : ShowRecord => movie r = title) rows) in Hfold.
  assert (Forall (fun r : ShowRecord => 0 <= sold r <= totalSeats r) sel) as Hsel
    by (by apply Forall_filter_sub).
  destruct (movie_rows sel new_movie)
    as (_ & _ & H3 & H4 & _ & _ & _ & _ & H9 & H10 & H11).
  cbn zeta in *. rewrite <- Hfold in H3, H4, H9, H10, H11.
  pose proof (total_sane _ Hsel) as Ht.
  destruct (calc_occupancy_sane (m_sold m) (m_totalSeats m)) as [occ Hocc].
  { rewrite H3, H4. cbn [new_movie m_sold m_totalSeats]. lia. }
  destruct (buckets_is_Ok city_key sel Hsel) as [cs Hcs].
  destruct (buckets_is_Ok language_key sel Hsel) as [ls Hls].
  destruct (buckets_is_Ok format_key sel Hsel) as [fs Hfs].
  cbn [snd fst]. unfold final_movie.
  rewrite Hocc, H9, H10, H11. cbn [new_movie m_details m_Language_details
    m_Format_details mbind result_bind].
  rewrite Hcs, Hls, Hfs. cbn [mbind result_bind]. by eexists.
Qed.

Lemma aggregate_returns_witness : is_Ok (aggregate sample_rows).
Proof.
  apply (aggregate_returns sample_rows).
  repeat constructor; simpl; lia.
Defined.
(** ** Occupancy of full and of empty houses *)

Lemma of_ratio_same n :
  0 < n -> F64.of_ratio false n n = S754_finite false mant_one (-52).
Proof.
  intros Hn. rewrite of_ratio_unfold by lia. cbv zeta. rewrite Z.sub_diag.
  change (Z.min (fexp F64.prec F64.emax 0) 0) with (-53).
  change (- -53) with 53.
  rewrite (Z.mul_comm n), Z.div_mul, Z.mod_mul by lia.
  destruct (new_location_code n 0) as [_ H0]. specialize (H0 eq_refl).
  destruct (new_location n 0) as [|[]]; try discriminate H0. reflexivity.
Qed.

Lemma of_ratio_abs s a b :
  0 <= a -> 0 < b -> SFabs (F64.of_ratio s a b) = F64.of_ratio false a b.
Proof. intros Ha Hb. rewrite !of_ratio_unfold by done. apply rnd_abs. Qed.

Lemma int_truediv_small a b :
  b <> 0 -> Z.abs a <= Z.abs b -> is_Ok (int_truediv a b).
Proof.
  intros Hb Hab. unfold int_truediv.
  destruct (Z.eqb_spec b 0); [done|].
  destruct (Z.eqb_spec a 0); [by eexists|].
  pose proof (of_ratio_abs (xorb (a <? 0) (b <? 0)) (Z.abs a) (Z.abs b)
                ltac:(lia) ltac:(lia)) as Habs.
  pose proof (of_ratio_below (Z.abs a) (Z.abs b) mant_one (-52)
                ltac:(lia) ltac:(lia) ltac:(lia) eq_refl) as Hbelow.
  rewrite <- Habs in Hbelow.
  destruct (F64.of_ratio _ _ _) as [?|?| |? ? ?]; try by eexists.
  exfalso. apply Hbelow. change (2 ^ (- -52)) with (Zpos mant_one). nia.
Qed.

(** X12.  [calc_occupancy] never raises [ZeroDivisionError]: it returns
    whenever [sold] is no larger than [total] in absolute value (zero seats
    included), the only exception it can raise is the [OverflowError] of
    the int division, and then [sold] exceeds [total] in absolute value;
    no call leaves the modelled fragment. *)
Theorem calc_occupancy_outcomes (taken seats : Z) :
  (Z.abs taken <= Z.abs seats -> is_Ok (calc_occupancy taken seats)) /\
  (forall e, calc_occupancy taken seats = Raise e ->
     e = OverflowError /\ Z.abs seats < Z.abs taken) /\
  calc_occupancy taken seats <> Unmodelled.
Proof.
  assert (Z.abs taken <= Z.abs seats -> is_Ok (calc_occupancy taken seats)) as Hok.
  { unfold calc_occupancy. destruct (Z.eqb_spec seats 0) as [->|Hne]; [by eexists|].
    intros Hle. destruct (int_truediv_small taken seats Hne Hle) as [q ->].
    by eexists. }
  split; [done|]. split.
  - intros e He. split.
    + revert He. unfold calc_occupancy, int_truediv.
      destruct (seats =? 0); [done|]. destruct (taken =? 0); [done|].
      destruct (F64.of_ratio _ _ _); cbn; try done. by intros [= <-].
    + destruct (Z.lt_ge_cases (Z.abs seats) (Z.abs taken)) as [|Hle]; [done|].
      destruct (Hok Hle) as [occ Hocc]. congruence.
  - unfold calc_occupancy, int_truediv.
    destruct (seats =? 0); [done|]. destruct (taken =? 0); [done|].
    by destruct (F64.of_ratio _ _ _).
Qed.

Lemma calc_occupancy_outcomes_witness :
  is_Ok (calc_occupancy 98 100) /\
  exists e, calc_occupancy (2 ^ 1025) 1 = Raise e /\ e = OverflowError.
Proof.
  split.
  - apply (calc_occupancy_outcomes 98 100). simpl. lia.
  - eexists. split; [vm_compute; reflexivity|].
    apply (calc_occupancy_outcomes (2 ^ 1025) 1). vm_compute. reflexivity.
Defined.

(** X13.  Whatever the size of the house, a show that sold every seat
    has occupancy exactly [100.0] and is counted housefull, and a show that
    sold none has occupancy [0.0] and is counted in neither class. *)
Theorem full_house_is_housefull (seats : Z) :
  0 < seats ->
  calc_occupancy seats seats = Ok (F64.of_Z 100) /\
  calc_occupancy 0 seats = Ok F64.zero /\
  (forall hf ff, tally (F64.of_Z 100) hf ff = (hf + 1, ff)) /\
  (forall hf ff, tally F64.zero hf ff = (hf, ff)).
Proof.
  intros Hs. unfold calc_occupancy, int_truediv.
  destruct (Z.eqb_spec seats 0); [lia|].
  replace (seats <? 0) with false by (symmetry; apply Z.ltb_ge; lia).
  cbn [xorb Z.eqb]. rewrite Z.abs_eq, of_ratio_same by lia.
  repeat split.
Qed.

Lemma full_house_is_housefull_witness :
  calc_occupancy 120 120 = Ok (F64.of_Z 100) /\
  calc_occupancy 0 120 = Ok F64.zero.
Proof.
  destruct (full_house_is_housefull 120 ltac:(lia)) as (H1 & H2 & _).
  split; [exact H1 | exact H2].
Defined.

(** ** More on the parser *)

Lemma get_text v k d s :
  Py.get v k (JStr d) ≫= Py.text = Ok s -> text_field v k d s.
Proof.
  intros (x & Hx & Ht)%bind_Ok. unfold text_field. rewrite Hx.
  destruct x; try done. by injection Ht as ->.
Qed.

Lemma parse_show_fields DATE_CODE title vn va chn dim lang sh rs r :
  parse_show DATE_CODE title vn va chn dim lang sh = Ok rs -> r ∈ rs ->
  on_date DATE_CODE sh /\ sums_of sh r /\
  movie r = title /\ venue r = vn /\ address r = va /\ chain r = chn /\
  text_field sh "ShowTime" "" (time r) /\
  Py.get sh "SessionId" (JStr "") ≫= Py.str = Ok (session_id r).
Proof.
  intros Hp Hr. pose proof (parse_show_elem _ _ _ _ _ _ _ _ _ _ Hp Hr) as Hd.
  split; [done|].
  destruct (parse_show_on_date _ _ _ _ _ _ _ _ _ Hp Hd)
    as (r' & -> & Hs & Hm & Hv & Ha & Hc & _).
  apply list_elem_of_singleton in Hr as ->.
  do 5 (split; [done|]).
  unfold parse_show, on_date in Hp, Hd. rewrite Hd in Hp. simpl in Hp.
  rewrite String.eqb_refl in Hp.
  apply bind_Ok in Hp as (cats & Hcats & Hp).
  apply bind_Ok in Hp as (t & Ht & Hp).
  apply bind_Ok in Hp as (tm & Htm & Hp).
  apply bind_Ok in Hp as (au & Hau & Hp).
  apply bind_Ok in Hp as (sid & Hsid & [= <-]). simpl.
  split; [by apply get_text | done].
Qed.

(** Every row with the block, the event, the child event and the show
    time it was made from. *)
Lemma parse_payload_origin DATE_CODE data rows r :
  parse_payload DATE_CODE data = Ok rows -> r ∈ rows ->
  exists sd0 ven ev ch sh,
    row_source data sd0 ev ch sh /\ on_date DATE_CODE sh /\ sums_of sh r /\
    Py.get sd0 "Venues" (JObj []) = Ok ven /\
    text_field ven "VenueName" "" (venue r) /\
    text_field ven "VenueAdd" "" (address r) /\
    text_field ven "VenueCompName" "Unknown" (chain r) /\
    text_field ev "EventTitle" "Unknown" (movie r) /\
    text_field sh "ShowTime" "" (time r) /\
    Py.get sh "SessionId" (JStr "") ≫= Py.str = Ok (session_id r).
Proof.
  unfold parse_payload. intros (sd & Hsd & Hp)%bind_Ok Hr.
  destruct (Py.truthy sd) eqn:Htr; simpl in Hp;
    [|injection Hp as <-; by apply elem_of_nil in Hr].
  apply bind_Ok in Hp as (sd0 & Hsd0 & Hp).
  apply bind_Ok in Hp as (ven & Hven & Hp).
  apply bind_Ok in Hp as (vn & Hvn & Hp).
  apply bind_Ok in Hp as (va & Hva & Hp).
  apply bind_Ok in Hp as (chn & Hchn & Hp).
  apply bind_Ok in Hp as (evs & Hevs & Hp).
  destruct (for_each_elem _ _ _ _ Hp Hr) as (ev & rs1 & Hev & Hpe & Hr1).
  unfold parse_event in Hpe.
  apply bind_Ok in Hpe as (title & Htitle & Hpe).
  apply bind_Ok in Hpe as (chs & Hchs & Hpe).
  destruct (for_each_elem _ _ _ _ Hpe Hr1) as (ch & rs2 & Hch & Hpc & Hr2).
  unfold parse_child in Hpc.
  apply bind_Ok in Hpc as (dim & Hdim & Hpc).
  apply bind_Ok in Hpc as (lang & Hlang & Hpc).
  apply bind_Ok in Hpc as (shs & Hshs & Hpc).
  destruct (for_each_elem _ _ _ _ Hpc Hr2) as (sh & rs3 & Hsh & Hps & Hr3).
  destruct (parse_show_fields _ _ _ _ _ _ _ _ _ _ Hps Hr3)
    as (Hdate & Hsums & Hm & Hv & Ha & Hc & Htm & Hsid).
  exists sd0, ven, ev, ch, sh.
  split; [by exists sd, evs, chs, shs|].
  rewrite Hm, Hv, Ha, Hc. repeat split; try done; by apply get_text.
Qed.

(** X14.  In every parsed row the seats sold and the seats available add
    up to the seats of the show. *)
Theorem seats_balance (DATE_CODE : string) (data : pyval)
    (rows : list ParsedShow) (r : ParsedShow) :
  parse_payload DATE_CODE data = Ok rows ->
  r ∈ rows ->
  sold r + available r = totalSeats r.
Proof.
  intros Hp Hr.
  destruct (parse_payload_origin _ _ _ _ Hp Hr)
    as (_ & _ & _ & _ & sh & _ & _ & Hs & _).
  destruct Hs as (cats & fields & g & _ & _ & Ht & Ha & Hso & _).
  rewrite Ht, Ha, Hso, (total_difference (fun f => f.1.1) (fun f => f.1.2)). lia.
Qed.

Lemma seats_balance_witness :
  exists r,
    parse_payload "20260101" (one_show_payload [category 100 2 200]) = Ok [r] /\
    sold r + available r = totalSeats r.
Proof.
  eexists. split; [vm_compute; reflexivity|].
  apply (seats_balance "20260101" (one_show_payload [category 100 2 200]) _ _
           ltac:(vm_compute; reflexivity) ltac:(apply list_elem_of_here)).
Defined.

(** X15.  Every parsed row comes from a show time of a child event of an
    event of the first block of [ShowDetails], and takes its venue name,
    address and chain from the [Venues] entry of that block, its title from
    the event, and its time and session id from the show time; a missing
    name, address, time or session id is the empty string, a missing title
    or chain is ["Unknown"], and the session id is passed through
    [str()]. *)
Theorem text_of_rows (DATE_CODE : string) (data : pyval)
    (rows : list ParsedShow) (r : ParsedShow) :
  parse_payload DATE_CODE data = Ok rows ->
  r ∈ rows ->
  exists sd0 ven ev ch sh,
    row_source data sd0 ev ch sh /\
    Py.get sd0 "Venues" (JObj []) = Ok ven /\
    text_field ven "VenueName" "" (venue r) /\
    text_field ven "VenueAdd" "" (address r) /\
    text_field ven "VenueCompName" "Unknown" (chain r) /\
    text_field ev "EventTitle" "Unknown" (movie r) /\
    text_field sh "ShowTime" "" (time r) /\
    Py.get sh "SessionId" (JStr "") ≫= Py.str = Ok (session_id r).
Proof.
  intros Hp Hr.
  destruct (parse_payload_origin _ _ _ _ Hp Hr)
    as (sd0 & ven & ev & ch & sh & Hsrc & _ & _ & H).
  by exists sd0, ven, ev, ch, sh.
Qed.

Lemma text_of_rows_witness :
  exists r ven ev sh,
    parse_payload "20260101" (one_show_payload [category 100 2 200]) = Ok [r] /\
    text_field ven "VenueCompName" "Unknown" (chain r) /\
    text_field ev "EventTitle" "Unknown" (movie r) /\
    Py.get sh "SessionId" (JStr "") ≫= Py.str = Ok (session_id r).
Proof.
  eexists.
  destruct (text_of_rows "20260101" (one_show_payload [category 100 2 200]) _ _
              ltac:(vm_compute; reflexivity) ltac:(apply list_elem_of_here))
    as (sd0 & ven & ev & ch & sh & _ & _ & _ & _ & Hc & Ht & _ & Hs).
  exists ven, ev, sh. split; [reflexivity|].
  split; [exact Hc|]. split; [exact Ht | exact Hs].
Defined.

(** X16.  All the rows of one payload carry the same venue name, address
    and chain. *)
Theorem rows_of_one_venue (DATE_CODE : string) (data : pyval)
    (rows : list ParsedShow) (r r' : ParsedShow) :
  parse_payload DATE_CODE data = Ok rows ->
  r ∈ rows -> r' ∈ rows ->
  venue r = venue r' /\ address r = address r' /\ chain r = chain r'.
Proof.
  intros Hp Hr Hr'.
  destruct (parse_payload_origin _ _ _ _ Hp Hr)
    as (sd0 & ven & ? & ? & ? & (sd & ? & ? & ? & Hsd & Hsd0 & _) & _ & _
        & Hven & Hn & Ha & Hc & _).
  destruct (parse_payload_origin _ _ _ _ Hp Hr')
    as (sd0' & ven' & ? & ? & ? & (sd' & ? & ? & ? & Hsd' & Hsd0' & _) & _ & _
        & Hven' & Hn' & Ha' & Hc' & _).
  unfold text_field in *.
  assert (sd' = sd) as -> by congruence.
  assert (sd0' = sd0) as -> by congruence.
  assert (ven' = ven) as -> by congruence.
  repeat split; congruence.
Qed.

Lemma rows_of_one_venue_witness :
  exists r r',
    parse_payload "20260101"
      (payload_of_shows [priced_show "10:00 AM" 200; priced_show "01:00 PM" 150])
    = Ok [r; r'] /\
    venue r = venue r' /\ address r = address r' /\ chain r = chain r'.
Proof.
  eexists _, _. split; [vm_compute; reflexivity|].
  apply (rows_of_one_venue "20260101"
           (payload_of_shows [priced_show "10:00 AM" 200; priced_show "01:00 PM" 150])
           _ _ _ ltac:(vm_compute; reflexivity)
           ltac:(apply list_elem_of_here)
           ltac:(apply list_elem_of_further, list_elem_of_here)).
Defined.

(** X17.  What [parse_payload] does at the top of the payload: a payload
    that is not an object raises [AttributeError]; a missing [ShowDetails],
    or one that holds a false value ([null], [[]], [{}], [""], [0], ...),
    gives no rows and no error; a true value that is not a list raises:
    [KeyError] for an object, [AttributeError] for a string, [TypeError]
    for a number or [true]. *)
Theorem show_details_edge_cases (DATE_CODE : string) :
  (forall data, ~ is_obj data -> parse_payload DATE_CODE data = Raise AttributeError) /\
  (forall kv, dict_get "ShowDetails" kv = None ->
     parse_payload DATE_CODE (JObj kv) = Ok []) /\
  (forall kv v, dict_get "ShowDetails" kv = Some v -> Py.truthy v = false ->
     parse_payload DATE_CODE (JObj kv) = Ok []) /\
  (forall kv v, dict_get "ShowDetails" kv = Some v -> Py.truthy v = true ->
     (forall l, v <> JArr l) ->
     parse_payload DATE_CODE (JObj kv) = Raise (show_details_error v)).
Proof.
  repeat split.
  - intros data Hno. destruct data; try done. exfalso. apply Hno. by eexists.
  - intros kv Hk. unfold parse_payload, Py.get. by rewrite Hk.
  - intros kv v Hk Hv. unfold parse_payload, Py.get. rewrite Hk. simpl.
    by rewrite Hv.
  - intros kv v Hk Hv Hl. unfold parse_payload, Py.get. rewrite Hk. simpl.
    rewrite Hv. simpl.
    destruct v as [|b|z|x|s|l|kv']; try done.
    + by destruct s.
    + exfalso. by eapply Hl.
Qed.

Lemma show_details_edge_cases_witness :
  parse_payload "20260101" (JArr []) = Raise AttributeError /\
  parse_payload "20260101" (JObj [("ShowDetails", JNull)]) = Ok [] /\
  parse_payload "20260101" (JObj [("ShowDetails", JObj [("0", JNull)])])
  = Raise KeyError.
Proof.
  destruct (show_details_edge_cases "20260101") as (H1 & _ & H3 & H4).
  split; [apply H1; by intros [? ?]|]. split.
  - by apply (H3 [("ShowDetails", JNull)] JNull).
  - by apply (H4 [("ShowDetails", JObj [("0", JNull)])] (JObj [("0", JNull)])).
Defined.

(** ** Show times of other dates *)

Lemma parse_show_undated DATE_CODE title vn va chn dim lang sh :
  is_obj sh -> dated DATE_CODE sh = false ->
  parse_show DATE_CODE title vn va chn dim lang sh = Ok [].
Proof.
  intros [kv ->]. unfold dated, parse_show, Py.get. simpl.
  destruct (dict_get "ShowDateCode" kv) as [[| | | |c| |]|]; simpl; try done.
  by intros ->.
Qed.

(** X18.  Among the show times of a child event, which are objects,
    those of another date contribute nothing and are not read beyond their
    date code: dropping them from [ShowTimes] leaves the outcome of the
    child event unchanged, rows and exceptions alike. *)
Theorem other_dates_are_skipped (DATE_CODE title vn va chn : string)
    (kv : list (string * pyval)) (shows : list pyval) :
  dict_get "ShowTimes" kv = Some (JArr shows) ->
  Forall is_obj shows ->
  parse_child DATE_CODE title vn va chn (JObj kv) =
  parse_child DATE_CODE title vn va chn
    (JObj (dict_set "ShowTimes"
             (JArr (filter (fun sh => dated DATE_CODE sh = true) shows)) kv)).
Proof.
  intros Hk Hobj. unfold parse_child, stripped_or_unknown, Py.get.
  rewrite !dict_get_set, Hk. cbn [decide]. simpl.
  destruct (default (JStr "") (dict_get "EventDimension" kv)); try done.
  destruct (default (JStr "") (dict_get "EventLanguage" kv)); try done.
  simpl. symmetry. apply for_each_filter. intros sh Hsh Hd.
  rewrite Forall_forall in Hobj. apply parse_show_undated; [by apply Hobj|].
  by destruct (dated DATE_CODE sh).
Qed.

Lemma other_dates_are_skipped_witness :
  parse_child "20260101" "Alpha" "PVR" "" "PVR" (JObj two_dates_child) =
  parse_child "20260101" "Alpha" "PVR" "" "PVR"
    (JObj (dict_set "ShowTimes" (JArr [sample_show_time [category 100 2 200]])
             two_dates_child)).
Proof.
  exact (other_dates_are_skipped "20260101" "Alpha" "PVR" "" "PVR"
           two_dates_child
           [sample_show_time [category 100 2 200]; next_day_show]
           ltac:(reflexivity)
           ltac:(repeat constructor; by eexists)).
Defined.

(** ** Trimming *)

Lemma lstrip_visible c l : Py.is_space c = false -> Py.lstrip (c :: l) = c :: l.
Proof. intros Hc. simpl. by rewrite Hc. Qed.

Lemma lstrip_head l :
  Py.lstrip l = [] \/ exists c l', Py.lstrip l = c :: l' /\ Py.is_space c = false.
Proof.
  induction l as [|c l IH]; [by left|]. simpl.
  destruct (Py.is_space c) eqn:Hc; [done|]. right. by exists c, l.
Qed.

Lemma lstrip_idem l : Py.lstrip (Py.lstrip l) = Py.lstrip l.
Proof.
  destruct (lstrip_head l) as [->|(c & l' & -> & Hc)]; [done|].
  by apply lstrip_visible.
Qed.

Lemma lstrip_snoc_visible l c :
  Py.is_space c = false -> exists l', Py.lstrip (l ++ [c]) = l' ++ [c].
Proof.
  intros Hc. induction l as [|x l IH]; simpl.
  - rewrite Hc. by exists [].
  - destruct (Py.is_space x); [done|]. by exists (x :: l).
Qed.

(** The core of [strip], on the list of characters. *)
Lemma strip_core l :
  let t := rev (Py.lstrip (rev (Py.lstrip l))) in
  Py.lstrip t = t /\ Py.lstrip (rev t) = rev t /\ head t = head (Py.lstrip l).
Proof.
  cbv zeta. rewrite rev_involutive, lstrip_idem. split; [|split; [done|]].
  - destruct (lstrip_head l) as [->|(c & l' & -> & Hc)]; [done|].
    simpl. destruct (lstrip_snoc_visible (rev l') c Hc) as [ys ->].
    rewrite rev_app_distr. simpl. by rewrite Hc.
  - destruct (lstrip_head l) as [->|(c & l' & -> & Hc)]; [done|].
    simpl. destruct (lstrip_snoc_visible (rev l') c Hc) as [ys ->].
    by rewrite rev_app_distr.
Qed.

Lemma strip_idem s : Py.strip (Py.strip s) = Py.strip s.
Proof.
  unfold Py.strip. rewrite list_ascii_of_string_of_list_ascii.
  destruct (strip_core (list_ascii_of_string s)) as (H1 & H2 & _).
  cbv zeta in H1, H2. by rewrite H1, H2, rev_involutive.
Qed.

Lemma stripped_or_unknown_trimmed v k t :
  stripped_or_unknown v k = Ok t -> t <> "" /\ trimmed t.
Proof.
  intros (kv & -> & [[_ ->]|(s & _ & ->)])%stripped_or_unknown_spec; [done|].
  destruct (String.eqb_spec (Py.strip s) "") as [|Hne]; [done|].
  split; [done|]. apply strip_idem.
Qed.

(** X19.  The [dimension] and the [language] of a parsed row are never
    empty and have no whitespace at either end. *)
Theorem labels_are_trimmed (DATE_CODE : string) (data : pyval)
    (rows : list ParsedShow) (r : ParsedShow) :
  parse_payload DATE_CODE data = Ok rows ->
  r ∈ rows ->
  dimension r <> "" /\ trimmed (dimension r) /\
  language r <> "" /\ trimmed (language r).
Proof.
  intros Hp Hr.
  destruct (parse_payload_sound _ _ _ _ Hp Hr)
    as (ch & sh & dim & lang & _ & _ & _ & Hd & <- & Hl & <- & _).
  apply stripped_or_unknown_trimmed in Hd as [? ?], Hl as [? ?]. done.
Qed.

Lemma labels_are_trimmed_witness :
  exists r,
    parse_payload "20260101" (one_show_payload [category 100 2 200]) = Ok [r] /\
    dimension r <> "" /\ trimmed (language r).
Proof.
  eexists. split; [vm_compute; reflexivity|].
  destruct (labels_are_trimmed "20260101" (one_show_payload [category 100 2 200])
              _ _ ltac:(vm_compute; reflexivity) ltac:(apply list_elem_of_here))
    as (H1 & _ & _ & H4).
  split; [exact H1 | exact H4].
Defined.

(** ** Seat counts sent as text *)

Lemma digit_not_blank c : Py.is_digit c = true -> Py.is_blank c = false.
Proof. by destruct c as [[|] [|] [|] [|] [|] [|] [|] [|]]. Qed.

Lemma lskip_visible c l : Py.is_blank c = false -> Py.lskip (c :: l) = c :: l.
Proof. intros Hc. simpl. by rewrite Hc. Qed.

Lemma digit_not_sign c l : Py.is_digit c = true -> Py.split_sign (c :: l) = (false, c :: l).
Proof. by destruct c as [[|] [|] [|] [|] [|] [|] [|] [|]]. Qed.

Lemma digit_not_underscore c : Py.is_digit c = true -> Ascii.eqb c "_" = false.
Proof. by destruct c as [[|] [|] [|] [|] [|] [|] [|] [|]]. Qed.

Lemma ungroup_after_digit p c l :
  Py.is_digit p = true ->
  Py.ungroup (Some p) (c :: l) =
  if Ascii.eqb c "_" then Py.ungroup (Some c) l
  else cons c <$> Py.ungroup (Some c) l.
Proof.
  intros Hp. cbn [Py.ungroup]. rewrite Hp.
  destruct (Ascii.eqb c "_"); [done|].
  by destruct p as [[|] [|] [|] [|] [|] [|] [|] [|]].
Qed.

Lemma ungroup_digits p l :
  Py.is_digit p = true -> Forall (fun c => Py.is_digit c = true) l ->
  Py.ungroup (Some p) l = Some l.
Proof.
  intros Hp Hl. revert p Hp. induction Hl as [|c l Hc _ IH]; intros p Hp.
  - cbn. by destruct p as [[|] [|] [|] [|] [|] [|] [|] [|]].
  - rewrite ungroup_after_digit, digit_not_underscore, IH by done. done.
Qed.

Lemma ungroup_numeral c l :
  Forall (fun c => Py.is_digit c = true) (c :: l) ->
  Py.ungroup None (c :: l) = Some (c :: l).
Proof.
  intros [Hc Hl]%Forall_cons. cbn [Py.ungroup].
  rewrite digit_not_underscore, ungroup_digits by done. done.
Qed.

Lemma lskip_digits l :
  Forall (fun c => Py.is_digit c = true) l -> Py.lskip l = l.
Proof.
  intros [|c l' Hc _]; [done|]. by apply lskip_visible, digit_not_blank.
Qed.

Lemma numeral_digits d : Forall (fun c => Py.is_digit c = true) (numeral d).
Proof. unfold numeral. induction d; simpl; by constructor. Qed.

Lemma numeral_value_acc d acc :
  Py.digits_value (Zpos acc) (numeral d) = Some (Zpos (Pos.of_uint_acc d acc)).
Proof.
  unfold numeral. revert acc.
  induction d as [|d IH|d IH|d IH|d IH|d IH|d IH|d IH|d IH|d IH|d IH];
    intros acc; [done|..];
    cbn [NilEmpty.string_of_uint list_ascii_of_string Py.digits_value Pos.of_uint_acc];
    match goal with |- context [Py.digit ?c] =>
      let v := eval vm_compute in (Py.digit c) in change (Py.digit c) with v
    end;
    cbn [mbind option_bind]; rewrite <- IH; f_equal; lia.
Qed.

Lemma numeral_value d :
  Py.digits_value 0 (numeral d) = Some (Z.of_N (Pos.of_uint d)).
Proof.
  induction d as [|d IH|d IH|d IH|d IH|d IH|d IH|d IH|d IH|d IH|d IH];
    [done | exact IH | ..]; apply numeral_value_acc.
Qed.

(** [int()] of the text of a numeral. *)
Lemma int_of_numeral (neg : bool) (d : Decimal.uint) :
  numeral d <> [] -> Z.of_nat (length (numeral d)) <= 4300 ->
  Py.int_of_str (string_of_list_ascii
                   (if neg then "-"%char :: numeral d else numeral d))
  = Ok (if neg then - Z.of_N (Pos.of_uint d) else Z.of_N (Pos.of_uint d)).
Proof.
  intros Hne Hlen. unfold Py.int_of_str.
  rewrite list_ascii_of_string_of_list_ascii.
  pose proof (numeral_digits d) as Hd.
  assert (Forall (fun c => Py.is_digit c = true) (rev (numeral d))) as Hrev
    by (by apply Forall_rev).
  assert (rev (Py.lskip (rev (Py.lskip
            (if neg then "-"%char :: numeral d else numeral d))))
          = (if neg then "-"%char :: numeral d else numeral d)) as ->.
  { destruct neg.
    - change (Py.lskip ("-"%char :: numeral d)) with ("-"%char :: numeral d).
      cbn [rev]. destruct (rev (numeral d)) as [|c l] eqn:Hr.
      { exfalso. apply Hne. by rewrite <- (rev_involutive (numeral d)), Hr. }
      apply Forall_cons in Hrev as [Hc _].
      cbn [app]. rewrite lskip_visible by (by apply digit_not_blank).
      change (c :: l ++ ["-"%char]) with ((c :: l) ++ ["-"%char]).
      by rewrite <- Hr, rev_app_distr, rev_involutive.
    - rewrite (lskip_digits (numeral d)) by done.
      by rewrite lskip_digits, rev_involutive. }
  destruct (numeral d) as [|c l] eqn:Hnum; [done|].
  assert (Py.split_sign (if neg then "-"%char :: c :: l else c :: l)
          = (neg, c :: l)) as ->.
  { destruct neg; [done|]. apply digit_not_sign. by apply Forall_cons in Hd as [? _]. }
  rewrite ungroup_numeral by done. rewrite <- Hnum, numeral_value, Hnum.
  destruct (Z.ltb_spec 4300 (Z.of_nat (length (c :: l)))); [lia|done].
Qed.

Lemma to_uint_numeral p : numeral (Pos.to_uint p) <> [].
Proof.
  intros Hnil. pose proof (numeral_value (Pos.to_uint p)) as Hv.
  rewrite Hnil, DecimalPos.Unsigned.of_to in Hv. done.
Qed.

Lemma string_of_numeral d :
  numeral d <> [] -> NilZero.string_of_uint d = string_of_list_ascii (numeral d).
Proof.
  unfold numeral. rewrite string_of_list_ascii_of_string. by destruct d.
Qed.

Lemma length_string_of_list_ascii l :
  String.length (string_of_list_ascii l) = length l.
Proof. induction l as [|c l IH]; [done|]. simpl. by rewrite IH. Qed.

(** [int(str(z)) == z] *)
Lemma int_of_str_of_int (z : Z) (s : string) :
  Py.str (JInt z) = Ok s -> Z.of_nat (String.length s) <= 4300 ->
  Py.int (JStr s) = Ok z.
Proof.
  cbn [Py.str Py.int]. destruct (_ <=? _); [done|]. intros [= <-].
  destruct z as [|p|p]; [done|..]; cbn [Z.to_int NilZero.string_of_int].
  - rewrite string_of_numeral by apply to_uint_numeral. intros Hlen.
    rewrite (int_of_numeral false), DecimalPos.Unsigned.of_to;
      [done | apply to_uint_numeral |].
    by rewrite length_string_of_list_ascii in Hlen.
  - rewrite string_of_numeral by apply to_uint_numeral. intros Hlen.
    change (String "-" (string_of_list_ascii ?l))
      with (string_of_list_ascii ("-"%char :: l)).
    rewrite (int_of_numeral true), DecimalPos.Unsigned.of_to;
      [done | apply to_uint_numeral |].
    cbn [String.length] in Hlen. rewrite length_string_of_list_ascii in Hlen. lia.
Qed.

(** X20.  A category that sends its seat counts as decimal text, as
    [str()] prints them, is read like the category that sends them as
    numbers: [int()] reads back what [str()] prints. *)
Theorem counts_sent_as_text (seats free : Z) (s_seats s_free : string)
    (price : pyval) :
  Py.str (JInt seats) = Ok s_seats ->
  Py.str (JInt free) = Ok s_free ->
  Z.of_nat (String.length s_seats) <= 4300 ->
  Z.of_nat (String.length s_free) <= 4300 ->
  category_fields (JObj [("MaxSeats", JStr s_seats); ("SeatsAvail", JStr s_free);
                         ("CurPrice", price)]) =
  category_fields (JObj [("MaxSeats", JInt seats); ("SeatsAvail", JInt free);
                         ("CurPrice", price)]).
Proof.
  intros Hs Hf Hls Hlf. unfold category_fields, Py.get.
  repeat match goal with
  | |- context [dict_get ?k ?l] =>
      let v := eval vm_compute in (dict_get k l) in change (dict_get k l) with v
  end.
  change (default ?d (Some ?v)) with v. cbn [mbind result_bind].
  by rewrite (int_of_str_of_int _ _ Hs Hls), (int_of_str_of_int _ _ Hf Hlf).
Qed.

Lemma counts_sent_as_text_witness :
  category_fields (JObj [("MaxSeats", JStr "120"); ("SeatsAvail", JStr "-3");
                         ("CurPrice", JInt 200)]) =
  category_fields (category 120 (-3) 200).
Proof.
  apply (counts_sent_as_text 120 (-3) "120" "-3" (JInt 200)
           ltac:(reflexivity) ltac:(reflexivity)
           ltac:(simpl; lia) ltac:(simpl; lia)).
Defined.

(** ** One row per show time, in document order *)

Lemma dated_on_date DATE_CODE kv :
  dated DATE_CODE (JObj kv) = true <-> on_date DATE_CODE (JObj kv).
Proof.
  unfold dated, on_date, Py.get.
  destruct (dict_get "ShowDateCode" kv) as [[| | | |c| |]|]; simpl;
    try (split; [done | by intros [=]]).
  destruct (String.eqb_spec c DATE_CODE) as [->|Hne]; [done|].
  split; [done | intros [=]; congruence].
Qed.

Lemma parse_show_row DATE_CODE title vn va chn dim lang sh rs :
  parse_show DATE_CODE title vn va chn dim lang sh = Ok rs ->
  if decide (dated DATE_CODE sh = true)
  then exists r, rs = [r] /\ row_of_show sh r
  else rs = [].
Proof.
  intros Hp. destruct sh as [| | | | | |kv]; try done.
  destruct (decide _) as [Hd|Hd].
  - apply dated_on_date in Hd.
    destruct (parse_show_on_date _ _ _ _ _ _ _ _ _ Hp Hd)
      as (r & -> & Hs & _ & _ & _ & _ & _ & _ & Ha).
    destruct (parse_show_fields _ _ _ _ _ _ _ _ _ _ Hp (list_elem_of_here _ _))
      as (_ & _ & _ & _ & _ & _ & Ht & Hsid).
    by exists r.
  - destruct rs as [|r rs]; [done|]. exfalso. apply Hd, dated_on_date.
    eapply parse_show_elem; [exact Hp | apply list_elem_of_here].
Qed.

Lemma items_Ok v k l : Py.get v k (JArr []) ≫= Py.iter = Ok l -> items v k = l.
Proof. unfold items. by intros ->. Qed.

(** X21.  The rows of a payload are the rows of its show times on the
    date, one each and in document order: event by event, child event by
    child event and show time by show time of the first block of
    [ShowDetails]; the row of a show time carries the sums of its
    categories, its time, its session id and its auditorium. *)
Theorem rows_in_document_order (DATE_CODE : string) (data : pyval)
    (rows : list ParsedShow) :
  parse_payload DATE_CODE data = Ok rows ->
  Forall2 row_of_show (dated_shows DATE_CODE data) rows.
Proof.
  unfold parse_payload, dated_shows. intros (sd & Hsd & Hp)%bind_Ok.
  rewrite Hsd. cbn [mbind result_bind].
  destruct (Py.truthy sd) eqn:Htr; simpl in Hp.
  2:{ injection Hp as <-.
      destruct sd as [|b|z|x|[|c s]|[|y l]|[|p kv]]; simpl in Htr; try done;
        cbn; constructor. }
  apply bind_Ok in Hp as (sd0 & Hsd0 & Hp). rewrite Hsd0.
  apply bind_Ok in Hp as (ven & Hven & Hp).
  apply bind_Ok in Hp as (vn & Hvn & Hp).
  apply bind_Ok in Hp as (va & Hva & Hp).
  apply bind_Ok in Hp as (chn & Hchn & Hp).
  apply bind_Ok in Hp as (evs & Hevs & Hp).
  rewrite (items_Ok _ _ _ Hevs).
  apply for_each_join in Hp as (yss & Hall & ->).
  apply Forall2_flat_map. eapply Forall2_impl; [exact Hall|].
  intros ev rs1 Hpe. unfold parse_event in Hpe.
  apply bind_Ok in Hpe as (title & Htitle & Hpe).
  apply bind_Ok in Hpe as (chs & Hchs & Hpe).
  rewrite (items_Ok _ _ _ Hchs).
  apply for_each_join in Hpe as (yss1 & Hall1 & ->).
  apply Forall2_flat_map. eapply Forall2_impl; [exact Hall1|].
  intros ch rs2 Hpc. unfold parse_child in Hpc.
  apply bind_Ok in Hpc as (dim & Hdim & Hpc).
  apply bind_Ok in Hpc as (lang & Hlang & Hpc).
  apply bind_Ok in Hpc as (shs & Hshs & Hpc).
  rewrite (items_Ok _ _ _ Hshs).
  apply for_each_join in Hpc as (yss2 & Hall2 & ->).
  apply Forall2_filter_join. eapply Forall2_impl; [exact Hall2|].
  intros sh rs3 Hps. exact (parse_show_row _ _ _ _ _ _ _ _ _ Hps).
Qed.

Lemma rows_in_document_order_witness :
  exists r r',
    parse_payload "20260101"
      (payload_of_shows [priced_show "10:00 AM" 200; next_day_show;
                         priced_show "01:00 PM" 150])
    = Ok [r; r'] /\
    Forall2 row_of_show
      [priced_show "10:00 AM" 200; priced_show "01:00 PM" 150] [r; r'].
Proof.
  eexists _, _. split; [vm_compute; reflexivity|].
  apply (rows_in_document_order "20260101"
           (payload_of_shows [priced_show "10:00 AM" 200; next_day_show;
                              priced_show "01:00 PM" 150])
           _ ltac:(vm_compute; reflexivity)).
Defined.

(** ** The run *)

Lemma venue_loop_spec DATE_CODE fetch venues st st' :
  venue_loop DATE_CODE venues fetch st = Ok st' ->
  all_rows st' = all_rows st ++ mjoin (venue_rows DATE_CODE fetch <$> venues) /\
  failures st' = failures st ++ omap (venue_failure DATE_CODE fetch) venues.
Proof.
  revert st. induction venues as [|[vcode meta] venues IH]; intros st.
  - intros [= <-]. simpl. by rewrite !app_nil_r.
  - cbn [venue_loop]. intros (st1 & H1 & Hrest)%bind_Ok.
    destruct (IH _ Hrest) as [Hr Hf]. rewrite Hr, Hf.
    rewrite fmap_cons, omap_cons, mjoin_cons.
    assert (venue_rows DATE_CODE fetch (vcode, meta) =
            match venue_try DATE_CODE meta (fetch vcode) with
            | Ok rows => rows
            | _ => []
            end) as -> by done.
    assert (venue_failure DATE_CODE fetch (vcode, meta) =
            match venue_try DATE_CODE meta (fetch vcode) with
            | Raise e => Some (vcode, e)
            | _ => None
            end) as -> by done.
    unfold venue_attempt in H1.
    destruct (venue_try DATE_CODE meta (fetch vcode)) as [rows|e|]; [..|done];
      injection H1 as <-; cbn [all_rows failures]; by rewrite <- !app_assoc.
Qed.

(** X22.  A run that completes wrote the deduplicated rows of the venues
    whose attempt succeeded, in the order of the venue file, and logged as
    failed exactly the venues whose fetch, parse or tagging raised, each
    with the class of its exception; a failed venue contributes no row and
    does not stop the loop; and the summary it wrote is the summary of the
    detailed rows. *)
Theorem run_isolates_failures (DATE_CODE : string)
    (venues : list (string * pyval)) (fetch : string -> result pyval)
    (out : run_output) :
  main_block DATE_CODE venues fetch = Ok out ->
  out_detailed out = dedupe (mjoin (venue_rows DATE_CODE fetch <$> venues)) /\
  out_failures out = omap (venue_failure DATE_CODE fetch) venues /\
  aggregate (out_detailed out) = Ok (out_summary out).
Proof.
  unfold main_block. intros (st & Hloop & Hout)%bind_Ok.
  apply bind_Ok in Hout as (fs & Hagg & [= <-]).
  cbn [out_detailed out_failures out_summary].
  apply venue_loop_spec in Hloop as [Hr Hf].
  cbn [all_rows failures app] in Hr, Hf. by rewrite <- Hr, <- Hf.
Qed.

Lemma run_isolates_failures_witness :
  exists out r,
    main_block "20260101" two_venues sample_fetch = Ok out /\
    out_detailed out = [r] /\
    out_failures out = [("INOX", TimeoutError)].
Proof.
  eexists _, _. split; [vm_compute; reflexivity|].
  destruct (run_isolates_failures "20260101" two_venues sample_fetch _
              ltac:(vm_compute; reflexivity)) as (_ & Hf & _).
  split; [reflexivity | exact Hf].
Defined.

(** X23.  Every detailed row of a run is a row parsed from the payload
    fetched for a venue of the venue file, tagged with the city and state of
    that venue (["Unknown"] when the venue file lacks one), with the source
    ["BMS"] and with the date code of the run. *)
Theorem detailed_rows_provenance (DATE_CODE : string)
    (venues : list (string * pyval)) (fetch : string -> result pyval)
    (out : run_output) (r : ShowRecord) :
  main_block DATE_CODE venues fetch = Ok out ->
  r ∈ out_detailed out ->
  exists vcode meta raw rows,
    (vcode, meta) ∈ venues /\ fetch vcode = Ok raw /\
    parse_payload DATE_CODE raw = Ok rows /\ show r ∈ rows /\
    text_field meta "City" "Unknown" (city r) /\
    text_field meta "State" "Unknown" (state r) /\
    source r = "BMS" /\ date r = DATE_CODE.
Proof.
  unfold main_block. intros (st & Hloop & Hout)%bind_Ok.
  apply bind_Ok in Hout as (fs & Hagg & [= <-]). cbn [out_detailed].
  apply venue_loop_spec in Hloop as [-> _]. cbn [all_rows app].
  rewrite dedupe_first_seen. intros Hr.
  pose proof (elem_of_sublist _ _ _ Hr (first_seen_sublist _ _)) as Hin.
  apply list_elem_of_join in Hin as (rs & Hrs & Hvm).
  apply list_elem_of_fmap in Hvm as ([vcode meta] & -> & Hvm).
  unfold venue_rows, venue_try in Hrs. cbn [fst snd] in Hrs.
  destruct (fetch vcode) as [raw| |] eqn:Hfetch;
    cbn [mbind result_bind] in Hrs; try by apply elem_of_nil in Hrs.
  destruct (parse_payload DATE_CODE raw) as [rows| |] eqn:Hparse;
    cbn [mbind result_bind] in Hrs; try by apply elem_of_nil in Hrs.
  destruct (mapM (tag_row DATE_CODE meta) rows) as [tagged| |] eqn:Htag;
    try by apply elem_of_nil in Hrs.
  destruct (mapM_elem _ _ _ _ Htag Hrs) as (p & Hp & Htagp).
  unfold tag_row in Htagp.
  apply bind_Ok in Htagp as (c & Hc & Htagp).
  apply bind_Ok in Htagp as (s & Hs & [= <-]).
  exists vcode, meta, raw, rows. cbn.
  repeat split; try done; by apply get_text.
Qed.

Lemma detailed_rows_provenance_witness :
  exists out r,
    main_block "20260101" two_venues sample_fetch = Ok out /\
    out_detailed out = [r] /\
    source r = "BMS" /\ date r = "20260101" /\ city r = "Pune".
Proof.
  eexists _, _. split; [vm_compute; reflexivity|]. split; [reflexivity|].
  destruct (detailed_rows_provenance "20260101" two_venues sample_fetch _ _
              ltac:(vm_compute; reflexivity) ltac:(apply list_elem_of_here))
    as (vcode & meta & raw & rows & _ & _ & _ & _ & _ & _ & Hs & Hd).
  split; [exact Hs|]. split; [exact Hd | reflexivity].
Defined.

(** ** The response check *)

(** X24.  [fetch_api_raw] returns what [r.json()] gives exactly when the
    first character of the body that is not whitespace is an opening brace;
    any other body, an HTML page, a JSON array or an empty body, raises
    [RuntimeError] before it is decoded. *)
Theorem blocked_unless_object (text : string) (decoded : result pyval) :
  fetch_api_raw_check text decoded =
  if decide (first_visible text = Some "{"%char) then decoded
  else Raise RuntimeError.
Proof.
  unfold fetch_api_raw_check, startswith, first_visible, Py.strip.
  destruct (strip_core (list_ascii_of_string text)) as (_ & _ & Hh).
  cbv zeta in Hh. rewrite <- Hh.
  destruct (rev _) as [|c t]; [done|].
  cbn [string_of_list_ascii String.prefix head].
  destruct (ascii_dec "{" c) as [<-|Hne].
  - rewrite decide_True by done. by destruct (string_of_list_ascii t).
  - by rewrite decide_False by congruence.
Qed.
